(** * A first-fit arena allocator (PA_1_new.cpp), embedded and verified

    The program is a user-space allocator over OS regions ("arenas").  Every
    block is a [MemBlock] header written into the arena memory itself, followed
    by its payload; a hash map [block_map] records the addresses of the
    headers that are currently blocks.

    Modelling choices, all taken from the source:
    - [size_t] and pointers are 64-bit (the program includes windows.h and is
      built for x64): they are [Z] values in [0, 2^64) and every addition or
      subtraction the source performs on them is followed by [wrap].
    - [sizeof(MemBlock)] is 16: an 8-byte [size] at offset 0 and the three
      [bool]s at offsets 8, 9 and 10, padded to the alignment of [size_t].
    - Memory is one flat byte store [Z -> Z]: headers and payloads live in the
      same bytes, as in the program, so that a header left behind by a merge
      stays readable and a payload write can overwrite it.
    - [block_map] is an [unordered_map<void*, MemBlock*>] whose value is always
      the key itself; it is the list of its keys in iteration order.  No
      theorem below constrains that order.
    - [VirtualAlloc] is the environment: its return value is an argument [os]
      of the operations that may call it (0 is the null pointer, a failed
      request); the region it returns is zero-filled.
    - The loops that walk an arena or sweep the index are defined with fuel;
      [None] is the outcome "did not finish", and the theorems prove [Some]. *)

From Stdlib Require Import ZArith List Lia Bool.
From Stdlib Require String Sorted.
Import Sorted.
Import ListNotations.
Local Open Scope Z_scope.

(** ** Machine arithmetic *)

Definition word_modulus : Z := 2 ^ 64.

Definition wrap (x : Z) : Z := x mod word_modulus.

Definition sizeof_MemBlock : Z := 16.

Definition default_arena_size : Z := 4096.

Definition NULL : Z := 0.

(** [(size + 3) & ~3], on [size_t]. *)
Definition align_mem_size (size : Z) : Z :=
  Z.land (wrap (size + 3)) (wrap (Z.lnot 3)).

(** ** Byte-addressed memory *)

Definition mem : Type := Z -> Z.

Definition load8 (m : mem) (a : Z) : Z := m a mod 256.

Definition store8 (m : mem) (a v : Z) : mem :=
  fun x => if x =? a then v mod 256 else m x.

(** Little-endian integers of [n] bytes. *)
Fixpoint load_le (m : mem) (a : Z) (n : nat) : Z :=
  match n with
  | O => 0
  | S k => load8 m a + 256 * load_le m (a + 1) k
  end.

Fixpoint store_le (m : mem) (a : Z) (n : nat) (v : Z) : mem :=
  match n with
  | O => m
  | S k => store_le (store8 m a v) (a + 1) k (v / 256)
  end.

(** [memcpy(dst, src, n)] for regions that do not overlap. *)
Definition memcpy (m : mem) (dst src n : Z) : mem :=
  fun x => if (dst <=? x) && (x <? dst + n) then m (src + (x - dst)) else m x.

(** The zero-filled pages of a fresh [VirtualAlloc] region. *)
Definition zero_fill (m : mem) (base size : Z) : mem :=
  fun x => if (base <=? x) && (x <? base + size) then 0 else m x.

(** A caller writing bytes [l] at address [p]. *)
Fixpoint store_bytes (m : mem) (p : Z) (l : list Z) : mem :=
  match l with
  | [] => m
  | b :: l' => store_bytes (store8 m p b) (p + 1) l'
  end.

(** ** The two structs *)

Module MemBlock.
Record t : Type := mk { size : Z; free : bool; first : bool; last : bool }.
End MemBlock.

Module MemArena.
(** The [next] pointer is the tail of the list the arena is stored in. *)
Record t : Type := mk { size : Z; base : Z }.
(** One past the last byte of the arena. *)
Definition limit (a : t) : Z := base a + size a.
End MemArena.

(** Field accesses through a [MemBlock*]. *)
Definition get_size (m : mem) (b : Z) : Z := load_le m b 8.
Definition get_free (m : mem) (b : Z) : bool := negb (load8 m (b + 8) =? 0).
Definition get_first (m : mem) (b : Z) : bool := negb (load8 m (b + 9) =? 0).
Definition get_last (m : mem) (b : Z) : bool := negb (load8 m (b + 10) =? 0).

Definition set_size (m : mem) (b v : Z) : mem := store_le m b 8 v.
Definition set_free (m : mem) (b : Z) (v : bool) : mem :=
  store8 m (b + 8) (if v then 1 else 0).
Definition set_first (m : mem) (b : Z) (v : bool) : mem :=
  store8 m (b + 9) (if v then 1 else 0).
Definition set_last (m : mem) (b : Z) (v : bool) : mem :=
  store8 m (b + 10) (if v then 1 else 0).

Definition block_at (m : mem) (b : Z) : MemBlock.t :=
  MemBlock.mk (get_size m b) (get_free m b) (get_first m b) (get_last m b).

(** ** Allocator state: the three globals *)

Record state : Type := mkState {
  arena_list : list MemArena.t;
  block_map : list Z;
  memory : mem
}.

Definition initial_state : state := mkState [] [] (fun _ => 0).

(** [block_map.find(k) != block_map.end()] *)
Definition map_find (k : Z) (keys : list Z) : bool := existsb (Z.eqb k) keys.

(** [block_map[k] = k] *)
Definition map_insert (k : Z) (keys : list Z) : list Z :=
  if map_find k keys then keys else k :: keys.

(** [block_map.erase(k)] *)
Definition map_erase (k : Z) (keys : list Z) : list Z :=
  filter (fun x => negb (x =? k)) keys.

(** ** The allocator *)

Definition create_new_arena (st : state) (size default_size os : Z)
  : state * option MemArena.t :=
  let size := Z.max size default_size in
  let size := align_mem_size size in
  let base := os in
  if base =? NULL then (st, None)
  else
    let arena := MemArena.mk size base in
    let m := zero_fill (memory st) base size in
    let m := set_size m base (wrap (size - sizeof_MemBlock)) in
    let m := set_free m base true in
    let m := set_first m base true in
    let m := set_last m base true in
    (mkState (arena :: arena_list st) (map_insert base (block_map st)) m,
     Some arena).

Definition split_mem_block (st : state) (block size : Z) : state :=
  let size := align_mem_size size in
  let m := memory st in
  if wrap (size + sizeof_MemBlock + 4) <=? get_size m block then
    let new_block := wrap (block + sizeof_MemBlock + size) in
    let m := set_size m new_block
               (wrap (get_size m block - size - sizeof_MemBlock)) in
    let m := set_free m new_block true in
    let m := set_first m new_block false in
    let m := set_last m new_block (get_last m block) in
    let m := set_size m block size in
    let m := set_last m block false in
    mkState (arena_list st) (map_insert new_block (block_map st)) m
  else st.

(** The sweep of [merge_free_blocks]: [todo] is what the iterator [it] has
    still to visit, its head being [*it]; [keys] is the whole map.  An erase
    removes the key from both, and [continue] keeps the head in place. *)
Fixpoint merge_loop (fuel : nat) (todo keys : list Z) (m : mem)
  : option (list Z * mem) :=
  match fuel with
  | O => None
  | S fuel' =>
    match todo with
    | [] => Some (keys, m)
    | block :: rest =>
      if get_free m block then
        let next_block := wrap (block + sizeof_MemBlock + get_size m block) in
        if map_find next_block keys && get_free m next_block then
          let m := set_size m block
                     (wrap (get_size m block + wrap (sizeof_MemBlock + get_size m next_block))) in
          let m := set_last m block (get_last m next_block) in
          merge_loop fuel' (map_erase next_block todo) (map_erase next_block keys) m
        else merge_loop fuel' rest keys m
      else merge_loop fuel' rest keys m
    end
  end.

Definition merge_fuel (keys : list Z) : nat := S (length keys + length keys).

Definition merge_free_blocks (st : state) : option state :=
  match merge_loop (merge_fuel (block_map st)) (block_map st) (block_map st) (memory st) with
  | Some (keys, m) => Some (mkState (arena_list st) keys m)
  | None => None
  end.

(** The [while] loop of [allocate_memory_block], from the cursor [base]. *)
Fixpoint walk_arena (fuel : nat) (st : state) (arena : MemArena.t) (size base : Z)
  : option (state * Z) :=
  match fuel with
  | O => None
  | S fuel' =>
    if base <? wrap (MemArena.base arena + MemArena.size arena) then
      let block := base in
      if get_free (memory st) block && (size <=? get_size (memory st) block) then
        let st := split_mem_block st block size in
        let st := mkState (arena_list st) (block_map st)
                    (set_free (memory st) block false) in
        Some (st, wrap (base + sizeof_MemBlock))
      else
        walk_arena fuel' st arena size
          (wrap (base + wrap (sizeof_MemBlock + get_size (memory st) block)))
    else Some (st, NULL)
  end.

(** Without wrap-around every iteration advances the cursor by at least one
    header. *)
Definition walk_fuel (arena : MemArena.t) : nat :=
  S (Z.to_nat (MemArena.size arena / sizeof_MemBlock)).

Definition allocate_memory_block (st : state) (arena : MemArena.t) (size : Z)
  : option (state * Z) :=
  let size := align_mem_size size in
  walk_arena (walk_fuel arena) st arena size (MemArena.base arena).

(** The [for] loop of [mem_alloc] over the arena list. *)
Fixpoint try_arenas (st : state) (arenas : list MemArena.t) (size : Z)
  : option (state * Z) :=
  match arenas with
  | [] => Some (st, NULL)
  | arena :: next =>
    match allocate_memory_block st arena size with
    | None => None
    | Some (st', ptr) =>
      if negb (ptr =? NULL) then Some (st', ptr) else try_arenas st' next size
    end
  end.

Definition mem_alloc (st : state) (size os : Z) : option (state * Z) :=
  if size =? 0 then Some (st, NULL)
  else
    let size := align_mem_size size in
    match try_arenas st (arena_list st) size with
    | None => None
    | Some (st, ptr) =>
      if negb (ptr =? NULL) then Some (st, ptr)
      else
        match create_new_arena st (wrap (size + sizeof_MemBlock)) default_arena_size os with
        | (st, None) => Some (st, NULL)
        | (st, Some new_arena) => allocate_memory_block st new_arena size
        end
    end.

Definition mem_free (st : state) (ptr : Z) : option state :=
  if ptr =? NULL then Some st
  else
    let block := wrap (ptr - sizeof_MemBlock) in
    if negb (map_find block (block_map st)) then Some st
    else
      merge_free_blocks
        (mkState (arena_list st) (block_map st) (set_free (memory st) block true)).

Definition mem_realloc (st : state) (ptr size os : Z) : option (state * Z) :=
  if ptr =? NULL then mem_alloc st size os
  else
    let size := align_mem_size size in
    let block := wrap (ptr - sizeof_MemBlock) in
    if negb (map_find block (block_map st)) then Some (st, NULL)
    else if size <=? get_size (memory st) block then
      Some (split_mem_block st block size, ptr)
    else
      match mem_alloc st size os with
      | None => None
      | Some (st, new_ptr) =>
        if new_ptr =? NULL then Some (st, NULL)
        else
          let m := memcpy (memory st) new_ptr ptr (get_size (memory st) block) in
          match mem_free (mkState (arena_list st) (block_map st) m) ptr with
          | None => None
          | Some st => Some (st, new_ptr)
          end
      end.

(** ** Representation invariant *)

(** The address just after the payload of the block whose header is at [k];
    a successor header, if any, starts there. *)
Definition block_end (m : mem) (k : Z) : Z := k + sizeof_MemBlock + get_size m k.

Definition in_arena (a : MemArena.t) (x : Z) : Prop :=
  MemArena.base a <= x < MemArena.limit a.

(** What the program relies on for every region [VirtualAlloc] returned. *)
Definition arena_ok (a : MemArena.t) : Prop :=
  0 < MemArena.base a /\ MemArena.base a mod 4 = 0 /\
  MemArena.size a mod 4 = 0 /\ sizeof_MemBlock <= MemArena.size a /\
  MemArena.limit a < word_modulus.

(** Two arenas with at least one byte between them. *)
Definition separated (a b : MemArena.t) : Prop :=
  MemArena.limit a < MemArena.base b \/ MemArena.limit b < MemArena.base a.

(** A block that lies inside arena [a]. *)
Definition block_ok (m : mem) (a : MemArena.t) (k : Z) : Prop :=
  MemArena.base a <= k /\ k mod 4 = 0 /\ get_size m k mod 4 = 0 /\
  block_end m k <= MemArena.limit a.

(** No two indexed blocks share a byte. *)
Definition blocks_disjoint (m : mem) (keys : list Z) : Prop :=
  forall k1 k2, In k1 keys -> In k2 keys -> k1 <> k2 ->
    block_end m k1 <= k2 \/ block_end m k2 <= k1.

(** The part of the invariant the coalescing sweep needs; it says nothing
    about arenas. *)
Record index_ok (m : mem) (keys : list Z) : Prop := {
  index_nodup : NoDup keys;
  index_range : forall k, In k keys -> 0 <= k /\ block_end m k < word_modulus;
  index_disjoint : blocks_disjoint m keys
}.

(** Well-formed allocator states: every arena is tiled by indexed blocks.
    The tiling is stated locally: the arena base is a block, each block stays
    inside its arena and is followed by the arena limit or by another block,
    and blocks do not overlap. *)
Record wf (st : state) : Prop := {
  wf_arenas : forall a, In a (arena_list st) -> arena_ok a;
  wf_separated : forall a b, In a (arena_list st) -> In b (arena_list st) ->
      a = b \/ separated a b;
  wf_nodup : NoDup (block_map st);
  wf_blocks : forall k, In k (block_map st) ->
      exists a, In a (arena_list st) /\ block_ok (memory st) a k /\
        (block_end (memory st) k = MemArena.limit a \/
         In (block_end (memory st) k) (block_map st));
  wf_disjoint : blocks_disjoint (memory st) (block_map st);
  wf_base : forall a, In a (arena_list st) -> In (MemArena.base a) (block_map st)
}.

(** The size [mem_alloc] asks [VirtualAlloc] for when no arena fits [n]. *)
Definition arena_size_for (n : Z) : Z :=
  align_mem_size (Z.max (wrap (align_mem_size n + sizeof_MemBlock)) default_arena_size).

(** A region the OS may hand out: aligned, inside the address space and
    with at least one byte between it and every arena already in use. *)
Definition fresh_region (st : state) (base size : Z) : Prop :=
  0 < base /\ base mod 4 = 0 /\ base + size < word_modulus /\
  forall a, In a (arena_list st) ->
    base + size < MemArena.base a \/ MemArena.limit a < base.

(** The answer of [VirtualAlloc] to a request made by [mem_alloc st n]:
    failure, or a fresh region. *)
Definition os_ok (st : state) (n os : Z) : Prop :=
  os = NULL \/ fresh_region st os (arena_size_for n).

(** Sum of [sizeof(MemBlock) + size] over the indexed blocks inside an arena. *)
Definition arena_footprint (st : state) (a : MemArena.t) : Z :=
  fold_right Z.add 0
    (map (fun k => sizeof_MemBlock + get_size (memory st) k)
       (filter (fun k => (MemArena.base a <=? k) && (k <? MemArena.limit a))
          (block_map st))).

(** Two indexed free blocks, the second starting where the first ends. *)
Definition adjacent_free (st : state) (k1 k2 : Z) : Prop :=
  In k1 (block_map st) /\ In k2 (block_map st) /\
  get_free (memory st) k1 = true /\ get_free (memory st) k2 = true /\
  k2 = block_end (memory st) k1.

(** Payload regions [p, p + n) and [q, q + k) share no byte. *)
Definition payload_disjoint (p n q k : Z) : Prop := p + n <= q \/ q + k <= p.

(** What [allocate_memory_block] does to the block it picks: the body of the
    [if] inside its loop. *)
Definition take_block (st : state) (block size : Z) : state :=
  let st := split_mem_block st block size in
  mkState (arena_list st) (block_map st) (set_free (memory st) block false).

(** A free indexed block of arena [a] that can hold [s] bytes. *)
Definition fits (st : state) (a : MemArena.t) (s b : Z) : Prop :=
  In b (block_map st) /\ in_arena a b /\
  get_free (memory st) b = true /\ s <= get_size (memory st) b.

(** What one merge writes: the body of the inner [if] of
    [merge_free_blocks], without the erase. *)
Definition absorb (m : mem) (block next_block : Z) : mem :=
  let m := set_size m block
             (wrap (get_size m block + wrap (sizeof_MemBlock + get_size m next_block))) in
  set_last m block (get_last m next_block).

(** The address in a header: [x] is one of the 16 bytes of the header at [k]. *)
Definition in_header (k x : Z) : Prop := k <= x < k + sizeof_MemBlock.

(** Invariant of the sweep started on index [keys0] and memory [m0]:
    the index stays in order and shrinks, no [free] flag changes, blocks in
    use are neither erased nor written, only headers of free blocks are
    written, and every block already visited has no free successor. *)
Definition sweep_inv (m0 : mem) (keys0 todo keys : list Z) (m : mem) : Prop :=
  index_ok m keys /\ NoDup todo /\ incl todo keys /\ incl keys keys0 /\
  (forall k, In k keys -> get_free m k = get_free m0 k) /\
  (forall k, In k keys0 -> get_free m0 k = false -> In k keys) /\
  (forall x, (forall k, In k keys0 -> get_free m0 k = true -> ~ in_header k x) ->
             m x = m0 x) /\
  (forall k, In k keys -> ~ In k todo -> get_free m k = true ->
     ~ (In (block_end m k) keys /\ get_free m (block_end m k) = true)).

(** ** Concrete traces

    The state an operation leaves behind and the pointer it returns, for
    writing down runs of the program. *)
Definition after_alloc (st : state) (n os : Z) : state :=
  match mem_alloc st n os with Some (st', _) => st' | None => st end.

Definition after_free (st : state) (p : Z) : state :=
  match mem_free st p with Some st' => st' | None => st end.

Definition after_realloc (st : state) (p n os : Z) : state :=
  match mem_realloc st p n os with Some (st', _) => st' | None => st end.

Definition returned (r : option (state * Z)) : option Z := option_map snd r.

(** Two requests of 65520 bytes, each answered by the OS with a region of
    exactly one 64 KiB allocation unit; the second region starts where the
    first ends.  Then both blocks are released. *)
Definition arena_lo : MemArena.t := MemArena.mk 65536 65536.
Definition arena_hi : MemArena.t := MemArena.mk 65536 131072.
Definition twin_1 : state := after_alloc initial_state 65520 65536.
Definition twin_2 : state := after_alloc twin_1 65520 131072.
Definition twin_3 : state := after_free twin_2 65552.
Definition twin_4 : state := after_free twin_3 131088.

(** The run goes on after the two releases, with no further answer of the
    OS: [mem_alloc(100)], [ptr = mem_alloc(50)], [mem_alloc(65336)],
    [mem_alloc(65436)], then fifty bytes written at [ptr]. *)
Definition cross_1 : state := after_alloc twin_4 100 NULL.
Definition cross_2 : state := after_alloc cross_1 50 NULL.
Definition cross_3 : state := after_alloc cross_2 65336 NULL.
Definition cross_4 : state := after_alloc cross_3 65436 NULL.

(** [p = mem_alloc(100)], [q = mem_alloc(200)], [mem_free(q)]. *)
Definition grow_1 : state := after_alloc initial_state 100 65536.
Definition grow_2 : state := after_alloc grow_1 200 NULL.
Definition grow_3 : state := after_free grow_2 65668.

(** [p = mem_alloc(100)], [mem_realloc(p, 8)]. *)
Definition shrink_2 : state := after_realloc grow_1 65552 8 NULL.


(** [p = mem_alloc(50)], fifty bytes written at [p]. *)
Definition pattern_50 : list Z := map Z.of_nat (seq 1 50).
Definition copy_1 : state := after_alloc initial_state 50 65536.
Definition copy_2 : state :=
  mkState (arena_list copy_1) (block_map copy_1)
    (store_bytes (memory copy_1) 65552 pattern_50).

(** The run that goes on after the two releases, once the caller has written
    the fifty bytes at [ptr] = 131204. *)
Definition cross_5 : state :=
  mkState (arena_list cross_4) (block_map cross_4)
    (store_bytes (memory cross_4) 131204 pattern_50).

(** Whether a run finished, without its result. *)
Definition finished {A : Type} (r : option A) : bool :=
  match r with Some _ => true | None => false end.

(** ** Diagnostics: [mem_show] *)

(** One line of the listing.  The wording of a line is fixed by the program;
    a line is recorded by the values it prints ("Yes"/"No" as a [bool]). *)
Inductive show_line : Type :=
| ShowMessage (message : String.string)
| ShowArena (base size : Z)
| ShowBlock (size : Z) (free first last : bool).

(** The [while] loop of [mem_show] over the blocks of one arena. *)
Fixpoint show_blocks (fuel : nat) (m : mem) (arena : MemArena.t) (base : Z)
  : option (list show_line) :=
  match fuel with
  | O => None
  | S fuel' =>
    if base <? wrap (MemArena.base arena + MemArena.size arena) then
      let block := base in
      let line := ShowBlock (get_size m block) (get_free m block)
                    (get_first m block) (get_last m block) in
      match show_blocks fuel' m arena
              (wrap (base + wrap (sizeof_MemBlock + get_size m block))) with
      | None => None
      | Some lines => Some (line :: lines)
      end
    else Some []
  end.

(** The [for] loop of [mem_show] over the arena list. *)
Fixpoint show_arenas (m : mem) (arenas : list MemArena.t) : option (list show_line) :=
  match arenas with
  | [] => Some []
  | arena :: next =>
    match show_blocks (walk_fuel arena) m arena (MemArena.base arena) with
    | None => None
    | Some blocks =>
      match show_arenas m next with
      | None => None
      | Some rest =>
        Some (ShowArena (MemArena.base arena) (MemArena.size arena) :: blocks ++ rest)
      end
    end
  end.

(** What [mem_show] writes to [std::cout], line by line. *)
Definition mem_show (st : state) (message : String.string) : option (list show_line) :=
  match show_arenas (memory st) (arena_list st) with
  | None => None
  | Some lines => Some (ShowMessage message :: lines)
  end.

(** The line [mem_show] prints for the block whose header is at [k]. *)
Definition block_line (m : mem) (k : Z) : show_line :=
  ShowBlock (get_size m k) (get_free m k) (get_first m k) (get_last m k).

(** The indexed blocks of arena [a] from address [x] on, as a list [addrs]
    in increasing address order. *)
Definition lists_blocks_from (st : state) (a : MemArena.t) (x : Z) (addrs : list Z) : Prop :=
  StronglySorted Z.lt addrs /\
  forall k, In k addrs <-> (In k (block_map st) /\ x <= k /\ k < MemArena.limit a).

(** ** The helpers of the test driver *)

Definition uint32_modulus : Z := 2 ^ 32.

(** The loop of [compute_checksum]: [count] iterations are left, [i] is the
    loop index and [checksum] the [uint32_t] accumulator. *)
Fixpoint checksum_loop (m : mem) (data : Z) (count : nat) (i checksum : Z) : Z :=
  match count with
  | O => checksum
  | S count' =>
    checksum_loop m data count' (i + 1) ((checksum + load8 m (data + i)) mod uint32_modulus)
  end.

Definition compute_checksum (m : mem) (data size : Z) : Z :=
  checksum_loop m data (Z.to_nat size) 0 0.

(** The loop of [fill_data_randomly].  [rand k] is the value of the [k]-th
    call of [rand()] made by the loop, a non-negative [int]. *)
Fixpoint fill_loop (m : mem) (data : Z) (count : nat) (i : Z) (rand : nat -> Z) (calls : nat)
  : mem :=
  match count with
  | O => m
  | S count' =>
    fill_loop (store8 m (data + i) (rand calls mod 256)) data count' (i + 1) rand (S calls)
  end.

Definition fill_data_randomly (m : mem) (data size : Z) (rand : nat -> Z) : mem :=
  fill_loop m data (Z.to_nat size) 0 rand 0.

(** Sum of the first [n] bytes at [data], without wrap-around. *)
Fixpoint byte_sum (m : mem) (data : Z) (n : nat) : Z :=
  match n with
  | O => 0
  | S n' => byte_sum m data n' + load8 m (data + Z.of_nat n')
  end.

(** Block [k] of [st] is still indexed in [st'] and none of its bytes,
    header or payload, has changed. *)
Definition block_untouched (st st' : state) (k : Z) : Prop :=
  In k (block_map st') /\
  forall x, k <= x < block_end (memory st) k -> memory st' x = memory st x.

(** Every block that was free when the sweep started lies inside a block
    that is free and indexed now. *)
Definition covered (m0 : mem) (keys0 keys : list Z) (m : mem) : Prop :=
  forall k0, In k0 keys0 -> get_free m0 k0 = true ->
    exists k, In k keys /\ get_free m k = true /\
              k <= k0 /\ block_end m0 k0 <= block_end m k.

(** The lines [mem_show] prints for one arena whose blocks are at [addrs]. *)
Definition arena_lines (m : mem) (a : MemArena.t) (addrs : list Z) : list show_line :=
  ShowArena (MemArena.base a) (MemArena.size a) :: map (block_line m) addrs.

(** Sum of the first [n] bytes drawn from [rand]. *)
Fixpoint rand_sum (rand : nat -> Z) (n : nat) : Z :=
  match n with
  | O => 0
  | S n' => rand_sum rand n' + rand n' mod 256
  end.

(** * Proofs *)
(** ** Machine arithmetic *)

Lemma wrap_range x : 0 <= wrap x < word_modulus.
Proof. unfold wrap, word_modulus. apply Z.mod_pos_bound. lia. Qed.

Lemma wrap_small x : 0 <= x < word_modulus -> wrap x = x.
Proof. intros H. unfold wrap. apply Z.mod_small. exact H. Qed.

Lemma align_mem_size_eq s : align_mem_size s = 4 * (wrap (s + 3) / 4).
Proof.
  unfold align_mem_size.
  pose proof (wrap_range (s + 3)) as Hr. set (y := wrap (s + 3)) in *.
  assert (Hm : wrap (Z.lnot 3) = Z.land (Z.lnot 3) (Z.ones 64)).
  { unfold wrap, word_modulus. rewrite Z.land_ones by lia. reflexivity. }
  rewrite Hm. rewrite (Z.land_comm (Z.lnot 3)). rewrite Z.land_assoc.
  rewrite (Z.land_ones y 64) by lia.
  change (2 ^ 64) with word_modulus. rewrite (Z.mod_small y) by lia.
  rewrite <- Z.ldiff_land. change 3 with (Z.ones 2).
  rewrite Z.ldiff_ones_r by lia.
  rewrite Z.shiftr_div_pow2, Z.shiftl_mul_pow2 by lia.
  change (2 ^ 2) with 4. lia.
Qed.

Lemma align_range s : 0 <= align_mem_size s < word_modulus.
Proof.
  rewrite align_mem_size_eq. pose proof (wrap_range (s + 3)) as H.
  unfold word_modulus in *. Z.div_mod_to_equations. lia.
Qed.

Lemma align_mod4 s : align_mem_size s mod 4 = 0.
Proof.
  rewrite align_mem_size_eq. rewrite Z.mul_comm. apply Z.mod_mul. lia.
Qed.

Lemma align_bounds s :
  0 <= s <= word_modulus - 4 -> s <= align_mem_size s < s + 4.
Proof.
  intros H. rewrite align_mem_size_eq. rewrite wrap_small by (unfold word_modulus in *; lia).
  Z.div_mod_to_equations. lia.
Qed.

Lemma align_fixed s :
  0 <= s < word_modulus -> s mod 4 = 0 -> align_mem_size s = s.
Proof.
  intros H H4. rewrite align_mem_size_eq.
  assert (s <= word_modulus - 4) by (unfold word_modulus in *; Z.div_mod_to_equations; lia).
  rewrite wrap_small by (unfold word_modulus in *; lia).
  Z.div_mod_to_equations. lia.
Qed.

Lemma align_idem s : align_mem_size (align_mem_size s) = align_mem_size s.
Proof. apply align_fixed; [apply align_range | apply align_mod4]. Qed.


(** ** Memory: bytes and little-endian words *)

Lemma load8_range m a : 0 <= load8 m a < 256.
Proof. unfold load8. apply Z.mod_pos_bound. lia. Qed.

Lemma store8_same m a v : store8 m a v a = v mod 256.
Proof. unfold store8. rewrite Z.eqb_refl. reflexivity. Qed.

Lemma store8_other m a v x : x <> a -> store8 m a v x = m x.
Proof. intros H. unfold store8. destruct (Z.eqb_spec x a); [contradiction | reflexivity]. Qed.

Lemma store_le_outside n : forall m a v x,
  x < a \/ a + Z.of_nat n <= x -> store_le m a n v x = m x.
Proof.
  induction n as [|n IH]; intros m a v x H; cbn [store_le]; [reflexivity|].
  rewrite IH by lia. apply store8_other. lia.
Qed.

Lemma load_le_ext n : forall m m' a,
  (forall x, a <= x < a + Z.of_nat n -> m' x = m x) ->
  load_le m' a n = load_le m a n.
Proof.
  induction n as [|n IH]; intros m m' a H; cbn [load_le]; [reflexivity|].
  unfold load8. rewrite H by lia. f_equal. f_equal. apply IH.
  intros x Hx. apply H. lia.
Qed.

Lemma load_le_range n : forall m a, 0 <= load_le m a n < 256 ^ Z.of_nat n.
Proof.
  induction n as [|n IH]; intros m a.
  - simpl. lia.
  - cbn [load_le]. rewrite Nat2Z.inj_succ, Z.pow_succ_r by lia.
    pose proof (load8_range m a). pose proof (IH m (a + 1)). nia.
Qed.

Lemma load_store_le n : forall m a v,
  load_le (store_le m a n v) a n = v mod 256 ^ Z.of_nat n.
Proof.
  induction n as [|n IH]; intros m a v.
  - simpl. symmetry. apply Z.mod_1_r.
  - cbn [load_le store_le]. rewrite IH.
    unfold load8. rewrite store_le_outside by lia. rewrite store8_same.
    rewrite Z.mod_mod by lia.
    rewrite Nat2Z.inj_succ, Z.pow_succ_r by lia.
    rewrite (Z.rem_mul_r v 256 (256 ^ Z.of_nat n)) by lia. reflexivity.
Qed.

(** ** Memory: header fields *)

Lemma get_size_range m b : 0 <= get_size m b < word_modulus.
Proof. unfold get_size. exact (load_le_range 8 m b). Qed.

Lemma get_size_ext m m' b :
  (forall x, b <= x < b + 8 -> m' x = m x) -> get_size m' b = get_size m b.
Proof. intros H. unfold get_size. apply load_le_ext. exact H. Qed.

Lemma get_free_ext m m' b : m' (b + 8) = m (b + 8) -> get_free m' b = get_free m b.
Proof. intros H. unfold get_free, load8. rewrite H. reflexivity. Qed.

Lemma get_first_ext m m' b : m' (b + 9) = m (b + 9) -> get_first m' b = get_first m b.
Proof. intros H. unfold get_first, load8. rewrite H. reflexivity. Qed.

Lemma get_last_ext m m' b : m' (b + 10) = m (b + 10) -> get_last m' b = get_last m b.
Proof. intros H. unfold get_last, load8. rewrite H. reflexivity. Qed.

Lemma block_at_ext m m' b :
  (forall x, b <= x < b + sizeof_MemBlock -> m' x = m x) -> block_at m' b = block_at m b.
Proof.
  unfold sizeof_MemBlock. intros H. unfold block_at.
  rewrite (get_size_ext m m'), (get_free_ext m m'), (get_first_ext m m'), (get_last_ext m m');
    try reflexivity; try (apply H; lia).
  intros x Hx. apply H. lia.
Qed.

Lemma set_size_outside m b v x : x < b \/ b + 8 <= x -> set_size m b v x = m x.
Proof. intros H. unfold set_size. apply store_le_outside. simpl. lia. Qed.

Lemma set_free_outside m b v x : x <> b + 8 -> set_free m b v x = m x.
Proof. intros H. unfold set_free. apply store8_other. exact H. Qed.

Lemma set_first_outside m b v x : x <> b + 9 -> set_first m b v x = m x.
Proof. intros H. unfold set_first. apply store8_other. exact H. Qed.

Lemma set_last_outside m b v x : x <> b + 10 -> set_last m b v x = m x.
Proof. intros H. unfold set_last. apply store8_other. exact H. Qed.

Lemma get_set_size m b v : 0 <= v < word_modulus -> get_size (set_size m b v) b = v.
Proof.
  intros H. unfold get_size, set_size. rewrite load_store_le.
  apply Z.mod_small. exact H.
Qed.

Lemma bool_byte (v : bool) : negb ((if v then 1 else 0) mod 256 mod 256 =? 0) = v.
Proof. destruct v; reflexivity. Qed.

Lemma get_set_free m b v : get_free (set_free m b v) b = v.
Proof. unfold get_free, set_free, load8. rewrite store8_same. apply bool_byte. Qed.

Lemma get_set_first m b v : get_first (set_first m b v) b = v.
Proof. unfold get_first, set_first, load8. rewrite store8_same. apply bool_byte. Qed.

Lemma get_set_last m b v : get_last (set_last m b v) b = v.
Proof. unfold get_last, set_last, load8. rewrite store8_same. apply bool_byte. Qed.

(** Rewriting a read past a write that cannot reach it. *)
Ltac outside :=
  repeat first
    [ rewrite set_size_outside by lia
    | rewrite set_free_outside by lia
    | rewrite set_first_outside by lia
    | rewrite set_last_outside by lia ].

Lemma get_size_set_size m b v k :
  k + 8 <= b \/ b + 8 <= k -> get_size (set_size m b v) k = get_size m k.
Proof. intros H. apply get_size_ext. intros x Hx. outside. reflexivity. Qed.

Lemma get_size_set_free m b v k :
  k + 8 <= b + 8 \/ b + 8 < k -> get_size (set_free m b v) k = get_size m k.
Proof. intros H. apply get_size_ext. intros x Hx. outside. reflexivity. Qed.

Lemma get_size_set_first m b v k :
  k + 8 <= b + 9 \/ b + 9 < k -> get_size (set_first m b v) k = get_size m k.
Proof. intros H. apply get_size_ext. intros x Hx. outside. reflexivity. Qed.

Lemma get_size_set_last m b v k :
  k + 8 <= b + 10 \/ b + 10 < k -> get_size (set_last m b v) k = get_size m k.
Proof. intros H. apply get_size_ext. intros x Hx. outside. reflexivity. Qed.

Lemma get_free_set_size m b v k :
  k + 8 < b \/ b + 8 <= k + 8 -> get_free (set_size m b v) k = get_free m k.
Proof. intros H. apply get_free_ext. outside. reflexivity. Qed.

Lemma get_free_set_free m b v k :
  k <> b -> get_free (set_free m b v) k = get_free m k.
Proof. intros H. apply get_free_ext. outside. reflexivity. Qed.

Lemma get_free_set_first m b v k :
  k + 8 <> b + 9 -> get_free (set_first m b v) k = get_free m k.
Proof. intros H. apply get_free_ext. outside. reflexivity. Qed.

Lemma get_free_set_last m b v k :
  k + 8 <> b + 10 -> get_free (set_last m b v) k = get_free m k.
Proof. intros H. apply get_free_ext. outside. reflexivity. Qed.

Lemma get_last_set_size m b v k :
  k + 10 < b \/ b + 8 <= k + 10 -> get_last (set_size m b v) k = get_last m k.
Proof. intros H. apply get_last_ext. outside. reflexivity. Qed.

Lemma get_last_set_free m b v k :
  k + 10 <> b + 8 -> get_last (set_free m b v) k = get_last m k.
Proof. intros H. apply get_last_ext. outside. reflexivity. Qed.

Lemma get_last_set_first m b v k :
  k + 10 <> b + 9 -> get_last (set_first m b v) k = get_last m k.
Proof. intros H. apply get_last_ext. outside. reflexivity. Qed.

Lemma get_last_set_last m b v k :
  k <> b -> get_last (set_last m b v) k = get_last m k.
Proof. intros H. apply get_last_ext. outside. reflexivity. Qed.

(** Simplifying header reads over a chain of header writes. *)
Ltac hdr :=
  repeat first
    [ rewrite get_set_size by lia
    | rewrite get_set_free
    | rewrite get_set_last
    | rewrite get_size_set_size by lia
    | rewrite get_size_set_free by lia
    | rewrite get_size_set_first by lia
    | rewrite get_size_set_last by lia
    | rewrite get_free_set_size by lia
    | rewrite get_free_set_free by lia
    | rewrite get_free_set_first by lia
    | rewrite get_free_set_last by lia
    | rewrite get_last_set_size by lia
    | rewrite get_last_set_free by lia
    | rewrite get_last_set_first by lia
    | rewrite get_last_set_last by lia ].

(** ** The index as a set of keys *)

Lemma map_find_In k keys : map_find k keys = true <-> In k keys.
Proof.
  unfold map_find. rewrite existsb_exists. split.
  - intros [x [Hx He]]. apply Z.eqb_eq in He. subst. exact Hx.
  - intros H. exists k. split; [exact H | apply Z.eqb_refl].
Qed.

Lemma map_find_not_In k keys : map_find k keys = false <-> ~ In k keys.
Proof.
  rewrite <- map_find_In. destruct (map_find k keys); split; congruence.
Qed.

Lemma map_find_true k keys : map_find k keys = true -> In k keys.
Proof. apply map_find_In. Qed.

Lemma map_find_false k keys : map_find k keys = false -> ~ In k keys.
Proof. apply map_find_not_In. Qed.

Lemma map_erase_In k x keys : In x (map_erase k keys) <-> In x keys /\ x <> k.
Proof.
  unfold map_erase. rewrite filter_In. rewrite negb_true_iff, Z.eqb_neq. tauto.
Qed.

Lemma map_erase_NoDup k keys : NoDup keys -> NoDup (map_erase k keys).
Proof. intros H. unfold map_erase. apply NoDup_filter. exact H. Qed.

Lemma map_erase_length_le k keys : (length (map_erase k keys) <= length keys)%nat.
Proof. unfold map_erase. apply filter_length_le. Qed.

Lemma map_erase_length_lt k keys :
  In k keys -> (length (map_erase k keys) < length keys)%nat.
Proof.
  unfold map_erase. induction keys as [|x l IH]; intros H; simpl in *; [contradiction|].
  destruct (Z.eqb_spec x k); simpl.
  - pose proof (filter_length_le (fun x => negb (x =? k)) l). lia.
  - destruct H as [H|H]; [congruence|]. specialize (IH H). lia.
Qed.

Lemma map_erase_notin k keys : ~ In k keys -> map_erase k keys = keys.
Proof.
  unfold map_erase. induction keys as [|x l IH]; intros H; simpl; [reflexivity|].
  destruct (Z.eqb_spec x k); simpl.
  - exfalso. apply H. left. exact e.
  - f_equal. apply IH. intros Hin. apply H. right. exact Hin.
Qed.

Lemma map_insert_In k x keys : In x (map_insert k keys) <-> x = k \/ In x keys.
Proof.
  unfold map_insert. destruct (map_find k keys) eqn:E.
  - apply map_find_In in E. split; [tauto|]. intros [->|H]; assumption.
  - simpl. split; intros [H|H]; auto.
Qed.

Lemma map_insert_fresh k keys : ~ In k keys -> map_insert k keys = k :: keys.
Proof.
  intros H. unfold map_insert. apply map_find_not_In in H. rewrite H. reflexivity.
Qed.

(** ** Consequences of the representation invariant *)

Lemma arena_limit_eq a : MemArena.limit a = MemArena.base a + MemArena.size a.
Proof. reflexivity. Qed.

Lemma wf_key st k :
  wf st -> In k (block_map st) ->
  4 <= k /\ k mod 4 = 0 /\ get_size (memory st) k mod 4 = 0 /\
  block_end (memory st) k < word_modulus.
Proof.
  intros W Hk. destruct (wf_blocks st W k Hk) as [a [Ha [[Hb [Hm [Hs He]]] _]]].
  destruct (wf_arenas st W a Ha) as [Hp [Hbm [_ [_ Hl]]]].
  repeat split; try assumption; try lia.
  assert (0 < k) by lia. Z.div_mod_to_equations. lia.
Qed.

Lemma wf_hdr_disjoint st k1 k2 :
  wf st -> In k1 (block_map st) -> In k2 (block_map st) -> k1 <> k2 ->
  k1 + sizeof_MemBlock <= k2 \/ k2 + sizeof_MemBlock <= k1.
Proof.
  intros W H1 H2 Hne.
  pose proof (get_size_range (memory st) k1). pose proof (get_size_range (memory st) k2).
  destruct (wf_disjoint st W k1 k2 H1 H2 Hne) as [D|D]; unfold block_end in D; lia.
Qed.

Lemma wf_index_ok st : wf st -> index_ok (memory st) (block_map st).
Proof.
  intros W. split.
  - apply (wf_nodup st W).
  - intros k Hk. pose proof (wf_key st k W Hk). lia.
  - apply (wf_disjoint st W).
Qed.

Lemma wf_arena_unique st a a' x :
  wf st -> In a (arena_list st) -> In a' (arena_list st) ->
  in_arena a x -> in_arena a' x -> a = a'.
Proof.
  intros W Ha Ha' [H1 H2] [H3 H4].
  destruct (wf_separated st W a a' Ha Ha') as [E|[S|S]]; [exact E | lia | lia].
Qed.

(** A block inside an arena is followed, inside the same arena, by the arena
    limit or by another block. *)
Lemma wf_block_in_arena st a k :
  wf st -> In a (arena_list st) -> In k (block_map st) -> in_arena a k ->
  block_ok (memory st) a k /\
  (block_end (memory st) k = MemArena.limit a \/
   (In (block_end (memory st) k) (block_map st) /\
    in_arena a (block_end (memory st) k))).
Proof.
  intros W Ha Hk Hin.
  destruct (wf_blocks st W k Hk) as [a' [Ha' [Hok Hnx]]].
  pose proof (get_size_range (memory st) k) as Hs.
  assert (a' = a).
  { apply (wf_arena_unique st a' a k W Ha' Ha); [|exact Hin].
    destruct Hok as [Hb [_ [_ He]]]. unfold block_end, sizeof_MemBlock in He.
    split; lia. }
  subst a'. split; [exact Hok|].
  destruct Hnx as [Hnx|Hnx]; [left; exact Hnx|].
  destruct Hok as [Hb [_ [_ He]]].
  destruct (Z.eq_dec (block_end (memory st) k) (MemArena.limit a)) as [E|NE]; [left; exact E|].
  right. split; [exact Hnx|]. split; [|lia].
  unfold block_end, sizeof_MemBlock in *. lia.
Qed.

(** Every indexed block lies in exactly one arena. *)
Lemma wf_key_arena st k :
  wf st -> In k (block_map st) ->
  exists a, In a (arena_list st) /\ in_arena a k /\
    block_end (memory st) k <= MemArena.limit a.
Proof.
  intros W Hk. destruct (wf_blocks st W k Hk) as [a [Ha [[Hb [_ [_ He]]] _]]].
  pose proof (get_size_range (memory st) k).
  exists a. split; [exact Ha|]. split; [|exact He].
  unfold block_end, sizeof_MemBlock in He. split; lia.
Qed.

(** The invariant reads memory only through the [size] fields of indexed
    headers. *)
Lemma wf_frame st m' :
  wf st ->
  (forall k, In k (block_map st) -> get_size m' k = get_size (memory st) k) ->
  wf (mkState (arena_list st) (block_map st) m').
Proof.
  intros W H.
  assert (HE : forall k, In k (block_map st) -> block_end m' k = block_end (memory st) k).
  { intros k Hk. unfold block_end. rewrite H by exact Hk. reflexivity. }
  split; simpl.
  - apply (wf_arenas st W).
  - apply (wf_separated st W).
  - apply (wf_nodup st W).
  - intros k Hk. destruct (wf_blocks st W k Hk) as [a [Ha [Hok Hnx]]].
    exists a. split; [exact Ha|]. unfold block_ok in *.
    rewrite (HE k Hk), (H k Hk). split; assumption.
  - intros k1 k2 H1 H2 Hne. rewrite (HE k1 H1), (HE k2 H2).
    apply (wf_disjoint st W); assumption.
  - apply (wf_base st W).
Qed.

Lemma index_ok_frame m m' keys :
  index_ok m keys ->
  (forall k, In k keys -> get_size m' k = get_size m k) ->
  index_ok m' keys.
Proof.
  intros [N R D] H.
  assert (HE : forall k, In k keys -> block_end m' k = block_end m k).
  { intros k Hk. unfold block_end. rewrite H by exact Hk. reflexivity. }
  split.
  - exact N.
  - intros k Hk. rewrite (HE k Hk). apply R. exact Hk.
  - intros k1 k2 H1 H2 Hne. rewrite (HE k1 H1), (HE k2 H2). apply D; assumption.
Qed.

(** Writing the [free] flag of an indexed block. *)
Lemma wf_set_free st b v :
  wf st -> In b (block_map st) ->
  wf (mkState (arena_list st) (block_map st) (set_free (memory st) b v)).
Proof.
  intros W Hb. apply wf_frame; [exact W|].
  intros k Hk. destruct (Z.eq_dec k b) as [->|Hne].
  - apply get_size_set_free. lia.
  - pose proof (wf_hdr_disjoint st k b W Hk Hb Hne). unfold sizeof_MemBlock in *.
    apply get_size_set_free. lia.
Qed.

(** Writes that stay inside the payload of one indexed block. *)
Lemma wf_payload_write st q m' :
  wf st -> In q (block_map st) ->
  (forall x, x < q + sizeof_MemBlock \/ block_end (memory st) q <= x -> m' x = memory st x) ->
  wf (mkState (arena_list st) (block_map st) m').
Proof.
  intros W Hq H. apply wf_frame; [exact W|].
  intros k Hk. apply get_size_ext. intros x Hx. apply H.
  unfold sizeof_MemBlock. destruct (Z.eq_dec k q) as [->|Hne]; [lia|].
  pose proof (get_size_range (memory st) k).
  destruct (wf_disjoint st W k q Hk Hq Hne) as [D|D]; unfold block_end, sizeof_MemBlock in *; lia.
Qed.

Lemma memcpy_outside m dst src n x :
  x < dst \/ dst + n <= x -> memcpy m dst src n x = m x.
Proof.
  intros H. unfold memcpy.
  destruct (Z.leb_spec dst x); destruct (Z.ltb_spec x (dst + n)); simpl; try reflexivity; lia.
Qed.

Lemma memcpy_inside m dst src n x :
  dst <= x < dst + n -> memcpy m dst src n x = m (src + (x - dst)).
Proof.
  intros H. unfold memcpy.
  destruct (Z.leb_spec dst x); destruct (Z.ltb_spec x (dst + n)); simpl; try reflexivity; lia.
Qed.

Lemma zero_fill_outside m base size x :
  x < base \/ base + size <= x -> zero_fill m base size x = m x.
Proof.
  intros H. unfold zero_fill.
  destruct (Z.leb_spec base x); destruct (Z.ltb_spec x (base + size)); simpl; try reflexivity; lia.
Qed.

Lemma store_bytes_outside l : forall m p x,
  x < p \/ p + Z.of_nat (length l) <= x -> store_bytes m p l x = m x.
Proof.
  induction l as [|b l IH]; intros m p x H; cbn [store_bytes]; [reflexivity|].
  cbn [length] in H. rewrite IH by lia. apply store8_other. lia.
Qed.

Lemma store_bytes_inside l : forall m p i,
  (i < length l)%nat -> store_bytes m p l (p + Z.of_nat i) = nth i l 0 mod 256.
Proof.
  induction l as [|b l IH]; intros m p i H; cbn [length] in H; [lia|].
  cbn [store_bytes]. destruct i as [|i].
  - rewrite store_bytes_outside by lia. cbn [nth]. rewrite Z.add_0_r. apply store8_same.
  - cbn [nth]. replace (p + Z.of_nat (S i)) with (p + 1 + Z.of_nat i) by lia.
    apply IH. lia.
Qed.

(** ** The splitter *)

Lemma split_no_room st b s :
  get_size (memory st) b < wrap (align_mem_size s + sizeof_MemBlock + 4) ->
  split_mem_block st b s = st.
Proof.
  intros H. unfold split_mem_block.
  destruct (Z.leb_spec (wrap (align_mem_size s + sizeof_MemBlock + 4)) (get_size (memory st) b));
    [lia | reflexivity].
Qed.

(** What a split writes, when the block does not run past the end of the
    address space: the new header sits at [b + 16 + s]. *)
Lemma split_room st b s :
  0 <= b -> block_end (memory st) b < word_modulus ->
  align_mem_size s + sizeof_MemBlock + 4 <= get_size (memory st) b ->
  let s' := align_mem_size s in
  let nb := b + sizeof_MemBlock + s' in
  let st' := split_mem_block st b s in
  arena_list st' = arena_list st /\
  block_map st' = map_insert nb (block_map st) /\
  get_size (memory st') b = s' /\
  get_size (memory st') nb = get_size (memory st) b - s' - sizeof_MemBlock /\
  get_free (memory st') b = get_free (memory st) b /\
  get_free (memory st') nb = true /\
  (forall x, x < b \/ b + sizeof_MemBlock <= x ->
             x < nb \/ nb + sizeof_MemBlock <= x -> memory st' x = memory st x).
Proof.
  intros Hb He Hroom s' nb st'.
  pose proof (align_range s) as Hs. fold s' in Hs, Hroom.
  pose proof (get_size_range (memory st) b) as Hg.
  unfold block_end, sizeof_MemBlock in *.
  assert (Hst : st' = mkState (arena_list st) (map_insert nb (block_map st))
     (set_last (set_size (set_last (set_first (set_free (set_size (memory st) nb
        (get_size (memory st) b - s' - 16)) nb true) nb false) nb
        (get_last (set_first (set_free (set_size (memory st) nb
        (get_size (memory st) b - s' - 16)) nb true) nb false) b)) b s') b false)).
  { subst st'. unfold split_mem_block. fold s'. unfold sizeof_MemBlock.
    rewrite (wrap_small (s' + 16 + 4)) by lia.
    destruct (Z.leb_spec (s' + 16 + 4) (get_size (memory st) b)); [|lia].
    rewrite (wrap_small (b + 16 + s')) by lia.
    rewrite (wrap_small (get_size (memory st) b - s' - 16)) by lia.
    reflexivity. }
  rewrite Hst. cbn [arena_list block_map memory].
  repeat split.
  - hdr. reflexivity.
  - subst nb. hdr. reflexivity.
  - subst nb. hdr. reflexivity.
  - subst nb. hdr. reflexivity.
  - intros x Hx1 Hx2. subst nb. outside. reflexivity.
Qed.

(** A split of an indexed block at an aligned size it can hold keeps the
    state well formed. *)
Lemma wf_split st b s :
  wf st -> In b (block_map st) -> align_mem_size s <= get_size (memory st) b ->
  wf (split_mem_block st b s).
Proof.
  intros W Hb Hfit.
  pose proof (wf_key st b W Hb) as [Hb4 [Hbm [Hsm Hbe]]].
  pose proof (align_range s) as Hs. pose proof (align_mod4 s) as Hs4.
  pose proof (get_size_range (memory st) b) as Hg.
  destruct (Z.lt_ge_cases (get_size (memory st) b) (align_mem_size s + sizeof_MemBlock + 4))
    as [Hno|Hroom].
  { rewrite split_no_room; [exact W|].
    rewrite wrap_small; [exact Hno|].
    unfold block_end, sizeof_MemBlock in *. lia. }
  destruct (split_room st b s ltac:(lia) Hbe Hroom)
    as [HA [HK [Hsb [Hsn [Hfb [Hfn Hfr]]]]]].
  set (s' := align_mem_size s) in *. set (nb := b + sizeof_MemBlock + s') in *.
  set (st' := split_mem_block st b s) in *.
  unfold block_end, sizeof_MemBlock in *.
  assert (Hnb_notin : ~ In nb (block_map st)).
  { intros Hin. assert (Hne : nb <> b) by (subst nb; lia).
    pose proof (get_size_range (memory st) nb).
    destruct (wf_disjoint st W nb b Hin Hb Hne) as [D|D];
      unfold block_end, sizeof_MemBlock in D; subst nb; lia. }
  rewrite (map_insert_fresh nb _ Hnb_notin) in HK.
  assert (Hother : forall k, In k (block_map st) -> k <> b ->
            get_size (memory st') k = get_size (memory st) k).
  { intros k Hk Hne. pose proof (get_size_range (memory st) k).
    apply get_size_ext. intros x Hx. apply Hfr.
    - destruct (wf_disjoint st W k b Hk Hb Hne) as [D|D];
        unfold block_end, sizeof_MemBlock in D; lia.
    - destruct (wf_disjoint st W k b Hk Hb Hne) as [D|D];
        unfold block_end, sizeof_MemBlock in D; subst nb; lia. }
  destruct (wf_blocks st W b Hb) as [ab [Hab [[Bb1 [_ [_ Bb4]]] Bnx]]].
  unfold block_end, sizeof_MemBlock in *.
  split.
  - rewrite HA. apply (wf_arenas st W).
  - rewrite HA. apply (wf_separated st W).
  - rewrite HK. constructor; [exact Hnb_notin | apply (wf_nodup st W)].
  - rewrite HK, HA. intros k [Hk|Hk].
    + subst k. exists ab. split; [exact Hab|]. unfold block_ok, block_end, sizeof_MemBlock.
      rewrite Hsn. split.
      * repeat split; try (subst nb; lia).
        -- subst nb. clear - Hbm Hs4. Z.div_mod_to_equations. lia.
        -- clear - Hsm Hs4. Z.div_mod_to_equations. lia.
      * replace (nb + 16 + (get_size (memory st) b - s' - 16))
          with (b + 16 + get_size (memory st) b) by (subst nb; lia).
        destruct Bnx as [E|I]; [left; exact E | right; right; exact I].
    + destruct (Z.eq_dec k b) as [->|Hne].
      * exists ab. split; [exact Hab|]. unfold block_ok, block_end, sizeof_MemBlock.
        rewrite Hsb. split.
        -- repeat split; try assumption. subst nb. lia.
        -- right. left. subst nb. reflexivity.
      * destruct (wf_blocks st W k Hk) as [a [Ha [Hok Hnx]]].
        exists a. split; [exact Ha|]. unfold block_ok, block_end in *.
        rewrite (Hother k Hk Hne). split; [exact Hok|].
        destruct Hnx as [E|I]; [left; exact E | right; right; exact I].
  - rewrite HK. intros k1 k2 H1 H2 Hne. unfold block_end, sizeof_MemBlock.
    assert (Hcase : forall k, In k (nb :: block_map st) ->
       (k = nb /\ get_size (memory st') k = get_size (memory st) b - s' - 16) \/
       (k = b /\ get_size (memory st') k = s') \/
       (In k (block_map st) /\ k <> b /\ get_size (memory st') k = get_size (memory st) k)).
    { intros k [Hk|Hk].
      - left. subst k. split; [reflexivity | exact Hsn].
      - destruct (Z.eq_dec k b) as [->|Hkb].
        + right. left. split; [reflexivity | exact Hsb].
        + right. right. repeat split; try assumption. apply Hother; assumption. }
    assert (Hdis : forall k, In k (block_map st) -> k <> b ->
       k + 16 + get_size (memory st) k <= b \/ b + 16 + get_size (memory st) b <= k).
    { intros k Hk Hkb.
      destruct (wf_disjoint st W k b Hk Hb Hkb) as [D|D];
        unfold block_end, sizeof_MemBlock in D; lia. }
    destruct (Hcase k1 H1) as [[E1 S1]|[[E1 S1]|[I1 [N1 S1]]]];
    destruct (Hcase k2 H2) as [[E2 S2]|[[E2 S2]|[I2 [N2 S2]]]];
      rewrite S1, S2; subst; try congruence; try (subst nb; lia).
    + specialize (Hdis k2 I2 N2). subst nb. lia.
    + specialize (Hdis k2 I2 N2). subst nb. lia.
    + specialize (Hdis k1 I1 N1). subst nb. lia.
    + specialize (Hdis k1 I1 N1). subst nb. lia.
    + destruct (wf_disjoint st W k1 k2 I1 I2 Hne) as [D|D];
        unfold block_end, sizeof_MemBlock in D; lia.
  - rewrite HA, HK. intros a Ha. right. apply (wf_base st W a Ha).
Qed.

(** ** Taking a block *)

Lemma take_block_props st b s :
  wf st -> In b (block_map st) ->
  align_mem_size s = s -> s <= get_size (memory st) b ->
  let st' := take_block st b s in
  wf st' /\
  arena_list st' = arena_list st /\
  (forall k, In k (block_map st) -> In k (block_map st')) /\
  get_free (memory st') b = false /\
  s <= get_size (memory st') b <= get_size (memory st) b /\
  (forall x, x < b \/ block_end (memory st) b <= x -> memory st' x = memory st x) /\
  (forall x, b + sizeof_MemBlock <= x < b + sizeof_MemBlock + s ->
             memory st' x = memory st x).
Proof.
  intros W Hb Hal Hfit st'.
  pose proof (wf_key st b W Hb) as [Hb4 [Hbm [Hsm Hbe]]].
  pose proof (get_size_range (memory st) b) as Hg.
  pose proof (align_range s) as Hs. rewrite Hal in Hs.
  assert (Hfit' : align_mem_size s <= get_size (memory st) b) by (rewrite Hal; exact Hfit).
  pose proof (wf_split st b s W Hb Hfit') as W1.
  assert (Hcases :
    (split_mem_block st b s = st) \/
    (s + sizeof_MemBlock + 4 <= get_size (memory st) b /\
     arena_list (split_mem_block st b s) = arena_list st /\
     block_map (split_mem_block st b s) = map_insert (b + sizeof_MemBlock + s) (block_map st) /\
     get_size (memory (split_mem_block st b s)) b = s /\
     (forall x, x < b \/ b + sizeof_MemBlock <= x ->
                x < b + sizeof_MemBlock + s \/ b + sizeof_MemBlock + s + sizeof_MemBlock <= x ->
                memory (split_mem_block st b s) x = memory st x))).
  { destruct (Z.lt_ge_cases (get_size (memory st) b) (s + sizeof_MemBlock + 4)) as [Hno|Hroom].
    - left. apply split_no_room. rewrite Hal. rewrite wrap_small; [exact Hno|].
      unfold block_end, sizeof_MemBlock in *. lia.
    - right. rewrite <- Hal in Hroom.
      destruct (split_room st b s ltac:(lia) Hbe Hroom) as [HA [HK [Hsb [_ [_ [_ Hfr]]]]]].
      rewrite Hal in *. repeat split; assumption. }
  assert (Hb1 : In b (block_map (split_mem_block st b s))).
  { destruct Hcases as [E|[_ [_ [HK _]]]]; [rewrite E; exact Hb|].
    rewrite HK. apply map_insert_In. right. exact Hb. }
  unfold take_block in st'. subst st'. cbn [arena_list block_map memory].
  split; [apply wf_set_free; assumption|].
  unfold block_end, sizeof_MemBlock in *.
  destruct Hcases as [E|[Hroom [HA [HK [Hsb Hfr]]]]].
  - rewrite E. repeat split; try tauto; hdr; try lia.
    + intros x Hx. outside. reflexivity.
    + intros x Hx. outside. reflexivity.
  - rewrite HA, HK. repeat split.
    + intros k Hk. apply map_insert_In. right. exact Hk.
    + hdr. reflexivity.
    + hdr. lia.
    + hdr. lia.
    + intros x Hx. outside. apply Hfr; lia.
    + intros x Hx. outside. apply Hfr; lia.
Qed.

(** Blocks other than the one taken keep every byte they own. *)
Lemma take_block_others st b s k x :
  wf st -> In b (block_map st) ->
  align_mem_size s = s -> s <= get_size (memory st) b ->
  In k (block_map st) -> k <> b -> k <= x < block_end (memory st) k ->
  memory (take_block st b s) x = memory st x.
Proof.
  intros W Hb Hal Hfit Hk Hne Hx.
  destruct (take_block_props st b s W Hb Hal Hfit) as [_ [_ [_ [_ [_ [Hout _]]]]]].
  apply Hout.
  destruct (wf_disjoint st W k b Hk Hb Hne) as [D|D]; lia.
Qed.

(** ** A new arena *)

Lemma arena_size_for_bounds n :
  default_arena_size <= arena_size_for n < word_modulus /\
  arena_size_for n mod 4 = 0 /\
  arena_size_for n =
    Z.max (wrap (align_mem_size n + sizeof_MemBlock)) default_arena_size.
Proof.
  unfold arena_size_for.
  pose proof (wrap_range (align_mem_size n + sizeof_MemBlock)) as Hw.
  assert (Hw4 : wrap (align_mem_size n + sizeof_MemBlock) mod 4 = 0).
  { pose proof (align_mod4 n) as H4. unfold wrap, word_modulus, sizeof_MemBlock.
    clear - H4. Z.div_mod_to_equations. lia. }
  set (w := wrap (align_mem_size n + sizeof_MemBlock)) in *.
  assert (Hmax4 : Z.max w default_arena_size mod 4 = 0).
  { unfold default_arena_size. destruct (Z.max_spec w 4096) as [[_ E]|[_ E]]; rewrite E;
      [reflexivity | exact Hw4]. }
  assert (Hmr : 0 <= Z.max w default_arena_size < word_modulus).
  { unfold default_arena_size, word_modulus in *. lia. }
  rewrite (align_fixed _ Hmr Hmax4).
  repeat split; try lia; assumption.
Qed.

Lemma create_new_arena_fail st size default_size :
  create_new_arena st size default_size NULL = (st, None).
Proof. reflexivity. Qed.

Lemma create_new_arena_props st size os :
  wf st -> os <> NULL ->
  let sz := align_mem_size (Z.max size default_arena_size) in
  let arena := MemArena.mk sz os in
  fresh_region st os sz -> sizeof_MemBlock <= sz ->
  exists st',
    create_new_arena st size default_arena_size os = (st', Some arena) /\
    wf st' /\
    arena_list st' = arena :: arena_list st /\
    block_map st' = os :: block_map st /\
    ~ In os (block_map st) /\
    get_size (memory st') os = sz - sizeof_MemBlock /\
    get_free (memory st') os = true /\
    (forall x, x < os \/ os + sz <= x -> memory st' x = memory st x).
Proof.
  intros W Hos sz arena [F1 [F2 [F3 F4]]] Hsz.
  pose proof (align_range (Z.max size default_arena_size)) as Hr. fold sz in Hr.
  pose proof (align_mod4 (Z.max size default_arena_size)) as H4. fold sz in H4.
  unfold sizeof_MemBlock in *.
  assert (Hnotin : ~ In os (block_map st)).
  { intros Hin. destruct (wf_key_arena st os W Hin) as [a [Ha [[I1 I2] _]]].
    destruct (F4 a Ha); lia. }
  eexists. split.
  { unfold create_new_arena. fold sz. destruct (Z.eqb_spec os NULL); [contradiction|].
    rewrite map_insert_fresh by exact Hnotin. fold arena. reflexivity. }
  cbn [arena_list block_map memory]. unfold sizeof_MemBlock.
  rewrite (wrap_small (sz - 16)) by lia.
  set (m' := set_last _ _ _).
  assert (Hsz' : get_size m' os = sz - 16) by (subst m'; hdr; reflexivity).
  assert (Hout : forall x, x < os \/ os + sz <= x -> m' x = memory st x).
  { intros x Hx. subst m'. outside. apply zero_fill_outside. exact Hx. }
  assert (Hold : forall k, In k (block_map st) ->
            get_size m' k = get_size (memory st) k /\
            (block_end (memory st) k < os \/ os + sz < k)).
  { intros k Hk. destruct (wf_key_arena st k W Hk) as [a [Ha [[I1 I2] I3]]].
    pose proof (get_size_range (memory st) k).
    assert (block_end (memory st) k < os \/ os + sz < k) as D.
    { unfold block_end, sizeof_MemBlock in *. destruct (F4 a Ha); lia. }
    split; [|exact D]. apply get_size_ext. intros x Hx. apply Hout.
    unfold block_end, sizeof_MemBlock in *. lia. }
  split; [|split; [reflexivity|]; split; [reflexivity|]; split; [exact Hnotin|];
            split; [exact Hsz'|]; split; [subst m'; hdr; reflexivity | exact Hout]].
  split; cbn [arena_list block_map memory].
  - intros a [<-|Ha]; [|apply (wf_arenas st W a Ha)].
    unfold arena_ok, MemArena.limit. subst arena. cbn [MemArena.base MemArena.size].
    unfold sizeof_MemBlock. repeat split; assumption || lia.
  - intros a b [<-|Ha] [<-|Hb].
    + left. reflexivity.
    + right. unfold separated, MemArena.limit in *. subst arena. cbn [MemArena.base MemArena.size].
      destruct (F4 b Hb); [left|right]; lia.
    + right. unfold separated, MemArena.limit in *. subst arena. cbn [MemArena.base MemArena.size].
      destruct (F4 a Ha); [right|left]; lia.
    + apply (wf_separated st W a b Ha Hb).
  - constructor; [exact Hnotin | apply (wf_nodup st W)].
  - intros k [<-|Hk].
    + exists arena. split; [left; reflexivity|].
      unfold block_ok, block_end, MemArena.limit, sizeof_MemBlock. subst arena.
      cbn [MemArena.base MemArena.size]. rewrite Hsz'.
      split; [|left; lia].
      repeat split; try assumption; try lia.
      clear - H4. Z.div_mod_to_equations. lia.
    + destruct (wf_blocks st W k Hk) as [a [Ha [Hok Hnx]]].
      destruct (Hold k Hk) as [E _].
      exists a. split; [right; exact Ha|]. unfold block_ok, block_end in *. rewrite E.
      split; [exact Hok|]. destruct Hnx as [Hn|Hn]; [left; exact Hn | right; right; exact Hn].
  - intros k1 k2 [<-|H1] [<-|H2] Hne; try congruence.
    + destruct (Hold k2 H2) as [E D]. unfold block_end, sizeof_MemBlock in *.
      rewrite Hsz', E. lia.
    + destruct (Hold k1 H1) as [E D]. unfold block_end, sizeof_MemBlock in *.
      rewrite Hsz', E. lia.
    + destruct (Hold k1 H1) as [E1 _]. destruct (Hold k2 H2) as [E2 _].
      unfold block_end. rewrite E1, E2. apply (wf_disjoint st W); assumption.
  - intros a [<-|Ha]; [left; reflexivity | right; apply (wf_base st W a Ha)].
Qed.

(** ** First fit *)

Lemma walk_arena_spec fuel : forall st a s base,
  wf st -> In a (arena_list st) ->
  base = MemArena.limit a \/ (In base (block_map st) /\ in_arena a base) ->
  MemArena.limit a - base < sizeof_MemBlock * Z.of_nat fuel ->
  (walk_arena fuel st a s base = Some (st, NULL) /\
   forall b, base <= b -> ~ fits st a s b) \/
  exists b, fits st a s b /\
    walk_arena fuel st a s base = Some (take_block st b s, b + sizeof_MemBlock).
Proof.
  induction fuel as [|fuel IH]; intros st a s base W Ha Hbase Hfuel.
  { exfalso. unfold sizeof_MemBlock in Hfuel.
    destruct Hbase as [E|[_ [_ I]]]; cbn in Hfuel; lia. }
  destruct (wf_arenas st W a Ha) as [A1 [A2 [A3 [A4 A5]]]].
  unfold MemArena.limit, sizeof_MemBlock in A4, A5.
  cbn [walk_arena]. rewrite (wrap_small (MemArena.base a + MemArena.size a)) by lia.
  fold (MemArena.limit a).
  destruct Hbase as [E|[Hk Hin]].
  - subst base. rewrite Z.ltb_irrefl. left. split; [reflexivity|].
    intros b Hb [_ [[_ I] _]]. lia.
  - destruct Hin as [I1 I2]. destruct (Z.ltb_spec base (MemArena.limit a)); [|lia].
    pose proof (wf_key st base W Hk) as [K1 [K2 [K3 K4]]].
    pose proof (get_size_range (memory st) base) as Hg.
    unfold block_end, sizeof_MemBlock in *.
    destruct (get_free (memory st) base && (s <=? get_size (memory st) base)) eqn:Hhit.
    + apply andb_true_iff in Hhit. destruct Hhit as [Hf Hs]. apply Z.leb_le in Hs.
      right. exists base. split.
      * repeat split; assumption.
      * rewrite (wrap_small (base + 16)) by lia. reflexivity.
    + rewrite (wrap_small (16 + get_size (memory st) base)) by lia.
      rewrite (wrap_small (base + (16 + get_size (memory st) base))) by lia.
      destruct (wf_block_in_arena st a base W Ha Hk (conj I1 I2)) as [_ Hnx].
      unfold block_end, sizeof_MemBlock in Hnx.
      replace (base + (16 + get_size (memory st) base))
        with (base + 16 + get_size (memory st) base) by lia.
      assert (Hmiss : ~ fits st a s base).
      { intros [_ [_ [Hf Hs]]]. rewrite Hf in Hhit. apply Z.leb_le in Hs. rewrite Hs in Hhit.
        discriminate. }
      destruct (IH st a s (base + 16 + get_size (memory st) base) W Ha Hnx)
        as [[R Hno]|[b [Hb R]]].
      * rewrite Nat2Z.inj_succ in Hfuel. lia.
      * left. split; [exact R|]. intros b Hb Hfit.
        destruct (Z.eq_dec b base) as [->|Hne]; [exact (Hmiss Hfit)|].
        apply (Hno b); [|exact Hfit].
        destruct Hfit as [Hbk _].
        destruct (wf_disjoint st W b base Hbk Hk Hne) as [D|D];
          unfold block_end, sizeof_MemBlock in D;
          pose proof (get_size_range (memory st) b); lia.
      * right. exists b. split; assumption.
Qed.

Lemma allocate_memory_block_spec st a s :
  wf st -> In a (arena_list st) -> align_mem_size s = s ->
  (allocate_memory_block st a s = Some (st, NULL) /\ forall b, ~ fits st a s b) \/
  exists b, fits st a s b /\
    allocate_memory_block st a s = Some (take_block st b s, b + sizeof_MemBlock).
Proof.
  intros W Ha Hal. unfold allocate_memory_block. rewrite Hal.
  destruct (wf_arenas st W a Ha) as [A1 [A2 [A3 [A4 A5]]]].
  destruct (walk_arena_spec (walk_fuel a) st a s (MemArena.base a) W Ha) as [[R Hno]|H].
  - right. split; [apply (wf_base st W a Ha)|].
    unfold in_arena, MemArena.limit, sizeof_MemBlock in *. lia.
  - unfold walk_fuel, MemArena.limit, sizeof_MemBlock in *.
    rewrite Nat2Z.inj_succ, Z2Nat.id by (apply Z.div_pos; lia).
    Z.div_mod_to_equations. lia.
  - left. split; [exact R|]. intros b Hfit. apply (Hno b); [|exact Hfit].
    destruct Hfit as [_ [[I _] _]]. exact I.
  - right. exact H.
Qed.

Lemma try_arenas_spec st s : forall arenas,
  wf st -> incl arenas (arena_list st) -> align_mem_size s = s ->
  (try_arenas st arenas s = Some (st, NULL) /\
   forall a b, In a arenas -> ~ fits st a s b) \/
  exists a b, In a arenas /\ fits st a s b /\
    try_arenas st arenas s = Some (take_block st b s, b + sizeof_MemBlock).
Proof.
  induction arenas as [|a rest IH]; intros W Hincl Hal.
  { left. split; [reflexivity|]. intros a b []. }
  cbn [try_arenas].
  assert (Ha : In a (arena_list st)) by (apply Hincl; left; reflexivity).
  destruct (allocate_memory_block_spec st a s W Ha Hal) as [[R Hno]|[b [Hfit R]]].
  - rewrite R. cbn [negb]. rewrite Z.eqb_refl. cbn [negb].
    destruct IH as [[R' Hno']|[a' [b [Ha' [Hfit R']]]]]; try assumption.
    + intros x Hx. apply Hincl. right. exact Hx.
    + left. split; [exact R'|]. intros a' b [<-|Hin]; [apply Hno | apply Hno'; exact Hin].
    + right. exists a', b. split; [right; exact Ha'|]. split; assumption.
  - rewrite R. right. exists a, b. split; [left; reflexivity|]. split; [exact Hfit|].
    destruct Hfit as [Hb _]. pose proof (wf_key st b W Hb) as [K1 _].
    unfold sizeof_MemBlock, NULL.
    destruct (Z.eqb_spec (b + 16) 0); [lia | reflexivity].
Qed.

(** ** [mem_alloc] *)

Lemma fits_not_null st a s b : wf st -> fits st a s b -> (b + sizeof_MemBlock =? NULL) = false.
Proof.
  intros W [Hb _]. pose proof (wf_key st b W Hb) as [K1 _].
  unfold sizeof_MemBlock, NULL. apply Z.eqb_neq. lia.
Qed.

(** The possible outcomes of [mem_alloc] on a well-formed state:
    - nothing fits and the OS refuses: the state is unchanged;
    - a block [b] of an existing arena is taken;
    - a new arena is created, and its first block is taken, or (when
      [align n + 16] wrapped around) is too small and stays free. *)
Lemma mem_alloc_cases st n os :
  wf st -> os_ok st n os -> n <> 0 ->
  let s := align_mem_size n in
  (mem_alloc st n os = Some (st, NULL) /\ os = NULL) \/
  (exists a b, In a (arena_list st) /\ fits st a s b /\
     mem_alloc st n os = Some (take_block st b s, b + sizeof_MemBlock)) \/
  (os <> NULL /\
   exists st1,
     create_new_arena st (wrap (s + sizeof_MemBlock)) default_arena_size os
       = (st1, Some (MemArena.mk (arena_size_for n) os)) /\
     wf st1 /\
     arena_list st1 = MemArena.mk (arena_size_for n) os :: arena_list st /\
     block_map st1 = os :: block_map st /\
     ~ In os (block_map st) /\
     get_size (memory st1) os = arena_size_for n - sizeof_MemBlock /\
     get_free (memory st1) os = true /\
     (forall x, x < os \/ os + arena_size_for n <= x -> memory st1 x = memory st x) /\
     ((s <= arena_size_for n - sizeof_MemBlock /\
       mem_alloc st n os = Some (take_block st1 os s, os + sizeof_MemBlock)) \/
      (word_modulus <= s + sizeof_MemBlock /\
       mem_alloc st n os = Some (st1, NULL)))).
Proof.
  intros W Hos Hn s.
  pose proof (align_idem n) as Hal. fold s in Hal.
  pose proof (align_range n) as Hsr. fold s in Hsr.
  unfold mem_alloc. destruct (Z.eqb_spec n 0); [contradiction|]. fold s.
  destruct (try_arenas_spec st s (arena_list st) W (incl_refl _) Hal)
    as [[R Hno]|[a [b [Ha [Hfit R]]]]].
  2:{ right. left. exists a, b. rewrite R. rewrite (fits_not_null st a s b W Hfit).
      cbn [negb]. auto. }
  rewrite R. rewrite Z.eqb_refl. cbn [negb].
  destruct Hos as [->|Hfresh].
  { left. rewrite create_new_arena_fail. auto. }
  right. right.
  assert (Hos : os <> NULL) by (destruct Hfresh as [F _]; unfold NULL; lia).
  split; [exact Hos|].
  pose proof (arena_size_for_bounds n) as [B1 [B2 B3]]. fold s in B3.
  assert (Hsz : align_mem_size (Z.max (wrap (s + sizeof_MemBlock)) default_arena_size)
                = arena_size_for n) by reflexivity.
  destruct (create_new_arena_props st (wrap (s + sizeof_MemBlock)) os W Hos)
    as [st1 [C [W1 [HA [HK [Hni [Hgs [Hgf Hout]]]]]]]].
  { rewrite Hsz. exact Hfresh. }
  { rewrite Hsz. unfold default_arena_size, sizeof_MemBlock in *. lia. }
  rewrite Hsz in *. exists st1. rewrite C.
  split; [reflexivity|]. do 7 (split; [assumption|]).
  set (arena := MemArena.mk (arena_size_for n) os) in *.
  assert (Ha : In arena (arena_list st1)) by (rewrite HA; left; reflexivity).
  assert (Hin_os : in_arena arena os).
  { unfold in_arena, MemArena.limit. subst arena. cbn [MemArena.base MemArena.size].
    unfold default_arena_size in *. lia. }
  assert (Hk_os : In os (block_map st1)) by (rewrite HK; left; reflexivity).
  destruct (allocate_memory_block_spec st1 arena s W1 Ha Hal) as [[R1 Hno1]|[b [Hfit R1]]].
  - right. split; [|exact R1].
    destruct (Z.le_gt_cases word_modulus (s + sizeof_MemBlock)) as [G|G]; [exact G|].
    exfalso. apply (Hno1 os). repeat split; try assumption; try apply Hin_os.
    rewrite Hgs. rewrite B3. rewrite wrap_small by (unfold sizeof_MemBlock in *; lia). lia.
  - left. assert (b = os).
    { destruct Hfit as [Hb [[I1 I2] _]]. rewrite HK in Hb. destruct Hb as [E|Hb]; [auto|].
      exfalso. destruct (wf_key_arena st b W Hb) as [a [Haa [[J1 J2] _]]].
      destruct Hfresh as [_ [_ [_ F4]]].
      unfold MemArena.limit in I2. subst arena. cbn [MemArena.base MemArena.size] in *.
      destruct (F4 a Haa); lia. }
    subst b. split; [|exact R1]. destruct Hfit as [_ [_ [_ Hle]]]. rewrite Hgs in Hle. exact Hle.
Qed.

(** Summary of [mem_alloc] for callers: it finishes, keeps the state well
    formed and every indexed block indexed; on failure no indexed block is
    touched; on success the block behind the result is indexed, in use and
    large enough, and no other indexed block is touched. *)
Lemma mem_alloc_props st n os :
  wf st -> os_ok st n os ->
  exists st' p,
    mem_alloc st n os = Some (st', p) /\ wf st' /\
    (forall k, In k (block_map st) -> In k (block_map st')) /\
    (p = NULL ->
       (align_mem_size n + sizeof_MemBlock < word_modulus -> st' = st) /\
       (forall k x, In k (block_map st) -> k <= x < block_end (memory st) k ->
                    memory st' x = memory st x)) /\
    (p <> NULL ->
       n <> 0 /\
       In (p - sizeof_MemBlock) (block_map st') /\
       p mod 4 = 0 /\ sizeof_MemBlock < p < word_modulus /\
       get_free (memory st') (p - sizeof_MemBlock) = false /\
       align_mem_size n <= get_size (memory st') (p - sizeof_MemBlock) /\
       (In (p - sizeof_MemBlock) (block_map st) ->
          get_free (memory st) (p - sizeof_MemBlock) = true /\
          align_mem_size n <= get_size (memory st) (p - sizeof_MemBlock)) /\
       (forall k x, In k (block_map st) -> k <> p - sizeof_MemBlock ->
                    k <= x < block_end (memory st) k -> memory st' x = memory st x) /\
       (forall x, p <= x < p + align_mem_size n ->
                  In (p - sizeof_MemBlock) (block_map st) -> memory st' x = memory st x)).
Proof.
  intros W Hos.
  destruct (Z.eq_dec n 0) as [->|Hn].
  { exists st, NULL. split; [reflexivity|]. split; [exact W|]. split; [auto|].
    split; [intros _; split; auto | intros H; contradiction]. }
  pose proof (align_idem n) as Hal. set (s := align_mem_size n) in *.
  assert (Htake : forall st0 b,
     wf st0 -> In b (block_map st0) -> get_free (memory st0) b = true ->
     s <= get_size (memory st0) b ->
     let st' := take_block st0 b s in let p := b + sizeof_MemBlock in
     wf st' /\ (forall k, In k (block_map st0) -> In k (block_map st')) /\
     p <> NULL /\ In (p - sizeof_MemBlock) (block_map st') /\
     p mod 4 = 0 /\ sizeof_MemBlock < p < word_modulus /\
     get_free (memory st') (p - sizeof_MemBlock) = false /\
     s <= get_size (memory st') (p - sizeof_MemBlock) /\
     (forall k x, In k (block_map st0) -> k <> p - sizeof_MemBlock ->
                  k <= x < block_end (memory st0) k -> memory st' x = memory st0 x) /\
     (forall x, p <= x < p + s -> memory st' x = memory st0 x)).
  { intros st0 b W0 Hb Hf Hfit st' p.
    destruct (take_block_props st0 b s W0 Hb Hal Hfit) as [W' [HA [HK [Hf' [Hs' [Hout Hpre]]]]]].
    pose proof (wf_key st0 b W0 Hb) as [K1 [K2 [K3 K4]]].
    pose proof (get_size_range (memory st0) b).
    subst p st'. replace (b + sizeof_MemBlock - sizeof_MemBlock) with b by lia.
    split; [exact W'|]. split; [exact HK|].
    split; [unfold sizeof_MemBlock, NULL; lia|].
    split; [apply HK; exact Hb|].
    split; [unfold sizeof_MemBlock; clear - K2; Z.div_mod_to_equations; lia|].
    split; [unfold block_end, sizeof_MemBlock in *; lia|].
    split; [exact Hf'|]. split; [lia|]. split.
    - intros k x Hk Hne Hx.
      apply (take_block_others st0 b s k x W0 Hb Hal Hfit Hk Hne). exact Hx.
    - intros x Hx. apply Hpre. lia. }
  destruct (mem_alloc_cases st n os W Hos Hn) as
    [[R _]|[[a [b [Ha [[Hb [Hin [Hf Hfit]]] R]]]]|[Hnz [st1 [C [W1 [HA [HK [Hni [Hgs [Hgf [Hout Hres]]]]]]]]]]]];
    try fold s in R; try fold s in Hres; try fold s in Hfit.
  - exists st, NULL. rewrite R. split; [reflexivity|]. split; [exact W|]. split; [auto|].
    split; [intros _; split; auto | intros H; contradiction].
  - exists (take_block st b s), (b + sizeof_MemBlock). rewrite R.
    destruct (Htake st b W Hb Hf Hfit) as [W' [HK [Hp [Hbk [Hp4 [Hpr [Hf' [Hs' [Hoth Hpay]]]]]]]]].
    split; [reflexivity|]. split; [exact W'|]. split; [exact HK|].
    split; [intros E; contradiction|]. intros _.
    replace (b + sizeof_MemBlock - sizeof_MemBlock) with b in * by lia.
    split; [exact Hn|]. do 5 (split; [assumption|]).
    split; [intros _; split; assumption|]. split; [exact Hoth|].
    intros x Hx _. apply Hpay. exact Hx.
  - assert (Hold : forall k x, In k (block_map st) -> k <= x < block_end (memory st) k ->
              memory st1 x = memory st x /\ block_end (memory st1) k = block_end (memory st) k
              /\ k <> os).
    { intros k x Hk Hx. destruct (wf_key_arena st k W Hk) as [a [Haa [[J1 J2] J3]]].
      pose proof (get_size_range (memory st) k).
      assert (Hfr : fresh_region st os (arena_size_for n)).
      { destruct Hos as [E|F]; [contradiction | exact F]. }
      destruct Hfr as [_ [_ [_ F4]]]. unfold block_end, sizeof_MemBlock in *.
      assert (D : block_end (memory st) k < os \/ os + arena_size_for n < k).
      { unfold block_end, sizeof_MemBlock. destruct (F4 a Haa); lia. }
      unfold block_end, sizeof_MemBlock in D.
      split; [apply Hout; lia|]. split.
      - f_equal. apply get_size_ext. intros y Hy. apply Hout. lia.
      - pose proof (arena_size_for_bounds n) as [B1 _]. unfold default_arena_size in B1. lia. }
    destruct Hres as [[Hfit R]|[Hwrap R]].
    + exists (take_block st1 os s), (os + sizeof_MemBlock). rewrite R.
      assert (Hk1 : In os (block_map st1)) by (rewrite HK; left; reflexivity).
      rewrite <- Hgs in Hfit.
      destruct (Htake st1 os W1 Hk1 Hgf Hfit) as [W' [HK' [Hp [Hbk [Hp4 [Hpr [Hf' [Hs' [Hoth Hpay]]]]]]]]].
      split; [reflexivity|]. split; [exact W'|].
      split; [intros k Hk; apply HK'; rewrite HK; right; exact Hk|].
      split; [intros E; contradiction|]. intros _.
      replace (os + sizeof_MemBlock - sizeof_MemBlock) with os in * by lia.
      split; [exact Hn|]. do 5 (split; [assumption|]).
      split; [intros Hc; contradiction|]. split; [|intros x Hx Hc; contradiction].
      intros k x Hk Hne Hx. destruct (Hold k x Hk Hx) as [E1 [E2 E3]].
      rewrite <- E1.
      apply (Hoth k x); [rewrite HK; right; exact Hk | exact Hne | rewrite E2; exact Hx].
    + exists st1, NULL. rewrite R.
      split; [reflexivity|]. split; [exact W1|].
      split; [intros k Hk; rewrite HK; right; exact Hk|].
      split; [|intros E; contradiction]. intros _. split; [lia|].
      intros k x Hk Hx. apply (Hold k x Hk Hx).
Qed.

(** ** The coalescing sweep *)

(** Proof rule for the sweep: an invariant kept by a step that moves on and
    by a step that merges holds when the sweep ends, and the sweep ends. *)
Lemma merge_loop_rule (P : list Z -> list Z -> mem -> Prop) :
  (forall b rest keys m,
     P (b :: rest) keys m ->
     get_free m b = false \/
     ~ In (wrap (b + sizeof_MemBlock + get_size m b)) keys \/
     get_free m (wrap (b + sizeof_MemBlock + get_size m b)) = false ->
     P rest keys m) ->
  (forall b rest keys m,
     P (b :: rest) keys m ->
     get_free m b = true ->
     In (wrap (b + sizeof_MemBlock + get_size m b)) keys ->
     get_free m (wrap (b + sizeof_MemBlock + get_size m b)) = true ->
     P (map_erase (wrap (b + sizeof_MemBlock + get_size m b)) (b :: rest))
       (map_erase (wrap (b + sizeof_MemBlock + get_size m b)) keys)
       (absorb m b (wrap (b + sizeof_MemBlock + get_size m b)))) ->
  forall fuel todo keys m,
    P todo keys m -> (length todo + length keys < fuel)%nat ->
    exists keys' m', merge_loop fuel todo keys m = Some (keys', m') /\ P [] keys' m'.
Proof.
  intros Hskip Hmerge.
  induction fuel as [|fuel IH]; intros todo keys m HP Hfuel; [lia|].
  cbn [merge_loop]. destruct todo as [|b rest].
  { exists keys, m. split; [reflexivity | exact HP]. }
  cbn [length] in Hfuel.
  destruct (get_free m b) eqn:Hf.
  2:{ apply IH; [|lia]. apply (Hskip b); [exact HP | left; exact Hf]. }
  set (n := wrap (b + sizeof_MemBlock + get_size m b)) in *.
  destruct (map_find n keys) eqn:Hfind; cbn [andb].
  2:{ apply IH; [|lia]. apply (Hskip b); [exact HP|].
      right. left. apply map_find_not_In. exact Hfind. }
  destruct (get_free m n) eqn:Hfn.
  2:{ apply IH; [|lia]. apply (Hskip b); [exact HP|]. right. right. exact Hfn. }
  apply map_find_In in Hfind.
  apply IH.
  - apply Hmerge; assumption.
  - pose proof (map_erase_length_lt n keys Hfind).
    pose proof (map_erase_length_le n (b :: rest)). cbn [length] in *. lia.
Qed.

(** What a merge writes when the two blocks are indexed and the index is in
    order. *)
Lemma absorb_effect m keys b :
  index_ok m keys -> In b keys -> In (block_end m b) keys ->
  let n := block_end m b in
  let m' := absorb m b n in
  wrap (b + sizeof_MemBlock + get_size m b) = n /\
  n <> b /\
  get_size m' b = get_size m b + sizeof_MemBlock + get_size m n /\
  block_end m' b = block_end m n /\
  get_free m' b = get_free m b /\
  (forall x, ~ in_header b x -> m' x = m x) /\
  (forall k, In k keys -> k <> b ->
     get_size m' k = get_size m k /\ get_free m' k = get_free m k /\
     block_end m' k = block_end m k).
Proof.
  intros [N R D] Hb Hn n m'.
  pose proof (get_size_range m b) as Gb. pose proof (get_size_range m n) as Gn.
  destruct (R b Hb) as [Rb1 Rb2]. destruct (R n Hn) as [Rn1 Rn2].
  unfold block_end, sizeof_MemBlock, in_header in *. fold n in Hn, Rn1, Rn2.
  assert (Hsz : get_size m' b = get_size m b + 16 + get_size m n).
  { subst m'. unfold absorb, sizeof_MemBlock.
    rewrite (wrap_small (16 + get_size m n)) by lia.
    rewrite (wrap_small (get_size m b + (16 + get_size m n))) by (subst n; lia).
    hdr. lia. }
  assert (Hout : forall x, ~ (b <= x < b + 16) -> m' x = m x).
  { intros x Hx. subst m'. unfold absorb. outside. reflexivity. }
  split; [subst n; apply wrap_small; lia|].
  split; [subst n; lia|].
  split; [exact Hsz|]. split; [rewrite Hsz; subst n; lia|].
  split; [subst m'; unfold absorb; hdr; reflexivity|].
  split; [exact Hout|].
  intros k Hk Hne. pose proof (get_size_range m k).
  assert (Hd : k + 16 <= b \/ b + 16 <= k).
  { destruct (D k b Hk Hb Hne) as [X|X]; unfold block_end, sizeof_MemBlock in X; lia. }
  assert (E : get_size m' k = get_size m k).
  { apply get_size_ext. intros x Hx. apply Hout. lia. }
  split; [exact E|]. split; [apply get_free_ext; apply Hout; lia|].
  rewrite E. reflexivity.
Qed.

(** A merge keeps the index in order. *)
Lemma absorb_index_ok m keys b :
  index_ok m keys -> In b keys -> In (block_end m b) keys ->
  index_ok (absorb m b (block_end m b)) (map_erase (block_end m b) keys).
Proof.
  intros I Hb Hn.
  destruct (absorb_effect m keys b I Hb Hn) as [_ [Hnb [Hsz [He [_ [_ Hoth]]]]]].
  destruct I as [N R D]. set (n := block_end m b) in *.
  split.
  - apply map_erase_NoDup. exact N.
  - intros k Hk. apply map_erase_In in Hk. destruct Hk as [Hk Hkn].
    destruct (Z.eq_dec k b) as [->|Hne].
    + rewrite He. split; [apply (R b Hb) | apply (R n Hn)].
    + destruct (Hoth k Hk Hne) as [_ [_ E]]. rewrite E. apply (R k Hk).
  - assert (Hb_k : forall k, In k keys -> k <> b -> k <> n ->
              block_end m n <= k \/ block_end m k <= b).
    { intros k Hk Hkb Hkn. pose proof (get_size_range m k).
      destruct (D b k Hb Hk (not_eq_sym Hkb)) as [X|X]; [|right; exact X].
      destruct (D n k Hn Hk (not_eq_sym Hkn)) as [Y|Y]; [left; exact Y|].
      exfalso. unfold block_end, sizeof_MemBlock in *. fold n in X. lia. }
    intros k1 k2 H1 H2 Hne.
    apply map_erase_In in H1. destruct H1 as [H1 N1].
    apply map_erase_In in H2. destruct H2 as [H2 N2].
    destruct (Z.eq_dec k1 b) as [->|Hk1]; destruct (Z.eq_dec k2 b) as [->|Hk2];
      try congruence.
    + rewrite He. destruct (Hoth k2 H2 Hk2) as [_ [_ E]]. rewrite E.
      destruct (Hb_k k2 H2 Hk2 N2); [left | right]; assumption.
    + rewrite He. destruct (Hoth k1 H1 Hk1) as [_ [_ E]]. rewrite E.
      destruct (Hb_k k1 H1 Hk1 N1); [right | left]; assumption.
    + destruct (Hoth k1 H1 Hk1) as [_ [_ E1]]. destruct (Hoth k2 H2 Hk2) as [_ [_ E2]].
      rewrite E1, E2. apply D; assumption.
Qed.

Lemma sweep_inv_init m0 keys0 :
  index_ok m0 keys0 -> sweep_inv m0 keys0 keys0 keys0 m0.
Proof.
  intros I. unfold sweep_inv.
  split; [exact I|]. split; [apply (index_nodup _ _ I)|].
  split; [apply incl_refl|]. split; [apply incl_refl|].
  split; [reflexivity|]. split; [auto|]. split; [reflexivity|].
  intros k Hk Hn. contradiction.
Qed.

Lemma sweep_inv_skip m0 keys0 b rest keys m :
  sweep_inv m0 keys0 (b :: rest) keys m ->
  get_free m b = false \/
  ~ In (wrap (b + sizeof_MemBlock + get_size m b)) keys \/
  get_free m (wrap (b + sizeof_MemBlock + get_size m b)) = false ->
  sweep_inv m0 keys0 rest keys m.
Proof.
  intros [I [N [Ht [Hk [Hfl [Huse [Hby Hdone]]]]]]] Hcond.
  assert (Hb : In b keys) by (apply Ht; left; reflexivity).
  assert (Hw : wrap (b + sizeof_MemBlock + get_size m b) = block_end m b).
  { destruct (index_range _ _ I b Hb) as [R1 R2]. pose proof (get_size_range m b).
    unfold block_end, sizeof_MemBlock in *. apply wrap_small. lia. }
  rewrite Hw in Hcond.
  unfold sweep_inv. split; [exact I|].
  split; [inversion N; assumption|].
  split; [intros x Hx; apply Ht; right; exact Hx|].
  do 4 (split; [assumption|]).
  intros k Hkk Hnot Hf. destruct (Z.eq_dec k b) as [->|Hne].
  - intros [Hin Hfn]. destruct Hcond as [C|[C|C]]; [congruence | contradiction | congruence].
  - apply Hdone; [exact Hkk | | exact Hf]. intros [E|Hin]; [congruence | contradiction].
Qed.

Lemma sweep_inv_merge m0 keys0 b rest keys m :
  sweep_inv m0 keys0 (b :: rest) keys m ->
  get_free m b = true ->
  In (wrap (b + sizeof_MemBlock + get_size m b)) keys ->
  get_free m (wrap (b + sizeof_MemBlock + get_size m b)) = true ->
  sweep_inv m0 keys0
    (map_erase (wrap (b + sizeof_MemBlock + get_size m b)) (b :: rest))
    (map_erase (wrap (b + sizeof_MemBlock + get_size m b)) keys)
    (absorb m b (wrap (b + sizeof_MemBlock + get_size m b))).
Proof.
  intros [I [N [Ht [Hk [Hfl [Huse [Hby Hdone]]]]]]] Hfb Hn Hfn.
  assert (Hb : In b keys) by (apply Ht; left; reflexivity).
  assert (Hw : wrap (b + sizeof_MemBlock + get_size m b) = block_end m b).
  { destruct (index_range _ _ I b Hb) as [R1 R2]. pose proof (get_size_range m b).
    unfold block_end, sizeof_MemBlock in *. apply wrap_small. lia. }
  rewrite Hw in *. set (n := block_end m b) in *.
  destruct (absorb_effect m keys b I Hb Hn) as [_ [Hnb [Hsz [He [Hfb' [Hout Hoth]]]]]].
  fold n in Hsz, He, Hfb', Hout, Hoth. set (m' := absorb m b n) in *.
  assert (Hflag : forall k, In k keys -> get_free m' k = get_free m k).
  { intros k Hkk. destruct (Z.eq_dec k b) as [->|Hne]; [exact Hfb'|].
    apply (Hoth k Hkk Hne). }
  unfold sweep_inv.
  split; [apply absorb_index_ok; assumption|].
  split; [apply map_erase_NoDup; exact N|].
  split.
  { intros x Hx. apply map_erase_In in Hx. apply map_erase_In.
    split; [apply Ht|]; tauto. }
  split.
  { intros x Hx. apply map_erase_In in Hx. apply Hk. tauto. }
  split.
  { intros k Hkk. apply map_erase_In in Hkk. destruct Hkk as [Hkk _].
    rewrite Hflag by exact Hkk. apply Hfl. exact Hkk. }
  split.
  { intros k Hk0 Hf0. apply map_erase_In. split; [apply Huse; assumption|].
    intros ->. rewrite <- (Hfl n Hn) in Hf0. congruence. }
  split.
  { intros x Hx. rewrite <- (Hby x Hx). apply Hout.
    apply Hx; [apply Hk; exact Hb | rewrite <- (Hfl b Hb); exact Hfb]. }
  intros k Hkk Hnot Hf [Hin Hfe].
  apply map_erase_In in Hkk. destruct Hkk as [Hkk Hkn].
  assert (Hkb : k <> b).
  { intros ->. apply Hnot. apply map_erase_In. split; [left; reflexivity | exact Hkn]. }
  destruct (Hoth k Hkk Hkb) as [_ [Ef Ee]].
  rewrite Ee in Hin, Hfe. rewrite Ef in Hf.
  apply map_erase_In in Hin. destruct Hin as [Hin _].
  rewrite (Hflag _ Hin) in Hfe.
  apply (Hdone k Hkk); [|exact Hf | split; assumption].
  intros Hkt. apply Hnot. apply map_erase_In. split; assumption.
Qed.

(** The sweep finishes, and what it leaves behind. *)
Lemma merge_loop_props m0 keys0 :
  index_ok m0 keys0 ->
  exists keys' m',
    merge_loop (merge_fuel keys0) keys0 keys0 m0 = Some (keys', m') /\
    index_ok m' keys' /\ incl keys' keys0 /\
    (forall k, In k keys' -> get_free m' k = get_free m0 k) /\
    (forall k, In k keys0 -> get_free m0 k = false -> In k keys') /\
    (forall x, (forall k, In k keys0 -> get_free m0 k = true -> ~ in_header k x) ->
               m' x = m0 x) /\
    (forall k, In k keys' -> get_free m' k = true ->
       ~ (In (block_end m' k) keys' /\ get_free m' (block_end m' k) = true)).
Proof.
  intros I.
  destruct (merge_loop_rule (sweep_inv m0 keys0)
              (sweep_inv_skip m0 keys0) (sweep_inv_merge m0 keys0)
              (merge_fuel keys0) keys0 keys0 m0 (sweep_inv_init m0 keys0 I))
    as [keys' [m' [R [I' [_ [_ [Hk [Hfl [Huse [Hby Hdone]]]]]]]]]].
  { unfold merge_fuel. lia. }
  exists keys', m'. split; [exact R|].
  do 5 (split; [assumption|]).
  intros k Hkk Hf. apply Hdone; [exact Hkk | intros [] | exact Hf].
Qed.

(** With at least one byte between any two arenas, the block that starts
    where an indexed block ends lies in the same arena. *)
Lemma wf_successor_same_arena st a b :
  wf st -> In a (arena_list st) -> In b (block_map st) -> in_arena a b ->
  In (block_end (memory st) b) (block_map st) ->
  in_arena a (block_end (memory st) b).
Proof.
  intros W Ha Hb Hin Hn.
  destruct (wf_block_in_arena st a b W Ha Hb Hin) as [[_ [_ [_ Hle]]] _].
  destruct (wf_key_arena st _ W Hn) as [a' [Ha' [[J1 J2] _]]].
  pose proof (get_size_range (memory st) b).
  destruct Hin as [I1 I2]. unfold block_end, sizeof_MemBlock in *.
  destruct (wf_separated st W a a' Ha Ha') as [E|[S|S]].
  - subst a'. split; lia.
  - exfalso. lia.
  - exfalso. lia.
Qed.

(** A merge of two indexed blocks keeps the state well formed. *)
Lemma wf_absorb st b :
  wf st -> In b (block_map st) -> In (block_end (memory st) b) (block_map st) ->
  wf (mkState (arena_list st)
        (map_erase (block_end (memory st) b) (block_map st))
        (absorb (memory st) b (block_end (memory st) b))).
Proof.
  intros W Hb Hn.
  pose proof (wf_index_ok st W) as I.
  destruct (absorb_effect _ _ b I Hb Hn) as [_ [Hnb [Hsz [He [_ [_ Hoth]]]]]].
  pose proof (absorb_index_ok _ _ b I Hb Hn) as I'.
  set (n := block_end (memory st) b) in *. set (m' := absorb (memory st) b n) in *.
  destruct (wf_key_arena st b W Hb) as [a [Ha [Hin _]]].
  pose proof (wf_successor_same_arena st a b W Ha Hb Hin Hn) as Hnin. fold n in Hnin.
  destruct (wf_block_in_arena st a b W Ha Hb Hin) as [[B1 [B2 [B3 B4]]] _].
  destruct (wf_block_in_arena st a n W Ha Hn Hnin) as [[N1 [N2 [N3 N4]]] Nnx].
  pose proof (get_size_range (memory st) b) as Gb.
  pose proof (get_size_range (memory st) n) as Gn.
  split; cbn [arena_list block_map memory].
  - apply (wf_arenas st W).
  - apply (wf_separated st W).
  - apply (index_nodup _ _ I').
  - intros k Hk. apply map_erase_In in Hk. destruct Hk as [Hk Hkn].
    destruct (Z.eq_dec k b) as [->|Hkb].
    + exists a. split; [exact Ha|]. split.
      * unfold block_ok. rewrite He, Hsz. repeat split; try assumption.
        unfold sizeof_MemBlock. clear - B3 N3. Z.div_mod_to_equations. lia.
      * rewrite He. destruct Nnx as [E|[Hi _]]; [left; exact E|].
        right. apply map_erase_In. split; [exact Hi|].
        unfold block_end, sizeof_MemBlock. lia.
    + destruct (Hoth k Hk Hkb) as [Es [_ Ee]].
      destruct (wf_blocks st W k Hk) as [a' [Ha' [Hok Hnx]]].
      exists a'. split; [exact Ha'|]. unfold block_ok. rewrite Ee, Es.
      split; [exact Hok|]. destruct Hnx as [E|Hi]; [left; exact E|].
      right. apply map_erase_In. split; [exact Hi|].
      intros Heq. fold n in Heq.
      pose proof (get_size_range (memory st) k).
      destruct (wf_disjoint st W k b Hk Hb Hkb) as [D|D];
        unfold block_end, sizeof_MemBlock in *; lia.
  - apply (index_disjoint _ _ I').
  - intros a' Ha'. apply map_erase_In. split; [apply (wf_base st W a' Ha')|].
    intros Heq.
    assert (a' = a).
    { apply (wf_arena_unique st a' a n W Ha' Ha); [|exact Hnin].
      destruct (wf_arenas st W a' Ha') as [_ [_ [_ [A4 _]]]].
      unfold in_arena, MemArena.limit, sizeof_MemBlock in *. lia. }
    subst a'. destruct Hin as [I1 I2]. unfold block_end, sizeof_MemBlock in *. lia.
Qed.

(** The sweep keeps the state well formed. *)
Lemma merge_loop_wf arenas m0 keys0 :
  wf (mkState arenas keys0 m0) ->
  forall keys' m',
    merge_loop (merge_fuel keys0) keys0 keys0 m0 = Some (keys', m') ->
    wf (mkState arenas keys' m').
Proof.
  intros W keys' m' R.
  destruct (merge_loop_rule
              (fun todo keys m => wf (mkState arenas keys m) /\ incl todo keys))
    with (fuel := merge_fuel keys0) (todo := keys0) (keys := keys0) (m := m0)
    as [k1 [m1 [R1 [W1 _]]]].
  - intros b rest keys m [Wk Hi] _. split; [exact Wk|].
    intros x Hx. apply Hi. right. exact Hx.
  - intros b rest keys m [Wk Hi] _ Hn _.
    assert (Hb : In b keys) by (apply Hi; left; reflexivity).
    assert (Hw : wrap (b + sizeof_MemBlock + get_size m b) = block_end m b).
    { pose proof (wf_key _ b Wk Hb) as [K1 [_ [_ K4]]]. cbn [memory] in K4.
      pose proof (get_size_range m b).
      unfold block_end, sizeof_MemBlock in *. apply wrap_small. lia. }
    rewrite Hw in *. split.
    + apply (wf_absorb (mkState arenas keys m) b Wk Hb Hn).
    + intros x Hx. apply map_erase_In in Hx. apply map_erase_In.
      split; [apply Hi|]; tauto.
  - split; [exact W | apply incl_refl].
  - unfold merge_fuel. lia.
  - rewrite R in R1. inversion R1. subst. exact W1.
Qed.

(** ** [mem_free] *)

(** Summary of the sweep run by a release, on a well-formed state. *)
Lemma merge_free_blocks_props st :
  wf st ->
  exists st',
    merge_free_blocks st = Some st' /\ wf st' /\
    arena_list st' = arena_list st /\
    incl (block_map st') (block_map st) /\
    (forall k, In k (block_map st') -> get_free (memory st') k = get_free (memory st) k) /\
    (forall k, In k (block_map st) -> get_free (memory st) k = false ->
               In k (block_map st')) /\
    (forall x, (forall k, In k (block_map st) -> get_free (memory st) k = true ->
                          ~ in_header k x) ->
               memory st' x = memory st x).
Proof.
  intros W.
  destruct (merge_loop_props (memory st) (block_map st) (wf_index_ok st W))
    as [keys' [m' [R [I' [Hk [Hfl [Huse [Hby _]]]]]]]].
  exists (mkState (arena_list st) keys' m').
  unfold merge_free_blocks. rewrite R. split; [reflexivity|].
  split; [|cbn [arena_list block_map memory]; auto 10].
  apply (merge_loop_wf (arena_list st) (memory st) (block_map st)); [|exact R].
  destruct st; exact W.
Qed.

Lemma mem_free_null st : mem_free st NULL = Some st.
Proof. reflexivity. Qed.

Lemma mem_free_unknown st p :
  ~ In (wrap (p - sizeof_MemBlock)) (block_map st) -> mem_free st p = Some st.
Proof.
  intros H. unfold mem_free. destruct (p =? NULL); [reflexivity|].
  apply map_find_not_In in H. rewrite H. reflexivity.
Qed.

Lemma mem_free_known st p :
  p <> NULL -> In (wrap (p - sizeof_MemBlock)) (block_map st) ->
  mem_free st p =
  merge_free_blocks
    (mkState (arena_list st) (block_map st)
       (set_free (memory st) (wrap (p - sizeof_MemBlock)) true)).
Proof.
  intros Hp H. unfold mem_free. destruct (Z.eqb_spec p NULL); [contradiction|].
  apply map_find_In in H. rewrite H. reflexivity.
Qed.

(** An indexed header address comes from exactly one pointer value. *)
Lemma wf_ptr_wrap st p :
  wf st -> In (p - sizeof_MemBlock) (block_map st) ->
  wrap (p - sizeof_MemBlock) = p - sizeof_MemBlock /\ p <> NULL.
Proof.
  intros W H. pose proof (wf_key st _ W H) as [K1 [_ [_ K4]]].
  pose proof (get_size_range (memory st) (p - sizeof_MemBlock)).
  unfold block_end, sizeof_MemBlock, NULL in *. split; [apply wrap_small|]; lia.
Qed.

(** Release of an indexed block, on a well-formed state: the flag is set and
    the sweep runs; blocks in use other than the released one survive with
    their header, and no byte outside the headers of free blocks changes. *)
Lemma mem_free_props st p :
  wf st -> In (p - sizeof_MemBlock) (block_map st) ->
  exists st',
    mem_free st p = Some st' /\ wf st' /\
    arena_list st' = arena_list st /\
    incl (block_map st') (block_map st) /\
    (In (p - sizeof_MemBlock) (block_map st') ->
       get_free (memory st') (p - sizeof_MemBlock) = true) /\
    (forall k, In k (block_map st) -> k <> p - sizeof_MemBlock ->
       get_free (memory st) k = false ->
       In k (block_map st') /\ get_free (memory st') k = false /\
       forall x, k <= x < block_end (memory st) k -> memory st' x = memory st x).
Proof.
  intros W Hb. destruct (wf_ptr_wrap st p W Hb) as [Hw Hp].
  rewrite (mem_free_known st p Hp) by (rewrite Hw; exact Hb). rewrite Hw.
  set (b := p - sizeof_MemBlock) in *.
  pose proof (wf_set_free st b true W Hb) as W1.
  set (st1 := mkState (arena_list st) (block_map st) (set_free (memory st) b true)) in *.
  destruct (merge_free_blocks_props st1 W1) as [st' [R [W' [HA [HK [Hfl [Huse Hby]]]]]]].
  exists st'. split; [exact R|]. split; [exact W'|]. split; [exact HA|].
  split; [exact HK|]. split.
  { intros Hin. rewrite (Hfl b Hin). subst st1. cbn [memory]. apply get_set_free. }
  intros k Hk Hne Hf.
  assert (Hf1 : get_free (memory st1) k = false).
  { subst st1. cbn [memory]. rewrite get_free_set_free by exact Hne. exact Hf. }
  assert (Hk' : In k (block_map st')) by (apply Huse; assumption).
  split; [exact Hk'|]. split; [rewrite (Hfl k Hk'); exact Hf1|].
  intros x Hx. rewrite Hby.
  - subst st1. cbn [memory]. apply set_free_outside.
    pose proof (get_size_range (memory st) b).
    destruct (wf_disjoint st W k b Hk Hb Hne) as [D|D];
      unfold block_end, sizeof_MemBlock in *; lia.
  - intros k' Hk'' Hf' [X1 X2].
    assert (k' <> k) by (intros ->; congruence).
    assert (Ebe : block_end (memory st1) k = block_end (memory st) k).
    { unfold block_end. f_equal. subst st1. cbn [memory].
      apply get_size_set_free.
      destruct (wf_hdr_disjoint st k b W Hk Hb Hne); unfold sizeof_MemBlock in *; lia. }
    pose proof (get_size_range (memory st1) k').
    destruct (wf_disjoint st1 W1 k' k Hk'' Hk) as [D|D]; [assumption| |];
      rewrite ?Ebe in D; unfold block_end, sizeof_MemBlock in *; lia.
Qed.

(** ** [mem_realloc] *)

Lemma os_ok_align st n os : os_ok st n os -> os_ok st (align_mem_size n) os.
Proof.
  unfold os_ok, arena_size_for. rewrite align_idem. tauto.
Qed.

Lemma mem_realloc_in_place st p n os :
  p <> NULL -> In (wrap (p - sizeof_MemBlock)) (block_map st) ->
  align_mem_size n <= get_size (memory st) (wrap (p - sizeof_MemBlock)) ->
  mem_realloc st p n os =
  Some (split_mem_block st (wrap (p - sizeof_MemBlock)) (align_mem_size n), p).
Proof.
  intros Hp Hb Hfit. unfold mem_realloc.
  destruct (Z.eqb_spec p NULL); [contradiction|].
  apply map_find_In in Hb. rewrite Hb. cbn [negb].
  destruct (Z.leb_spec (align_mem_size n) (get_size (memory st) (wrap (p - sizeof_MemBlock))));
    [reflexivity | lia].
Qed.

Lemma mem_realloc_fallback st p n os :
  p <> NULL -> In (wrap (p - sizeof_MemBlock)) (block_map st) ->
  get_size (memory st) (wrap (p - sizeof_MemBlock)) < align_mem_size n ->
  mem_realloc st p n os =
  match mem_alloc st (align_mem_size n) os with
  | None => None
  | Some (st1, new_ptr) =>
    if new_ptr =? NULL then Some (st1, NULL)
    else
      match mem_free
              (mkState (arena_list st1) (block_map st1)
                 (memcpy (memory st1) new_ptr p
                    (get_size (memory st1) (wrap (p - sizeof_MemBlock))))) p with
      | None => None
      | Some st2 => Some (st2, new_ptr)
      end
  end.
Proof.
  intros Hp Hb Hfit. unfold mem_realloc.
  destruct (Z.eqb_spec p NULL); [contradiction|].
  apply map_find_In in Hb. rewrite Hb. cbn [negb].
  destruct (Z.leb_spec (align_mem_size n) (get_size (memory st) (wrap (p - sizeof_MemBlock))));
    [lia | reflexivity].
Qed.

(** The relocating path of [mem_realloc], on a well-formed state, once the
    inner [mem_alloc] has returned the block behind [q]. *)
Lemma mem_realloc_relocate st p n os st1 q :
  wf st -> In (p - sizeof_MemBlock) (block_map st) ->
  get_size (memory st) (p - sizeof_MemBlock) < align_mem_size n ->
  os_ok st n os ->
  mem_alloc st (align_mem_size n) os = Some (st1, q) -> q <> NULL ->
  let old := get_size (memory st) (p - sizeof_MemBlock) in
  exists st',
    mem_realloc st p n os = Some (st', q) /\ wf st' /\ q <> p /\
    In (q - sizeof_MemBlock) (block_map st') /\
    get_free (memory st') (q - sizeof_MemBlock) = false /\
    align_mem_size n <= get_size (memory st') (q - sizeof_MemBlock) /\
    (In (p - sizeof_MemBlock) (block_map st') ->
       get_free (memory st') (p - sizeof_MemBlock) = true) /\
    (forall i, 0 <= i < old -> memory st' (q + i) = memory st (p + i)) /\
    (forall i, old <= i < get_size (memory st') (q - sizeof_MemBlock) ->
               memory st' (q + i) = memory st1 (q + i)).
Proof.
  intros W Hb Hsmall Hos Ha Hq old.
  destruct (wf_ptr_wrap st p W Hb) as [Hw Hp].
  rewrite (mem_realloc_fallback st p n os Hp) by (rewrite Hw; assumption).
  rewrite Ha. destruct (Z.eqb_spec q NULL); [contradiction|]. rewrite Hw.
  destruct (mem_alloc_props st (align_mem_size n) os W (os_ok_align _ _ _ Hos))
    as [st1' [q' [Ha' [W1 [HK1 [_ Hsucc]]]]]].
  rewrite Ha in Ha'. inversion Ha'. subst st1' q'. clear Ha'.
  destruct (Hsucc Hq) as [_ [Hqk [Hq4 [Hqr [Hqf [Hqs [Hqold [Hoth _]]]]]]]].
  rewrite align_idem in Hqs, Hqold.
  set (b := p - sizeof_MemBlock) in *. set (c := q - sizeof_MemBlock) in *.
  assert (Hcb : b <> c).
  { intros E. rewrite <- E in Hqold. destruct (Hqold Hb) as [_ G]. fold old in Hsmall. lia. }
  pose proof (get_size_range (memory st) b) as Gb.
  assert (Hb1 : In b (block_map st1)) by (apply HK1; exact Hb).
  assert (Hbfoot : forall x, b <= x < block_end (memory st) b -> memory st1 x = memory st x).
  { intros x Hx. apply (Hoth b x Hb Hcb Hx). }
  assert (Hsz1 : get_size (memory st1) b = old).
  { apply get_size_ext. intros x Hx. apply Hbfoot. unfold block_end, sizeof_MemBlock. lia. }
  rewrite Hsz1.
  set (m2 := memcpy (memory st1) q p old).
  assert (W2 : wf (mkState (arena_list st1) (block_map st1) m2)).
  { apply (wf_payload_write st1 c); [exact W1 | exact Hqk|].
    intros x Hx. subst m2. apply memcpy_outside.
    unfold block_end, sizeof_MemBlock in *. subst c. fold old in Hsmall. lia. }
  set (st2 := mkState (arena_list st1) (block_map st1) m2) in *.
  assert (Hhdr2 : forall k, In k (block_map st1) ->
            get_size m2 k = get_size (memory st1) k /\ get_free m2 k = get_free (memory st1) k).
  { intros k Hk. pose proof (get_size_range (memory st1) k).
    assert (Hd : forall x, k <= x < k + 16 -> m2 x = memory st1 x).
    { intros x Hx. subst m2. apply memcpy_outside. fold old in Hsmall.
      destruct (Z.eq_dec k c) as [->|Hne]; [subst c; unfold sizeof_MemBlock in *; lia|].
      destruct (wf_disjoint st1 W1 k c Hk Hqk Hne) as [D|D];
        unfold block_end, sizeof_MemBlock in *; subst c; lia. }
    split; [apply get_size_ext; intros x Hx; apply Hd; lia | apply get_free_ext; apply Hd; lia]. }
  destruct (mem_free_props st2 p W2 Hb1)
    as [st' [R [W' [HA' [HK' [Hrel Huse]]]]]].
  fold b in R, Hrel, Huse.
  exists st'. rewrite R. split; [reflexivity|]. split; [exact W'|].
  split; [subst b c; lia|].
  destruct (Hhdr2 c Hqk) as [Es2 Ef2].
  destruct (Huse c Hqk (not_eq_sym Hcb)) as [Hc' [Hcf Hcby]].
  { subst st2. cbn [memory]. rewrite Ef2. exact Hqf. }
  subst st2. cbn [memory block_map] in *.
  assert (Es' : get_size (memory st') c = get_size (memory st1) c).
  { rewrite <- Es2. apply get_size_ext. intros x Hx. apply Hcby.
    pose proof (get_size_range m2 c). unfold block_end, sizeof_MemBlock. lia. }
  split; [exact Hc'|]. split; [exact Hcf|]. split; [rewrite Es'; exact Hqs|].
  split; [exact Hrel|].
  fold old in Hsmall. unfold block_end, sizeof_MemBlock in *.
  split.
  - intros i Hi. rewrite Hcby by (rewrite Es2; subst c; lia).
    subst m2. rewrite memcpy_inside by lia.
    replace (p + (q + i - q)) with (p + i) by lia.
    apply Hbfoot. subst b. lia.
  - intros i Hi. rewrite Es' in Hi. rewrite Hcby by (rewrite Es2; subst c; lia).
    subst m2. apply memcpy_outside. lia.
Qed.

(** ** Well-formedness is kept by the three entry points

    under the assumption that the OS never returns a region touching an
    arena already in use. *)

Lemma wf_initial : wf initial_state.
Proof.
  split; cbn; try contradiction.
  - constructor.
  - intros k1 k2 [].
Qed.

Lemma mem_alloc_wf st n os st' p :
  wf st -> os_ok st n os -> mem_alloc st n os = Some (st', p) -> wf st'.
Proof.
  intros W Hos R.
  destruct (mem_alloc_props st n os W Hos) as [st1 [p1 [R1 [W1 _]]]].
  rewrite R in R1. inversion R1. subst. exact W1.
Qed.

Lemma mem_free_total st p :
  wf st -> exists st', mem_free st p = Some st' /\ wf st'.
Proof.
  intros W. destruct (Z.eq_dec p NULL) as [->|Hp].
  { exists st. split; [reflexivity | exact W]. }
  destruct (in_dec Z.eq_dec (wrap (p - sizeof_MemBlock)) (block_map st)) as [Hin|Hni].
  - rewrite (mem_free_known st p Hp Hin).
    destruct (merge_free_blocks_props _ (wf_set_free st _ true W Hin)) as [st' [R [W' _]]].
    exists st'. split; assumption.
  - exists st. split; [apply mem_free_unknown; exact Hni | exact W].
Qed.

Lemma in_place_split_wf st p n :
  wf st -> In (wrap (p - sizeof_MemBlock)) (block_map st) ->
  align_mem_size n <= get_size (memory st) (wrap (p - sizeof_MemBlock)) ->
  wf (split_mem_block st (wrap (p - sizeof_MemBlock)) (align_mem_size n)).
Proof.
  intros W Hb Hfit. apply wf_split; [exact W | exact Hb|]. rewrite align_idem. exact Hfit.
Qed.

Lemma mem_realloc_total st p n os :
  wf st -> os_ok st n os -> 0 <= p < word_modulus ->
  exists st' r, mem_realloc st p n os = Some (st', r) /\ wf st'.
Proof.
  intros W Hos Hp.
  destruct (Z.eq_dec p NULL) as [->|Hnz].
  { destruct (mem_alloc_props st n os W Hos) as [st' [r [R [W' _]]]].
    exists st', r. split; [exact R | exact W']. }
  destruct (in_dec Z.eq_dec (wrap (p - sizeof_MemBlock)) (block_map st)) as [Hin|Hni].
  2:{ exists st, NULL. split; [|exact W]. unfold mem_realloc.
      destruct (Z.eqb_spec p NULL); [contradiction|].
      apply map_find_not_In in Hni. rewrite Hni. reflexivity. }
  destruct (Z.le_gt_cases (align_mem_size n)
              (get_size (memory st) (wrap (p - sizeof_MemBlock)))) as [Hfit|Hsmall].
  { rewrite (mem_realloc_in_place st p n os Hnz Hin Hfit).
    eexists _, _. split; [reflexivity|]. apply in_place_split_wf; assumption. }
  assert (Hw : wrap (p - sizeof_MemBlock) = p - sizeof_MemBlock).
  { pose proof (wf_key st _ W Hin) as [K1 [_ [_ K4]]].
    pose proof (get_size_range (memory st) (wrap (p - sizeof_MemBlock))).
    unfold block_end, sizeof_MemBlock, NULL, wrap, word_modulus in *.
    apply Z.mod_small. Z.div_mod_to_equations. lia. }
  rewrite Hw in *.
  destruct (mem_alloc_props st (align_mem_size n) os W (os_ok_align _ _ _ Hos))
    as [st1 [q [Ha [W1 _]]]].
  destruct (Z.eq_dec q NULL) as [->|Hq].
  - exists st1, NULL. split; [|exact W1].
    rewrite (mem_realloc_fallback st p n os Hnz) by (rewrite Hw; assumption).
    rewrite Ha. reflexivity.
  - destruct (mem_realloc_relocate st p n os st1 q W Hin Hsmall Hos Ha Hq)
      as [st' [R [W' _]]].
    exists st', q. split; assumption.
Qed.

(** ** Content preservation *)

(** Whatever path a successful [mem_realloc] takes, the bytes the old and
    the new size have in common are found behind the result. *)
Lemma mem_realloc_content st p n os st' r :
  wf st -> In (p - sizeof_MemBlock) (block_map st) -> os_ok st n os ->
  mem_realloc st p n os = Some (st', r) -> r <> NULL ->
  forall i, 0 <= i < Z.min (get_size (memory st) (p - sizeof_MemBlock)) (align_mem_size n) ->
            memory st' (r + i) = memory st (p + i).
Proof.
  intros W Hb Hos R Hr i Hi.
  destruct (wf_ptr_wrap st p W Hb) as [Hw Hp].
  set (b := p - sizeof_MemBlock) in *.
  pose proof (wf_key st b W Hb) as [K1 [K2 [K3 K4]]].
  pose proof (align_range n) as Hs.
  destruct (Z.le_gt_cases (align_mem_size n) (get_size (memory st) b)) as [Hfit|Hsmall].
  - rewrite (mem_realloc_in_place st p n os Hp) in R
      by (fold b; rewrite Hw; assumption).
    fold b in R. rewrite Hw in R. inversion R. subst r st'. clear R.
    rewrite Z.min_r in Hi by lia.
    destruct (Z.lt_ge_cases (get_size (memory st) b)
                (align_mem_size (align_mem_size n) + sizeof_MemBlock + 4)) as [Hno|Hroom].
    + rewrite split_no_room; [reflexivity|].
      rewrite wrap_small; [exact Hno|]. rewrite align_idem.
      unfold block_end, sizeof_MemBlock in *. lia.
    + destruct (split_room st b (align_mem_size n) ltac:(lia) K4 Hroom)
        as [_ [_ [_ [_ [_ [_ Hfr]]]]]].
      rewrite align_idem in Hfr. apply Hfr; subst b; unfold sizeof_MemBlock; lia.
  - destruct (mem_alloc_props st (align_mem_size n) os W (os_ok_align _ _ _ Hos))
      as [st1 [q [Ha _]]].
    destruct (Z.eq_dec q NULL) as [->|Hq].
    + rewrite (mem_realloc_fallback st p n os Hp) in R
        by (fold b; rewrite Hw; assumption).
      rewrite Ha in R. cbn in R. inversion R. congruence.
    + destruct (mem_realloc_relocate st p n os st1 q W Hb Hsmall Hos Ha Hq)
        as [st2 [R2 [_ [_ [_ [_ [_ [_ [Hcopy _]]]]]]]]].
      rewrite R in R2. inversion R2. subst st2 q.
      apply Hcopy. fold b. lia.
Qed.

(** A block smaller than the aligned request is smaller than the request:
    the relocating copy never truncates. *)
Lemma relocation_copies_whole_block old n :
  0 <= n < word_modulus -> 0 <= old -> old mod 4 = 0 ->
  old < align_mem_size n -> Z.min old n = old.
Proof.
  intros Hn Ho H4 Hlt. apply Z.min_l.
  rewrite align_mem_size_eq in Hlt. unfold wrap, word_modulus in *.
  Z.div_mod_to_equations. lia.
Qed.

(** ** The partition invariant on well-formed states *)

Lemma sum_filter_none (f : Z -> Z) (p : Z -> bool) l :
  (forall k, In k l -> p k = false) ->
  fold_right Z.add 0 (map f (filter p l)) = 0.
Proof.
  induction l as [|y l IH]; intros H; cbn [filter]; [reflexivity|].
  rewrite (H y) by (left; reflexivity). apply IH. intros k Hk. apply H. right. exact Hk.
Qed.

Lemma sum_filter_take (f : Z -> Z) (p : Z -> bool) x l :
  NoDup l -> In x l -> p x = true ->
  fold_right Z.add 0 (map f (filter p l)) =
  f x + fold_right Z.add 0 (map f (filter (fun k => p k && negb (k =? x)) l)).
Proof.
  induction l as [|y l IH]; intros N Hin Hp; [contradiction|].
  inversion N as [|? ? Hny N']. subst. cbn [filter].
  destruct Hin as [->|Hin].
  - rewrite Hp, Z.eqb_refl. cbn [andb negb map fold_right]. f_equal. f_equal. f_equal.
    apply filter_ext_in. intros k Hk.
    destruct (Z.eqb_spec k x) as [->|_]; [contradiction|].
    cbn [negb]. rewrite andb_true_r. reflexivity.
  - assert (y <> x) by (intros ->; contradiction).
    destruct (Z.eqb_spec y x); [contradiction|]. cbn [negb]. rewrite andb_true_r.
    destruct (p y); cbn [map fold_right]; rewrite (IH N' Hin Hp); lia.
Qed.

(** The blocks indexed from [x] to the end of arena [a] add up to what is
    left of the arena. *)
Lemma wf_partition_from st a fuel : forall x,
  wf st -> In a (arena_list st) ->
  x = MemArena.limit a \/ (In x (block_map st) /\ in_arena a x) ->
  MemArena.limit a - x < sizeof_MemBlock * Z.of_nat fuel ->
  fold_right Z.add 0
    (map (fun k => sizeof_MemBlock + get_size (memory st) k)
       (filter (fun k => (x <=? k) && (k <? MemArena.limit a)) (block_map st)))
  = MemArena.limit a - x.
Proof.
  induction fuel as [|fuel IH]; intros x W Ha Hx Hfuel.
  { exfalso. unfold sizeof_MemBlock in Hfuel.
    destruct Hx as [E|[_ [_ I]]]; cbn in Hfuel; lia. }
  destruct Hx as [->|[Hk Hin]].
  - rewrite sum_filter_none; [lia|]. intros k _.
    destruct (Z.leb_spec (MemArena.limit a) k); destruct (Z.ltb_spec k (MemArena.limit a));
      cbn; try reflexivity; lia.
  - destruct Hin as [I1 I2].
    destruct (wf_block_in_arena st a x W Ha Hk (conj I1 I2)) as [[_ [_ [_ B4]]] Hnx].
    pose proof (get_size_range (memory st) x) as Hg.
    rewrite (sum_filter_take _ _ x _ (wf_nodup st W) Hk).
    2:{ destruct (Z.leb_spec x x); destruct (Z.ltb_spec x (MemArena.limit a));
          cbn; try reflexivity; lia. }
    rewrite (filter_ext_in _
               (fun k => (block_end (memory st) x <=? k) && (k <? MemArena.limit a))).
    + rewrite IH; try assumption.
      * unfold block_end. lia.
      * rewrite Nat2Z.inj_succ in Hfuel. unfold block_end, sizeof_MemBlock in *. lia.
    + intros k Hkk.
      destruct (Z.eqb_spec k x) as [->|Hne].
      * cbn [negb]. rewrite andb_false_r. symmetry.
        apply andb_false_iff. left. apply Z.leb_gt.
        unfold block_end, sizeof_MemBlock. lia.
      * cbn [negb]. rewrite andb_true_r. f_equal.
        pose proof (get_size_range (memory st) k).
        destruct (wf_disjoint st W k x Hkk Hk Hne) as [D|D];
          unfold block_end, sizeof_MemBlock in *;
          destruct (Z.leb_spec x k); destruct (Z.leb_spec (x + 16 + get_size (memory st) x) k);
          try reflexivity; lia.
Qed.

(** The partition invariant: in a well-formed state the indexed blocks of
    every arena add up to the arena size. *)
Lemma wf_partition st a :
  wf st -> In a (arena_list st) -> arena_footprint st a = MemArena.size a.
Proof.
  intros W Ha. unfold arena_footprint.
  destruct (wf_arenas st W a Ha) as [A1 [A2 [A3 [A4 A5]]]].
  rewrite (wf_partition_from st a (walk_fuel a) (MemArena.base a) W Ha).
  - unfold MemArena.limit. lia.
  - right. split; [apply (wf_base st W a Ha)|].
    unfold in_arena, MemArena.limit, sizeof_MemBlock in *. lia.
  - unfold walk_fuel, MemArena.limit, sizeof_MemBlock in *.
    rewrite Nat2Z.inj_succ, Z2Nat.id by (apply Z.div_pos; lia).
    Z.div_mod_to_equations. lia.
Qed.

(** ** The concrete traces are runs on well-formed states *)

Lemma after_alloc_wf st n os : wf st -> os_ok st n os -> wf (after_alloc st n os).
Proof.
  intros W Hos. unfold after_alloc.
  destruct (mem_alloc st n os) as [[st' p]|] eqn:R; [|exact W].
  apply (mem_alloc_wf st n os st' p W Hos R).
Qed.

Lemma after_free_wf st p : wf st -> wf (after_free st p).
Proof.
  intros W. unfold after_free.
  destruct (mem_free_total st p W) as [st' [R W']]. rewrite R. exact W'.
Qed.

Lemma after_realloc_wf st p n os :
  wf st -> os_ok st n os -> 0 <= p < word_modulus -> wf (after_realloc st p n os).
Proof.
  intros W Hos Hp. unfold after_realloc.
  destruct (mem_realloc_total st p n os W Hos Hp) as [st' [r [R W']]]. rewrite R. exact W'.
Qed.

Lemma os_ok_null st n : os_ok st n NULL.
Proof. left. reflexivity. Qed.

Lemma os_ok_first n os :
  0 < os -> os mod 4 = 0 -> os + arena_size_for n < word_modulus ->
  os_ok initial_state n os.
Proof.
  intros H1 H2 H3. right. repeat split; try assumption. intros a [].
Qed.

Lemma wf_grow_1 : wf grow_1.
Proof. apply after_alloc_wf; [apply wf_initial | apply os_ok_first; reflexivity]. Qed.

Lemma wf_grow_3 : wf grow_3.
Proof.
  apply after_free_wf. apply after_alloc_wf; [apply wf_grow_1 | apply os_ok_null].
Qed.

Lemma wf_shrink_2 : wf shrink_2.
Proof.
  apply after_realloc_wf; [apply wf_grow_1 | apply os_ok_null | split; reflexivity || discriminate].
Qed.


Lemma wf_copy_1 : wf copy_1.
Proof. apply after_alloc_wf; [apply wf_initial | apply os_ok_first; reflexivity]. Qed.

(** Reading a run back from the pointer it returned. *)
Lemma alloc_run st n os p :
  returned (mem_alloc st n os) = Some p ->
  mem_alloc st n os = Some (after_alloc st n os, p).
Proof.
  unfold returned, after_alloc. destruct (mem_alloc st n os) as [[st' q]|]; cbn; [|discriminate].
  intros E. inversion E. reflexivity.
Qed.

Lemma realloc_run st p n os r :
  returned (mem_realloc st p n os) = Some r ->
  mem_realloc st p n os = Some (after_realloc st p n os, r).
Proof.
  unfold returned, after_realloc.
  destruct (mem_realloc st p n os) as [[st' q]|]; cbn; [|discriminate].
  intros E. inversion E. reflexivity.
Qed.

Lemma free_run st p :
  finished (mem_free st p) = true -> mem_free st p = Some (after_free st p).
Proof.
  unfold finished, after_free. destruct (mem_free st p); [reflexivity | discriminate].
Qed.

Lemma run_returned (st' : state) (p q : Z) (r : option (state * Z)) :
  r = Some (st', p) -> returned r = Some q -> p = q.
Proof. intros -> E. cbn in E. inversion E. reflexivity. Qed.

Lemma run_state_alloc st n os st' p :
  mem_alloc st n os = Some (st', p) -> st' = after_alloc st n os.
Proof. intros E. unfold after_alloc. rewrite E. reflexivity. Qed.

Lemma run_state_realloc st p n os st' r :
  mem_realloc st p n os = Some (st', r) -> st' = after_realloc st p n os.
Proof. intros E. unfold after_realloc. rewrite E. reflexivity. Qed.

Lemma run_state_free st p st' :
  mem_free st p = Some st' -> st' = after_free st p.
Proof. intros E. unfold after_free. rewrite E. reflexivity. Qed.

(** * The claims *)

(** C9. [allocate(0)] returns the null pointer ("no allocation") in every
    allocator state, whatever the OS would answer, and it hands back the
    state it was given: no arena is created, no block is split or marked in
    use, and the index is unchanged. *)
Theorem C9_alloc_zero_is_a_noop :
  forall st os, mem_alloc st 0 os = Some (st, NULL).
Proof. intros st os. reflexivity. Qed.

(** C8. In every allocator state, [release(null)] changes nothing, and for
    a non-null [p] whose header address [p - 16] is not in the index both
    [release(p)] and [reallocate(p, n)] finish and hand back the very same
    state (arena list, index, every header and payload byte); [reallocate]
    then returns the null pointer.  Releasing such a pointer again therefore
    changes nothing either. *)
Theorem C8_unknown_pointers_are_ignored :
  forall st,
    mem_free st NULL = Some st /\
    forall p, p <> NULL -> ~ In (wrap (p - sizeof_MemBlock)) (block_map st) ->
      mem_free st p = Some st /\
      forall n os, mem_realloc st p n os = Some (st, NULL).
Proof.
  intros st. split; [reflexivity|]. intros p Hp Hni.
  split; [apply mem_free_unknown; exact Hni|].
  intros n os. unfold mem_realloc. destruct (Z.eqb_spec p NULL); [contradiction|].
  apply map_find_not_In in Hni. rewrite Hni. reflexivity.
Qed.

Lemma C8_witness :
  mem_free grow_1 4242 = Some grow_1 /\
  mem_realloc grow_1 4242 64 65536 = Some (grow_1, NULL).
Proof.
  assert (Hp : 4242 <> NULL) by discriminate.
  assert (Hni : ~ In (wrap (4242 - sizeof_MemBlock)) (block_map grow_1)).
  { apply map_find_false. vm_compute. reflexivity. }
  destruct (C8_unknown_pointers_are_ignored grow_1) as [_ H].
  destruct (H 4242 Hp Hni) as [H1 H2].
  split; [exact H1 | exact (H2 64 65536)].
Defined.




(** C4 as stated fails: after [ptr = mem_alloc(100)], [q = mem_alloc(200)]
    and [mem_free(q)], the block behind [ptr] (100 bytes, in use) is followed
    by a free block, and together they hold far more than 150 bytes; yet
    [mem_realloc(ptr, 150)] returns [q], not [ptr]. *)
Lemma C4_counterexample :
  wf grow_3 /\
  returned (mem_alloc initial_state 100 65536) = Some 65552 /\
  returned (mem_alloc grow_1 200 NULL) = Some 65668 /\
  block_at (memory grow_3) 65536 = MemBlock.mk 100 false true false /\
  block_end (memory grow_3) 65536 = 65652 /\
  In 65652 (block_map grow_3) /\
  block_at (memory grow_3) 65652 = MemBlock.mk 3964 true false true /\
  returned (mem_realloc grow_3 65552 150 NULL) = Some 65668 /\
  65668 <> 65552.
Proof.
  split; [apply wf_grow_3|].
  split; [vm_compute; reflexivity|].
  split; [vm_compute; reflexivity|].
  split; [vm_compute; reflexivity|].
  split; [vm_compute; reflexivity|].
  split; [apply map_find_true; vm_compute; reflexivity|].
  split; [vm_compute; reflexivity|].
  split; [vm_compute; reflexivity | discriminate].
Qed.

(** C4, amended.  On a well-formed state, with an answer of the OS that is
    null or a fresh region, and for a pointer [p] whose header address
    [p - 16] is in the index: [reallocate(p, n)] returns [p] itself, with the
    first [align4(n)] payload bytes untouched (nothing is copied), when the
    block's own payload size already covers [align4(n)]; when it does not,
    [reallocate] never grows the block into a following free block: it
    returns a pointer different from [p] (a relocated block, or null).
    So in the run of the claim, from the empty allocator with the OS giving
    the region at 65536: after [ptr = allocate(100)], [q = allocate(200)] and
    [release(q)], the block behind [ptr] still holds 100 bytes and
    [reallocate(ptr, 150)] returns [q], not [ptr]. *)
Theorem C4_realloc_keeps_pointer_iff_block_large_enough :
  (forall st p n os,
     wf st -> In (p - sizeof_MemBlock) (block_map st) -> os_ok st n os ->
     let old := get_size (memory st) (p - sizeof_MemBlock) in
     (align_mem_size n <= old ->
        exists st', mem_realloc st p n os = Some (st', p) /\
          forall x, p <= x < p + align_mem_size n -> memory st' x = memory st x) /\
     (old < align_mem_size n ->
        exists st' r, mem_realloc st p n os = Some (st', r) /\ r <> p)) /\
  (returned (mem_alloc initial_state 100 65536) = Some 65552 /\
   returned (mem_alloc grow_1 200 NULL) = Some 65668 /\
   mem_free grow_2 65668 = Some grow_3 /\
   get_size (memory grow_3) (65552 - sizeof_MemBlock) = 100 /\
   returned (mem_realloc grow_3 65552 150 NULL) = Some 65668).
Proof.
  split.
  - intros st p n os W Hb Hos old.
    destruct (wf_ptr_wrap st p W Hb) as [Hw Hp].
    split.
    + intros Hfit.
      destruct (mem_realloc_total st p n os W Hos) as [st' [r [R _]]].
      { pose proof (wf_key st _ W Hb) as [K1 [_ [_ K4]]].
        pose proof (get_size_range (memory st) (p - sizeof_MemBlock)).
        unfold block_end, sizeof_MemBlock in *. lia. }
      assert (r = p).
      { rewrite (mem_realloc_in_place st p n os Hp) in R by (rewrite Hw; assumption).
        inversion R. reflexivity. }
      subst r. exists st'. split; [exact R|].
      intros x Hx. replace x with (p + (x - p)) by lia.
      apply (mem_realloc_content st p n os st' p W Hb Hos R Hp).
      fold old. lia.
    + intros Hsmall.
      destruct (mem_alloc_props st (align_mem_size n) os W (os_ok_align _ _ _ Hos))
        as [st1 [q [Ha _]]].
      destruct (Z.eq_dec q NULL) as [->|Hq].
      * exists st1, NULL. split; [|auto].
        rewrite (mem_realloc_fallback st p n os Hp) by (rewrite Hw; assumption).
        rewrite Ha. reflexivity.
      * destruct (mem_realloc_relocate st p n os st1 q W Hb Hsmall Hos Ha Hq)
          as [st' [R [_ [Hne _]]]].
        exists st', q. split; assumption.
  - split; [vm_compute; reflexivity|].
    split; [vm_compute; reflexivity|].
    split; [unfold grow_3; apply free_run; vm_compute; reflexivity|].
    split; vm_compute; reflexivity.
Qed.

Lemma C4_witness :
  returned (mem_realloc grow_3 65552 90 NULL) = Some 65552 /\
  returned (mem_realloc grow_3 65552 150 NULL) <> Some 65552.
Proof.
  assert (Hb : In (65552 - sizeof_MemBlock) (block_map grow_3)).
  { apply map_find_true. vm_compute. reflexivity. }
  split.
  - destruct (proj1 C4_realloc_keeps_pointer_iff_block_large_enough
                grow_3 65552 90 NULL wf_grow_3 Hb (os_ok_null _ _)) as [H _].
    destruct H as [st' [R _]]; [vm_compute; discriminate|].
    rewrite R. reflexivity.
  - destruct (proj1 C4_realloc_keeps_pointer_iff_block_large_enough
                grow_3 65552 150 NULL wf_grow_3 Hb (os_ok_null _ _)) as [_ H].
    destruct H as [st' [r [R Hne]]]; [vm_compute; reflexivity|].
    rewrite R. cbn. intros E. inversion E. contradiction.
Defined.




(** C2 as stated fails: [mem_alloc(2^64 - 1)] on the empty allocator
    succeeds.  The size is aligned to [(2^64 - 1 + 3) & ~3], which wraps
    around to 0, so a default arena is created and its first block is split at
    0 bytes: the returned block has payload size 0, less than the request. *)
Lemma C2_counterexample :
  wf initial_state /\
  os_ok initial_state (2 ^ 64 - 1) 65536 /\
  0 < 2 ^ 64 - 1 < word_modulus /\
  align_mem_size (2 ^ 64 - 1) = 0 /\
  returned (mem_alloc initial_state (2 ^ 64 - 1) 65536) = Some 65552 /\
  block_at (memory (after_alloc initial_state (2 ^ 64 - 1) 65536)) (65552 - sizeof_MemBlock)
    = MemBlock.mk 0 false true false /\
  ~ (2 ^ 64 - 1 <=
     get_size (memory (after_alloc initial_state (2 ^ 64 - 1) 65536)) (65552 - sizeof_MemBlock)).
Proof.
  split; [apply wf_initial|].
  split; [apply os_ok_first; reflexivity|].
  split; [split; reflexivity|].
  split; [vm_compute; reflexivity|].
  split; [vm_compute; reflexivity|].
  split; [vm_compute; reflexivity|].
  vm_compute. intros H. apply H. reflexivity.
Qed.

(** C2, amended.  For every request [0 < n <= 2^64 - 4] (the sizes whose
    alignment does not wrap around) and every well-formed allocator state,
    [allocate(n)] finishes, and if it succeeds the returned pointer is 4-byte
    aligned, the block it points into is in the index, marked in use, with
    payload size at least [n], and its payload region shares no byte with
    the payload region of any other indexed block, in use or free. *)
Theorem C2_alloc_returns_a_private_block :
  forall st n os,
    wf st -> os_ok st n os -> 0 < n <= word_modulus - 4 ->
    exists st' p,
      mem_alloc st n os = Some (st', p) /\
      (p <> NULL ->
         p mod 4 = 0 /\
         In (p - sizeof_MemBlock) (block_map st') /\
         get_free (memory st') (p - sizeof_MemBlock) = false /\
         n <= get_size (memory st') (p - sizeof_MemBlock) /\
         forall k, In k (block_map st') -> k <> p - sizeof_MemBlock ->
           payload_disjoint p (get_size (memory st') (p - sizeof_MemBlock))
             (k + sizeof_MemBlock) (get_size (memory st') k)).
Proof.
  intros st n os W Hos Hn.
  destruct (mem_alloc_props st n os W Hos) as [st' [p [R [W' [_ [_ Hsucc]]]]]].
  exists st', p. split; [exact R|]. intros Hp.
  destruct (Hsucc Hp) as [_ [Hk [H4 [_ [Hf [Hs _]]]]]].
  pose proof (align_bounds n ltac:(lia)) as Hal.
  split; [exact H4|]. split; [exact Hk|]. split; [exact Hf|]. split; [lia|].
  intros k Hkk Hne. unfold payload_disjoint.
  destruct (wf_disjoint st' W' _ k Hk Hkk (not_eq_sym Hne)) as [D|D];
    unfold block_end, sizeof_MemBlock in *; [left | right]; lia.
Qed.

Lemma C2_witness :
  mem_alloc grow_1 200 NULL = Some (grow_2, 65668) /\
  65668 mod 4 = 0 /\
  In (65668 - sizeof_MemBlock) (block_map grow_2) /\
  get_free (memory grow_2) (65668 - sizeof_MemBlock) = false /\
  200 <= get_size (memory grow_2) (65668 - sizeof_MemBlock).
Proof.
  assert (Hn : 0 < 200 <= word_modulus - 4).
  { split; [reflexivity | vm_compute; discriminate]. }
  destruct (C2_alloc_returns_a_private_block grow_1 200 NULL wf_grow_1 (os_ok_null _ _) Hn)
    as [st' [p [R H]]].
  assert (Ep : returned (mem_alloc grow_1 200 NULL) = Some 65668) by (vm_compute; reflexivity).
  pose proof (run_returned _ _ _ _ R Ep) as Hp. subst p.
  pose proof (run_state_alloc _ _ _ _ _ R) as Hst. fold grow_2 in Hst. subst st'.
  destruct (H ltac:(discriminate)) as [H4 [Hk [Hf [Hs _]]]].
  split; [exact R|]. split; [exact H4|]. split; [exact Hk|]. split; [exact Hf | exact Hs].
Defined.

(** C3 as stated fails: after [p = mem_alloc(100)] and [mem_realloc(p, 8)]
    the block is shrunk in place and the 76 bytes carved off form a free block
    at 65560 that ends exactly where the free rest of the arena starts, at
    65652; no sweep has run.  [mem_free(NULL)] then returns at once, and the
    two adjacent free blocks are still there. *)
Lemma C3_counterexample :
  wf shrink_2 /\
  returned (mem_realloc grow_1 65552 8 NULL) = Some 65552 /\
  mem_free shrink_2 NULL = Some shrink_2 /\
  block_at (memory shrink_2) 65560 = MemBlock.mk 76 true false false /\
  block_at (memory shrink_2) 65652 = MemBlock.mk 3964 true false true /\
  adjacent_free shrink_2 65560 65652.
Proof.
  split; [apply wf_shrink_2|].
  split; [vm_compute; reflexivity|].
  split; [apply mem_free_null|].
  split; [vm_compute; reflexivity|].
  split; [vm_compute; reflexivity|].
  unfold adjacent_free.
  split; [apply map_find_true; vm_compute; reflexivity|].
  split; [apply map_find_true; vm_compute; reflexivity|].
  split; [vm_compute; reflexivity|].
  split; [vm_compute; reflexivity|].
  vm_compute. reflexivity.
Qed.

(** C3, amended.  Whenever [release(p)] finds the header of a non-null [p]
    in the index, so that the sweep runs, then immediately after it returns
    no two indexed free blocks are address-adjacent, in any arena.  This
    needs only that the indexed blocks do not overlap and do not run past the
    end of the address space; it holds for every iteration order of the
    index.  A release of a null or unknown pointer runs no sweep and leaves
    adjacent free blocks where an in-place shrink has put them. *)
Theorem C3_release_leaves_no_adjacent_free_blocks :
  forall st p,
    index_ok (memory st) (block_map st) ->
    p <> NULL -> In (wrap (p - sizeof_MemBlock)) (block_map st) ->
    exists st',
      mem_free st p = Some st' /\
      forall k1 k2, ~ adjacent_free st' k1 k2.
Proof.
  intros st p I Hp Hb. set (b := wrap (p - sizeof_MemBlock)) in *.
  assert (I1 : index_ok (set_free (memory st) b true) (block_map st)).
  { apply (index_ok_frame (memory st)); [exact I|].
    intros k Hk. destruct (Z.eq_dec k b) as [->|Hne]; [apply get_size_set_free; lia|].
    pose proof (get_size_range (memory st) k). pose proof (get_size_range (memory st) b).
    apply get_size_set_free.
    destruct (index_disjoint _ _ I k b Hk Hb Hne) as [D|D];
      unfold block_end, sizeof_MemBlock in D; lia. }
  destruct (merge_loop_props _ _ I1) as [keys' [m' [R [_ [_ [_ [_ [_ Hdone]]]]]]]].
  exists (mkState (arena_list st) keys' m'). split.
  - rewrite (mem_free_known st p Hp Hb). fold b. unfold merge_free_blocks.
    cbn [arena_list block_map memory]. rewrite R. reflexivity.
  - intros k1 k2 [H1 [H2 [F1 [F2 E]]]]. cbn [arena_list block_map memory] in *.
    subst k2. apply (Hdone k1 H1 F1). split; assumption.
Qed.

Lemma C3_witness :
  mem_free shrink_2 65552 = Some (after_free shrink_2 65552) /\
  ~ adjacent_free (after_free shrink_2 65552) 65560 65652 /\
  block_map (after_free shrink_2 65552) = [65536].
Proof.
  assert (Hp : 65552 <> NULL) by discriminate.
  assert (Hb : In (wrap (65552 - sizeof_MemBlock)) (block_map shrink_2)).
  { apply map_find_true. vm_compute. reflexivity. }
  destruct (C3_release_leaves_no_adjacent_free_blocks shrink_2 65552
              (wf_index_ok _ wf_shrink_2) Hp Hb) as [st' [R H]].
  assert (E : st' = after_free shrink_2 65552).
  { unfold after_free. rewrite R. reflexivity. }
  subst st'. split; [exact R|]. split; [apply H|]. vm_compute. reflexivity.
Defined.

Lemma wf_copy_2 : wf copy_2.
Proof.
  apply (wf_payload_write copy_1 65536); [apply wf_copy_1 | |].
  - apply map_find_true. vm_compute. reflexivity.
  - intros x Hx. unfold copy_2. cbn [memory]. apply store_bytes_outside.
    replace (block_end (memory copy_1) 65536) with 65604 in Hx by (vm_compute; reflexivity).
    unfold sizeof_MemBlock in Hx. cbn [length pattern_50 map seq]. lia.
Qed.

(** C7 fails on the code, by the defect of C5.  The OS answers two requests
    with the 64 KiB regions at 65536 and at 131072, which touch; both blocks
    are released, and the sweep merges across the arena boundary: the index
    holds one free block at 65536 that spans both arenas, and the header at
    131072 is left behind, free, outside the index.  Four allocations follow:
    100 bytes and then 50 bytes are cut from the stale header of the upper
    arena ([ptr] = 131204 is the block of 50, in the index), the rest of the
    upper arena, and 65436 bytes of the lower one.  The caller writes the
    bytes 1, 2, ..., 50 at [ptr].  Now [reallocate(ptr, 200)] relocates: the
    block holds 52 bytes, less than 200, and the inner allocation succeeds
    with 131004, a block cut from the free block at 130988, which reaches
    into the upper arena.  The split writes the header of the remainder at
    130988 + 16 + 200 = 131204, the first bytes of the payload behind [ptr],
    before anything is copied.  The 52 bytes copied to the new block start
    with that header: the first eleven bytes behind the returned pointer are
    108, 255, 0, 0, 0, 0, 0, 0, 1, 0, 1 and not 1, ..., 11; the bytes after
    them are the pattern. *)
Theorem C7_relocation_after_cross_arena_merge_copies_a_header :
  block_map twin_4 = [65536] /\
  block_at (memory twin_4) 131072 = MemBlock.mk 65520 true true true /\
  returned (mem_alloc twin_4 100 NULL) = Some 131088 /\
  returned (mem_alloc cross_1 50 NULL) = Some 131204 /\
  returned (mem_alloc cross_2 65336 NULL) = Some 131272 /\
  returned (mem_alloc cross_3 65436 NULL) = Some 65552 /\
  In (131204 - sizeof_MemBlock) (block_map cross_5) /\
  block_at (memory cross_5) (131204 - sizeof_MemBlock) = MemBlock.mk 52 false false false /\
  map (fun i => memory cross_5 (131204 + Z.of_nat i)) (seq 0 50) = pattern_50 /\
  get_size (memory cross_5) (131204 - sizeof_MemBlock) < align_mem_size 200 /\
  returned (mem_alloc cross_5 (align_mem_size 200) NULL) = Some 131004 /\
  block_at (memory cross_5) 130988 = MemBlock.mk 65604 true false true /\
  returned (mem_realloc cross_5 131204 200 NULL) = Some 131004 /\
  map (fun i => memory (after_realloc cross_5 131204 200 NULL) (131004 + Z.of_nat i)) (seq 0 50)
  = [108; 255; 0; 0; 0; 0; 0; 0; 1; 0; 1] ++ skipn 11 pattern_50 /\
  memory (after_realloc cross_5 131204 200 NULL) 131004 <> nth 0 pattern_50 0.
Proof.
  split; [vm_compute; reflexivity|].
  split; [vm_compute; reflexivity|].
  split; [vm_compute; reflexivity|].
  split; [vm_compute; reflexivity|].
  split; [vm_compute; reflexivity|].
  split; [vm_compute; reflexivity|].
  split; [apply map_find_true; vm_compute; reflexivity|].
  split; [vm_compute; reflexivity|].
  split; [vm_compute; reflexivity|].
  split; [vm_compute; reflexivity|].
  split; [vm_compute; reflexivity|].
  split; [vm_compute; reflexivity|].
  split; [vm_compute; reflexivity|].
  split; [vm_compute; reflexivity|].
  vm_compute. discriminate.
Qed.

(** C5 fails on the code.  The OS answers two requests with the 64 KiB
    regions at 65536 and at 131072, which do not overlap but touch.  Each
    arena holds one block of 65520 bytes, whose [last] flag is true.  After
    both pointers are released, the sweep finds the block of the lower arena
    free, looks at the address where it ends, 131072, finds it in the index
    and free, and absorbs it without looking at [last]: the block at 65536
    now has payload size 131056 and spans both arenas, and the first block of
    the upper arena is no longer in the index.  The sweep does the same when
    it visits the two blocks in the other order. *)
Theorem C5_merge_crosses_the_arena_boundary :
  returned (mem_alloc initial_state 65520 65536) = Some 65552 /\
  returned (mem_alloc twin_1 65520 131072) = Some 131088 /\
  arena_list twin_3 = [arena_hi; arena_lo] /\
  MemArena.limit arena_lo <= MemArena.base arena_hi /\
  block_map twin_3 = [131072; 65536] /\
  block_at (memory twin_3) 65536 = MemBlock.mk 65520 true true true /\
  block_at (memory twin_3) 131072 = MemBlock.mk 65520 false true true /\
  in_arena arena_lo 65536 /\ in_arena arena_hi 131072 /\ ~ in_arena arena_lo 131072 /\
  mem_free twin_3 131088 = Some twin_4 /\
  arena_list twin_4 = [arena_hi; arena_lo] /\
  block_map twin_4 = [65536] /\
  block_at (memory twin_4) 65536 = MemBlock.mk 131056 true true true /\
  MemArena.limit arena_lo < block_end (memory twin_4) 65536 /\
  option_map (fun r => (fst r, get_size (snd r) 65536))
    (merge_loop (merge_fuel [65536; 131072]) [65536; 131072] [65536; 131072]
       (set_free (memory twin_3) 131072 true))
  = Some ([65536], 131056).
Proof.
  split; [vm_compute; reflexivity|].
  split; [vm_compute; reflexivity|].
  split; [vm_compute; reflexivity|].
  split; [vm_compute; discriminate|].
  split; [vm_compute; reflexivity|].
  split; [vm_compute; reflexivity|].
  split; [vm_compute; reflexivity|].
  split; [vm_compute; split; [discriminate | reflexivity]|].
  split; [vm_compute; split; [discriminate | reflexivity]|].
  split; [vm_compute; intros [_ H]; discriminate H|].
  split; [unfold twin_4; apply free_run; vm_compute; reflexivity|].
  split; [vm_compute; reflexivity|].
  split; [vm_compute; reflexivity|].
  split; [vm_compute; reflexivity|].
  split; vm_compute; reflexivity.
Qed.

(** C1 fails on the code, by the same trace.  Before the second release the
    indexed blocks of each arena add up to the arena size, 65536.  After it
    the blocks indexed inside the lower arena add up to 131072, twice its
    size, and no indexed block is left inside the upper arena. *)
Theorem C1_partition_broken_for_adjacent_arenas :
  arena_list twin_3 = [arena_hi; arena_lo] /\
  arena_footprint twin_3 arena_lo = MemArena.size arena_lo /\
  arena_footprint twin_3 arena_hi = MemArena.size arena_hi /\
  mem_free twin_3 131088 = Some twin_4 /\
  arena_list twin_4 = [arena_hi; arena_lo] /\
  MemArena.size arena_lo = 65536 /\ MemArena.size arena_hi = 65536 /\
  arena_footprint twin_4 arena_lo = 131072 /\
  arena_footprint twin_4 arena_hi = 0.
Proof.
  split; [vm_compute; reflexivity|].
  split; [vm_compute; reflexivity|].
  split; [vm_compute; reflexivity|].
  split; [unfold twin_4; apply free_run; vm_compute; reflexivity|].
  repeat split; vm_compute; reflexivity.
Qed.

(** * Further properties of the code *)

(** ** [align_mem_size] *)

(** X1. For every [size_t] value [s], [align_mem_size s] is a multiple of 4
    in the [size_t] range and aligning it again changes nothing.  When
    [s <= 2^64 - 4] it is the least multiple of 4 that is at least [s]; for
    the three sizes above that the addition wraps around and the result
    is 0. *)
Theorem X1_align_mem_size_rounds_up :
  forall s, 0 <= s < word_modulus ->
    align_mem_size s mod 4 = 0 /\
    0 <= align_mem_size s < word_modulus /\
    align_mem_size (align_mem_size s) = align_mem_size s /\
    (s <= word_modulus - 4 ->
       s <= align_mem_size s < s + 4 /\
       forall t, t mod 4 = 0 -> s <= t -> align_mem_size s <= t) /\
    (word_modulus - 4 < s -> align_mem_size s = 0).
Proof.
  intros s Hs.
  split; [apply align_mod4|]. split; [apply align_range|]. split; [apply align_idem|].
  split.
  - intros Hle. pose proof (align_bounds s ltac:(lia)) as Hb. split; [exact Hb|].
    intros t Ht Hst. pose proof (align_mod4 s) as H4.
    Z.div_mod_to_equations. lia.
  - intros Hgt. rewrite align_mem_size_eq. unfold wrap, word_modulus in *.
    Z.div_mod_to_equations. lia.
Qed.

Lemma X1_witness :
  align_mem_size 150 = 152 /\ align_mem_size 152 = 152 /\
  align_mem_size (2 ^ 64 - 3) = 0.
Proof.
  assert (H1 : 0 <= 150 < word_modulus) by (split; [discriminate | reflexivity]).
  assert (H2 : 0 <= 2 ^ 64 - 3 < word_modulus) by (split; [discriminate | reflexivity]).
  destruct (X1_align_mem_size_rounds_up 150 H1) as [_ [_ [Hidem _]]].
  destruct (X1_align_mem_size_rounds_up (2 ^ 64 - 3) H2) as [_ [_ [_ [_ Hwrap]]]].
  split; [reflexivity|]. split; [exact Hidem|]. apply Hwrap. reflexivity.
Defined.

(** ** The three entry points keep every arena tiled *)

Lemma split_arena_list st b s : arena_list (split_mem_block st b s) = arena_list st.
Proof.
  unfold split_mem_block.
  destruct (wrap (align_mem_size s + sizeof_MemBlock + 4) <=? get_size (memory st) b);
    reflexivity.
Qed.

Lemma mem_free_arena_list st p st' :
  mem_free st p = Some st' -> arena_list st' = arena_list st.
Proof.
  unfold mem_free. destruct (p =? NULL); [intros E; inversion E; reflexivity|].
  destruct (negb (map_find (wrap (p - sizeof_MemBlock)) (block_map st)));
    [intros E; inversion E; reflexivity|].
  unfold merge_free_blocks. cbn [arena_list block_map memory].
  destruct (merge_loop _ _ _ _) as [[keys m]|]; [|discriminate].
  intros E. inversion E. reflexivity.
Qed.

Lemma mem_alloc_arena_list st n os st' p :
  wf st -> os_ok st n os -> mem_alloc st n os = Some (st', p) ->
  arena_list st' = arena_list st \/
  arena_list st' = MemArena.mk (arena_size_for n) os :: arena_list st.
Proof.
  intros W Hos R.
  destruct (Z.eq_dec n 0) as [->|Hn].
  { cbn in R. inversion R. left. reflexivity. }
  pose proof (align_idem n) as Hal.
  destruct (mem_alloc_cases st n os W Hos Hn)
    as [[R1 _]|[[a [b [_ [[Hb [_ [_ Hfit]]] R1]]]]|[_ [st1 [_ [W1 [HA [HK [_ [Hgs [_ [_ Hres]]]]]]]]]]]];
    try rewrite R in R1.
  - inversion R1. left. reflexivity.
  - inversion R1. left.
    apply (take_block_props st b (align_mem_size n) W Hb Hal Hfit).
  - destruct Hres as [[Hfit R2]|[_ R2]]; rewrite R in R2; inversion R2; right.
    + rewrite <- HA.
      apply (take_block_props st1 os (align_mem_size n) W1); try assumption.
      * rewrite HK. left. reflexivity.
      * rewrite Hgs. exact Hfit.
    + exact HA.
Qed.

Lemma arena_size_for_align n : arena_size_for (align_mem_size n) = arena_size_for n.
Proof. unfold arena_size_for. rewrite align_idem. reflexivity. Qed.

Lemma mem_realloc_arena_list st p n os st' r :
  wf st -> os_ok st n os -> mem_realloc st p n os = Some (st', r) ->
  arena_list st' = arena_list st \/
  arena_list st' = MemArena.mk (arena_size_for n) os :: arena_list st.
Proof.
  intros W Hos R. unfold mem_realloc in R.
  destruct (p =? NULL); [apply (mem_alloc_arena_list st n os st' r W Hos R)|].
  destruct (negb (map_find (wrap (p - sizeof_MemBlock)) (block_map st)));
    [inversion R; left; reflexivity|].
  destruct (align_mem_size n <=? get_size (memory st) (wrap (p - sizeof_MemBlock))).
  { inversion R. left. apply split_arena_list. }
  destruct (mem_alloc st (align_mem_size n) os) as [[st1 q]|] eqn:Ha; [|discriminate].
  pose proof (mem_alloc_arena_list st _ os st1 q W (os_ok_align _ _ _ Hos) Ha) as H1.
  rewrite arena_size_for_align in H1.
  destruct (q =? NULL); [inversion R; subst; exact H1|].
  destruct (mem_free _ p) as [st2|] eqn:Hf; [|discriminate].
  inversion R. subst st2 r. apply mem_free_arena_list in Hf.
  cbn [arena_list] in Hf. rewrite Hf. exact H1.
Qed.

(** X2. On a well-formed state, with the OS answering by a refusal or by a
    fresh region, [mem_alloc] finishes and leaves a well-formed state; the
    arena list is the old one, or the old one with one new arena of
    [max(align4(n) + 16, 4096)] bytes at its head; and in every arena the
    indexed blocks, header and payload, add up to exactly the arena size. *)
Theorem X2_mem_alloc_keeps_every_arena_tiled :
  forall st n os,
    wf st -> os_ok st n os ->
    exists st' p,
      mem_alloc st n os = Some (st', p) /\ wf st' /\
      (arena_list st' = arena_list st \/
       arena_list st' = MemArena.mk (arena_size_for n) os :: arena_list st) /\
      forall a, In a (arena_list st') -> arena_footprint st' a = MemArena.size a.
Proof.
  intros st n os W Hos.
  destruct (mem_alloc_props st n os W Hos) as [st' [p [R [W' _]]]].
  exists st', p. split; [exact R|]. split; [exact W'|].
  split; [apply (mem_alloc_arena_list st n os st' p W Hos R)|].
  intros a Ha. apply wf_partition; assumption.
Qed.

Lemma X2_witness :
  mem_alloc grow_1 200 NULL = Some (grow_2, 65668) /\
  arena_footprint grow_2 (MemArena.mk 4096 65536) = 4096.
Proof.
  destruct (X2_mem_alloc_keeps_every_arena_tiled grow_1 200 NULL wf_grow_1 (os_ok_null _ _))
    as [st' [p [R [_ [_ Hsum]]]]].
  assert (Ep : returned (mem_alloc grow_1 200 NULL) = Some 65668) by (vm_compute; reflexivity).
  pose proof (run_returned _ _ _ _ R Ep) as Hp. subst p.
  pose proof (run_state_alloc _ _ _ _ _ R) as Hst. fold grow_2 in Hst. subst st'.
  split; [exact R|].
  apply (Hsum (MemArena.mk 4096 65536)).
  replace (arena_list grow_2) with [MemArena.mk 4096 65536] by (vm_compute; reflexivity).
  left. reflexivity.
Defined.

(** X3. On a well-formed state [mem_free] finishes for every pointer value
    whatsoever (null, unknown, live, or already released) and leaves a
    well-formed state with the same arena list, in which the indexed blocks
    of every arena add up to exactly the arena size. *)
Theorem X3_mem_free_keeps_every_arena_tiled :
  forall st p,
    wf st ->
    exists st',
      mem_free st p = Some st' /\ wf st' /\
      arena_list st' = arena_list st /\
      forall a, In a (arena_list st') -> arena_footprint st' a = MemArena.size a.
Proof.
  intros st p W. destruct (mem_free_total st p W) as [st' [R W']].
  exists st'. split; [exact R|]. split; [exact W'|].
  split; [apply (mem_free_arena_list st p st' R)|].
  intros a Ha. apply wf_partition; assumption.
Qed.

Lemma X3_witness :
  mem_free grow_2 65668 = Some grow_3 /\
  arena_list grow_3 = arena_list grow_2 /\
  arena_footprint grow_3 (MemArena.mk 4096 65536) = 4096.
Proof.
  assert (W : wf grow_2).
  { apply after_alloc_wf; [apply wf_grow_1 | apply os_ok_null]. }
  destruct (X3_mem_free_keeps_every_arena_tiled grow_2 65668 W) as [st' [R [_ [HA Hsum]]]].
  pose proof (run_state_free _ _ _ R) as Hst. fold grow_3 in Hst. subst st'.
  split; [exact R|]. split; [exact HA|].
  apply (Hsum (MemArena.mk 4096 65536)).
  replace (arena_list grow_3) with [MemArena.mk 4096 65536] by (vm_compute; reflexivity).
  left. reflexivity.
Defined.

(** X4. On a well-formed state, with the OS answering by a refusal or by a
    fresh region, [mem_realloc] finishes for every pointer value and every
    size and leaves a well-formed state; the arena list is the old one, or
    the old one with one new arena at its head; and in every arena the
    indexed blocks add up to exactly the arena size. *)
Theorem X4_mem_realloc_keeps_every_arena_tiled :
  forall st p n os,
    wf st -> os_ok st n os -> 0 <= p < word_modulus ->
    exists st' r,
      mem_realloc st p n os = Some (st', r) /\ wf st' /\
      (arena_list st' = arena_list st \/
       arena_list st' = MemArena.mk (arena_size_for n) os :: arena_list st) /\
      forall a, In a (arena_list st') -> arena_footprint st' a = MemArena.size a.
Proof.
  intros st p n os W Hos Hp.
  destruct (mem_realloc_total st p n os W Hos Hp) as [st' [r [R W']]].
  exists st', r. split; [exact R|]. split; [exact W'|].
  split; [apply (mem_realloc_arena_list st p n os st' r W Hos R)|].
  intros a Ha. apply wf_partition; assumption.
Qed.

Lemma X4_witness :
  mem_realloc grow_3 65552 150 NULL = Some (after_realloc grow_3 65552 150 NULL, 65668) /\
  arena_footprint (after_realloc grow_3 65552 150 NULL) (MemArena.mk 4096 65536) = 4096.
Proof.
  assert (Hp : 0 <= 65552 < word_modulus) by (split; [discriminate | reflexivity]).
  destruct (X4_mem_realloc_keeps_every_arena_tiled grow_3 65552 150 NULL
              wf_grow_3 (os_ok_null _ _) Hp) as [st' [r [R [_ [_ Hsum]]]]].
  assert (Er : returned (mem_realloc grow_3 65552 150 NULL) = Some 65668)
    by (vm_compute; reflexivity).
  pose proof (run_returned _ _ _ _ R Er) as Hr. subst r.
  pose proof (run_state_realloc _ _ _ _ _ _ R) as Hst. subst st'.
  split; [exact R|].
  apply (Hsum (MemArena.mk 4096 65536)).
  replace (arena_list (after_realloc grow_3 65552 150 NULL)) with [MemArena.mk 4096 65536]
    by (vm_compute; reflexivity).
  left. reflexivity.
Defined.

(** ** Placement: first fit *)

Lemma walk_arena_first fuel : forall st a s base st' p,
  wf st -> In a (arena_list st) ->
  base = MemArena.limit a \/ (In base (block_map st) /\ in_arena a base) ->
  MemArena.limit a - base < sizeof_MemBlock * Z.of_nat fuel ->
  walk_arena fuel st a s base = Some (st', p) -> p <> NULL ->
  fits st a s (p - sizeof_MemBlock) /\
  st' = take_block st (p - sizeof_MemBlock) s /\
  forall b, fits st a s b -> base <= b -> p - sizeof_MemBlock <= b.
Proof.
  induction fuel as [|fuel IH]; intros st a s base st' p W Ha Hbase Hfuel R Hp.
  { discriminate R. }
  destruct (wf_arenas st W a Ha) as [A1 [A2 [A3 [A4 A5]]]].
  unfold MemArena.limit, sizeof_MemBlock in A4, A5.
  cbn [walk_arena] in R. rewrite (wrap_small (MemArena.base a + MemArena.size a)) in R by lia.
  fold (MemArena.limit a) in R.
  destruct Hbase as [E|[Hk Hin]].
  - subst base. rewrite Z.ltb_irrefl in R. inversion R. congruence.
  - destruct Hin as [I1 I2]. destruct (Z.ltb_spec base (MemArena.limit a)); [|lia].
    pose proof (wf_key st base W Hk) as [K1 [K2 [K3 K4]]].
    pose proof (get_size_range (memory st) base) as Hg.
    unfold block_end, sizeof_MemBlock in *.
    destruct (get_free (memory st) base && (s <=? get_size (memory st) base)) eqn:Hhit.
    + apply andb_true_iff in Hhit. destruct Hhit as [Hf Hs]. apply Z.leb_le in Hs.
      rewrite (wrap_small (base + 16)) in R by lia. inversion R. subst st' p.
      replace (base + 16 - 16) with base by lia.
      split; [repeat split; assumption|]. split; [reflexivity|].
      intros b _ Hb. exact Hb.
    + rewrite (wrap_small (16 + get_size (memory st) base)) in R by lia.
      rewrite (wrap_small (base + (16 + get_size (memory st) base))) in R by lia.
      destruct (wf_block_in_arena st a base W Ha Hk (conj I1 I2)) as [_ Hnx].
      unfold block_end, sizeof_MemBlock in Hnx.
      replace (base + (16 + get_size (memory st) base))
        with (base + 16 + get_size (memory st) base) in R by lia.
      destruct (IH st a s _ st' p W Ha Hnx) as [Hfit [Hst Hmin]]; try assumption.
      { rewrite Nat2Z.inj_succ in Hfuel. lia. }
      split; [exact Hfit|]. split; [exact Hst|].
      intros b Hb Hle. apply Hmin; [exact Hb|].
      destruct (Z.eq_dec b base) as [->|Hne].
      * exfalso. destruct Hb as [_ [_ [Hf Hs]]]. rewrite Hf in Hhit.
        apply Z.leb_le in Hs. rewrite Hs in Hhit. discriminate.
      * destruct Hb as [Hbk _]. pose proof (get_size_range (memory st) b).
        destruct (wf_disjoint st W b base Hbk Hk Hne) as [D|D];
          unfold block_end, sizeof_MemBlock in D; lia.
Qed.

Lemma allocate_memory_block_first st a s st' p :
  wf st -> In a (arena_list st) -> align_mem_size s = s ->
  allocate_memory_block st a s = Some (st', p) -> p <> NULL ->
  fits st a s (p - sizeof_MemBlock) /\
  st' = take_block st (p - sizeof_MemBlock) s /\
  forall b, fits st a s b -> p - sizeof_MemBlock <= b.
Proof.
  intros W Ha Hal R Hp. unfold allocate_memory_block in R. rewrite Hal in R.
  destruct (wf_arenas st W a Ha) as [A1 [A2 [A3 [A4 A5]]]].
  destruct (walk_arena_first (walk_fuel a) st a s (MemArena.base a) st' p W Ha)
    as [Hfit [Hst Hmin]]; try assumption.
  - right. split; [apply (wf_base st W a Ha)|].
    unfold in_arena, MemArena.limit, sizeof_MemBlock in *. lia.
  - unfold walk_fuel, MemArena.limit, sizeof_MemBlock in *.
    rewrite Nat2Z.inj_succ, Z2Nat.id by (apply Z.div_pos; lia).
    Z.div_mod_to_equations. lia.
  - split; [exact Hfit|]. split; [exact Hst|].
    intros b Hb. apply Hmin; [exact Hb|]. destruct Hb as [_ [[I _] _]]. exact I.
Qed.

Lemma try_arenas_first st s : forall arenas st' p,
  wf st -> incl arenas (arena_list st) -> align_mem_size s = s ->
  try_arenas st arenas s = Some (st', p) -> p <> NULL ->
  exists l1 a l2,
    arenas = l1 ++ a :: l2 /\
    (forall a' b, In a' l1 -> ~ fits st a' s b) /\
    fits st a s (p - sizeof_MemBlock) /\
    (forall b, fits st a s b -> p - sizeof_MemBlock <= b) /\
    st' = take_block st (p - sizeof_MemBlock) s.
Proof.
  induction arenas as [|a rest IH]; intros st' p W Hincl Hal R Hp.
  { cbn in R. inversion R. congruence. }
  cbn [try_arenas] in R.
  assert (Ha : In a (arena_list st)) by (apply Hincl; left; reflexivity).
  destruct (allocate_memory_block_spec st a s W Ha Hal) as [[R1 Hno]|[b [Hfit R1]]].
  - rewrite R1 in R. rewrite Z.eqb_refl in R. cbn [negb] in R.
    destruct (IH st' p W) as [l1 [a0 [l2 [E [Hnone [Hf [Hmin Hst]]]]]]]; try assumption.
    { intros x Hx. apply Hincl. right. exact Hx. }
    exists (a :: l1), a0, l2. split; [rewrite E; reflexivity|].
    split; [|auto]. intros a' b [<-|Hin]; [apply Hno | apply Hnone; exact Hin].
  - rewrite R1 in R. rewrite (fits_not_null st a s b W Hfit) in R. cbn [negb] in R.
    inversion R. subst st' p.
    destruct (allocate_memory_block_first st a s _ _ W Ha Hal R1) as [Hf [_ Hmin]].
    { destruct Hfit as [Hb _]. pose proof (wf_key st b W Hb). unfold sizeof_MemBlock, NULL. lia. }
    exists [], a, rest. split; [reflexivity|]. split; [intros a' b' []|].
    replace (b + sizeof_MemBlock - sizeof_MemBlock) with b in * by lia.
    auto.
Qed.

(** X5. Placement is first fit on well-formed states.  Let the state be
    well formed and the answer of the OS be null or a fresh region.  When
    [mem_alloc(n)] succeeds with a block that was already in the index, that
    block was free and held at least [align4(n)] bytes, no arena before its
    arena in the arena list (newest first) had any free indexed block that
    large, and it is the lowest-addressed such block of its arena.  When it
    succeeds with a block that was not in the index, no free indexed block
    of any arena was that large, and the block is the first block of the
    region the OS has just returned. *)
Theorem X5_mem_alloc_is_first_fit :
  forall st n os st' p,
    wf st -> os_ok st n os ->
    mem_alloc st n os = Some (st', p) -> p <> NULL ->
    (In (p - sizeof_MemBlock) (block_map st) ->
       exists l1 a l2,
         arena_list st = l1 ++ a :: l2 /\
         (forall a' b, In a' l1 -> ~ fits st a' (align_mem_size n) b) /\
         fits st a (align_mem_size n) (p - sizeof_MemBlock) /\
         (forall b, fits st a (align_mem_size n) b -> p - sizeof_MemBlock <= b)) /\
    (~ In (p - sizeof_MemBlock) (block_map st) ->
       (forall a b, In a (arena_list st) -> ~ fits st a (align_mem_size n) b) /\
       p = os + sizeof_MemBlock).
Proof.
  intros st n os st' p W Hos R Hp.
  assert (Hn : n <> 0).
  { intros ->. cbn in R. inversion R. congruence. }
  pose proof (align_idem n) as Hal. set (s := align_mem_size n) in *.
  assert (Htry : mem_alloc st n os =
    match try_arenas st (arena_list st) s with
    | None => None
    | Some (st0, ptr) =>
      if negb (ptr =? NULL) then Some (st0, ptr)
      else match create_new_arena st0 (wrap (s + sizeof_MemBlock)) default_arena_size os with
           | (st1, None) => Some (st1, NULL)
           | (st1, Some new_arena) => allocate_memory_block st1 new_arena s
           end
    end).
  { unfold mem_alloc. destruct (Z.eqb_spec n 0); [contradiction | reflexivity]. }
  destruct (try_arenas_spec st s (arena_list st) W (incl_refl _) Hal)
    as [[R1 Hno]|[a [b [Ha [Hfit R1]]]]].
  - split.
    + intros Hin. exfalso.
      destruct (mem_alloc_cases st n os W Hos Hn)
        as [[R2 _]|[[a [b [Ha [Hfit _]]]]|[_ [st1 [_ [_ [_ [_ [Hni [_ [_ [_ Hres]]]]]]]]]]]].
      * rewrite R in R2. inversion R2. congruence.
      * apply (Hno a b Ha Hfit).
      * destruct Hres as [[_ R2]|[_ R2]]; rewrite R in R2; inversion R2; subst.
        -- replace (os + sizeof_MemBlock - sizeof_MemBlock) with os in Hin by lia.
           contradiction.
        -- congruence.
    + intros _. split; [exact Hno|].
      destruct (mem_alloc_cases st n os W Hos Hn)
        as [[R2 _]|[[a [b [Ha [Hfit _]]]]|[_ [st1 [_ [_ [_ [_ [_ [_ [_ [_ Hres]]]]]]]]]]]].
      * rewrite R in R2. inversion R2. congruence.
      * exfalso. apply (Hno a b Ha Hfit).
      * destruct Hres as [[_ R2]|[_ R2]]; rewrite R in R2; inversion R2; subst;
          [reflexivity | congruence].
  - assert (Hpb : p = b + sizeof_MemBlock /\ st' = take_block st b s).
    { rewrite Htry, R1 in R. rewrite (fits_not_null st a s b W Hfit) in R. cbn [negb] in R.
      inversion R. auto. }
    destruct Hpb as [-> ->].
    destruct (try_arenas_first st s (arena_list st) _ _ W (incl_refl _) Hal R1 Hp)
      as [l1 [a0 [l2 [E [Hnone [Hf [Hmin _]]]]]]].
    split.
    + intros _. exists l1, a0, l2. auto.
    + intros Hni. exfalso. apply Hni. destruct Hf as [Hk _]. exact Hk.
Qed.

Lemma X5_witness :
  exists l1 a l2,
    arena_list grow_3 = l1 ++ a :: l2 /\
    (forall a' b, In a' l1 -> ~ fits grow_3 a' (align_mem_size 50) b) /\
    fits grow_3 a (align_mem_size 50) (65668 - sizeof_MemBlock) /\
    (forall b, fits grow_3 a (align_mem_size 50) b -> 65668 - sizeof_MemBlock <= b).
Proof.
  assert (R : mem_alloc grow_3 50 NULL = Some (after_alloc grow_3 50 NULL, 65668)).
  { apply alloc_run. vm_compute. reflexivity. }
  assert (Hin : In (65668 - sizeof_MemBlock) (block_map grow_3)).
  { apply map_find_true. vm_compute. reflexivity. }
  exact (proj1 (X5_mem_alloc_is_first_fit grow_3 50 NULL _ 65668 wf_grow_3 (os_ok_null _ _)
                  R ltac:(discriminate)) Hin).
Defined.

(** ** Success and exhaustion *)

(** X6. On a well-formed state and for a request [0 < n <= 2^64 - 20]:
    if the OS answers with a fresh region, [mem_alloc] succeeds; if the OS
    refuses, [mem_alloc] returns the null pointer exactly when no free block
    of any arena can hold [align4(n)] bytes, and then the state is
    unchanged. *)
Theorem X6_mem_alloc_fails_only_when_out_of_memory :
  forall st n,
    wf st -> 0 < n <= word_modulus - 20 ->
    (forall os, fresh_region st os (arena_size_for n) ->
       exists st' p, mem_alloc st n os = Some (st', p) /\ p <> NULL) /\
    (exists st' p,
       mem_alloc st n NULL = Some (st', p) /\
       (p = NULL <->
        forall a b, In a (arena_list st) -> ~ fits st a (align_mem_size n) b) /\
       (p = NULL -> st' = st)).
Proof.
  intros st n W Hn.
  assert (Hn0 : n <> 0) by lia.
  pose proof (align_bounds n ltac:(unfold word_modulus in *; lia)) as Hb.
  pose proof (align_idem n) as Hal.
  split.
  - intros os Hfresh.
    assert (Hos : os <> NULL) by (destruct Hfresh as [F _]; unfold NULL; lia).
    destruct (mem_alloc_cases st n os W (or_intror Hfresh) Hn0)
      as [[_ E]|[[a [b [_ [Hfit R]]]]|[_ [st1 [_ [_ [_ [_ [_ [_ [_ [_ Hres]]]]]]]]]]]].
    + contradiction.
    + eexists _, _. split; [exact R|].
      pose proof (fits_not_null st a _ b W Hfit) as Hnz. apply Z.eqb_neq in Hnz. exact Hnz.
    + destruct Hres as [[_ R]|[Hwrap _]].
      * eexists _, _. split; [exact R|].
        destruct Hfresh as [F _]. unfold sizeof_MemBlock, NULL. lia.
      * exfalso. unfold sizeof_MemBlock, word_modulus in *. lia.
  - destruct (try_arenas_spec st (align_mem_size n) (arena_list st) W (incl_refl _) Hal)
      as [[R1 Hno]|[a [b [Ha [Hfit R1]]]]].
    + exists st, NULL. unfold mem_alloc. destruct (Z.eqb_spec n 0); [contradiction|].
      rewrite R1. cbn. split; [reflexivity|]. split; [|reflexivity].
      split; [intros _; exact Hno | reflexivity].
    + exists (take_block st b (align_mem_size n)), (b + sizeof_MemBlock).
      unfold mem_alloc. destruct (Z.eqb_spec n 0); [contradiction|].
      rewrite R1. pose proof (fits_not_null st a _ b W Hfit) as Hnz. rewrite Hnz. cbn [negb].
      apply Z.eqb_neq in Hnz.
      split; [reflexivity|]. split; [|intros E; contradiction].
      split; [intros E; contradiction|]. intros Hno. exfalso. apply (Hno a b Ha Hfit).
Qed.

Lemma X6_witness :
  (exists st' p, mem_alloc grow_1 5000 131072 = Some (st', p) /\ p <> NULL) /\
  returned (mem_alloc grow_1 5000 NULL) = Some NULL.
Proof.
  assert (Hn : 0 < 5000 <= word_modulus - 20).
  { split; [reflexivity | vm_compute; discriminate]. }
  destruct (X6_mem_alloc_fails_only_when_out_of_memory grow_1 5000 wf_grow_1 Hn) as [H1 H2].
  split.
  - apply H1. split; [reflexivity|]. split; [reflexivity|]. split; [vm_compute; reflexivity|].
    intros a Ha. replace (arena_list grow_1) with [MemArena.mk 4096 65536] in Ha
      by (vm_compute; reflexivity).
    destruct Ha as [<-|[]]. right. vm_compute. reflexivity.
  - vm_compute. reflexivity.
Defined.

(** ** [compute_checksum] *)

Lemma checksum_loop_ext m m' data count : forall i c,
  (forall j, i <= j < i + Z.of_nat count -> m' (data + j) = m (data + j)) ->
  checksum_loop m' data count i c = checksum_loop m data count i c.
Proof.
  induction count as [|count IH]; intros i c H; cbn [checksum_loop]; [reflexivity|].
  unfold load8. rewrite (H i) by lia. apply IH. intros j Hj. apply H. lia.
Qed.

Lemma compute_checksum_ext m m' data size :
  (forall x, data <= x < data + size -> m' x = m x) ->
  compute_checksum m' data size = compute_checksum m data size.
Proof.
  intros H. unfold compute_checksum. apply checksum_loop_ext.
  intros j Hj. apply H. lia.
Qed.

Lemma checksum_loop_sum m data count : forall k,
  checksum_loop m data count (Z.of_nat k) (byte_sum m data k mod uint32_modulus)
  = byte_sum m data (k + count) mod uint32_modulus.
Proof.
  induction count as [|count IH]; intros k; cbn [checksum_loop].
  - rewrite Nat.add_0_r. reflexivity.
  - replace (k + S count)%nat with (S k + count)%nat by lia.
    rewrite <- IH. rewrite Nat2Z.inj_succ. unfold Z.succ. f_equal.
    cbn [byte_sum]. unfold uint32_modulus. rewrite Z.add_mod_idemp_l by lia. reflexivity.
Qed.

Lemma compute_checksum_sum m data size :
  compute_checksum m data size = byte_sum m data (Z.to_nat size) mod uint32_modulus.
Proof.
  unfold compute_checksum. apply (checksum_loop_sum m data (Z.to_nat size) 0).
Qed.

Lemma byte_sum_app m data n1 : forall n2,
  byte_sum m data (n1 + n2) = byte_sum m data n1 + byte_sum m (data + Z.of_nat n1) n2.
Proof.
  induction n2 as [|n2 IH].
  - rewrite Nat.add_0_r. cbn [byte_sum]. lia.
  - replace (n1 + S n2)%nat with (S (n1 + n2)) by lia. cbn [byte_sum]. rewrite IH.
    rewrite Nat2Z.inj_add. replace (data + (Z.of_nat n1 + Z.of_nat n2))
      with (data + Z.of_nat n1 + Z.of_nat n2) by lia. lia.
Qed.

Lemma byte_sum_bounds m data n : 0 <= byte_sum m data n <= 255 * Z.of_nat n.
Proof.
  induction n as [|n IH]; cbn [byte_sum]; [lia|].
  pose proof (load8_range m (data + Z.of_nat n)). lia.
Qed.

(** X7. [compute_checksum] returns the sum of the [size] bytes at [data]
    modulo 2^32 (the exact sum when [255 * size < 2^32], and 0 when [size]
    is 0); it reads nothing outside [data, data + size); and the checksum
    of two regions laid end to end is the sum of their checksums modulo
    2^32. *)
Theorem X7_compute_checksum_is_the_byte_sum :
  forall m data size,
    0 <= size ->
    compute_checksum m data size = byte_sum m data (Z.to_nat size) mod uint32_modulus /\
    0 <= compute_checksum m data size < uint32_modulus /\
    (255 * size < uint32_modulus ->
       compute_checksum m data size = byte_sum m data (Z.to_nat size)) /\
    compute_checksum m data 0 = 0 /\
    (forall m', (forall x, data <= x < data + size -> m' x = m x) ->
       compute_checksum m' data size = compute_checksum m data size) /\
    (forall size2, 0 <= size2 ->
       compute_checksum m data (size + size2)
       = (compute_checksum m data size + compute_checksum m (data + size) size2)
           mod uint32_modulus).
Proof.
  intros m data size Hs.
  split; [apply compute_checksum_sum|].
  split; [rewrite compute_checksum_sum; apply Z.mod_pos_bound; reflexivity|].
  split.
  { intros Hsmall. rewrite compute_checksum_sum. apply Z.mod_small.
    pose proof (byte_sum_bounds m data (Z.to_nat size)). rewrite Z2Nat.id in H by lia. lia. }
  split; [reflexivity|].
  split; [intros m' H; apply compute_checksum_ext; exact H|].
  intros size2 Hs2. rewrite !compute_checksum_sum.
  rewrite Z2Nat.inj_add by lia. rewrite byte_sum_app. rewrite Z2Nat.id by lia.
  unfold uint32_modulus. rewrite <- Z.add_mod by lia. reflexivity.
Qed.

Lemma X7_witness :
  compute_checksum (memory copy_2) 65552 50 = 1275 /\
  compute_checksum (memory copy_2) 65552 50
  = (compute_checksum (memory copy_2) 65552 20
     + compute_checksum (memory copy_2) (65552 + 20) 30) mod uint32_modulus.
Proof.
  assert (H50 : 0 <= 50) by discriminate.
  assert (H20 : 0 <= 20) by discriminate.
  destruct (X7_compute_checksum_is_the_byte_sum (memory copy_2) 65552 50 H50)
    as [_ [_ [Hexact _]]].
  destruct (X7_compute_checksum_is_the_byte_sum (memory copy_2) 65552 20 H20)
    as [_ [_ [_ [_ [_ Happ]]]]].
  split.
  - rewrite Hexact by reflexivity. vm_compute. reflexivity.
  - exact (Happ 30 ltac:(discriminate)).
Defined.

(** ** Isolation: what an operation does to the other blocks *)

Lemma block_untouched_refl st k : In k (block_map st) -> block_untouched st st k.
Proof. intros H. split; [exact H | reflexivity]. Qed.

Lemma block_untouched_end st st' k :
  block_untouched st st' k -> block_end (memory st') k = block_end (memory st) k.
Proof.
  intros [_ H]. unfold block_end. f_equal. apply get_size_ext.
  intros x Hx. apply H. pose proof (get_size_range (memory st) k).
  unfold block_end, sizeof_MemBlock. lia.
Qed.

Lemma block_untouched_trans st st1 st2 k :
  block_untouched st st1 k -> block_untouched st1 st2 k -> block_untouched st st2 k.
Proof.
  intros H1 H2. pose proof (block_untouched_end _ _ _ H1) as E.
  destruct H1 as [_ H1]. destruct H2 as [I2 H2]. split; [exact I2|].
  intros x Hx. rewrite H2 by (rewrite E; exact Hx). apply H1. exact Hx.
Qed.

(** What a caller can observe of an untouched block. *)
Lemma block_untouched_view st st' k :
  block_untouched st st' k ->
  In k (block_map st') /\
  block_at (memory st') k = block_at (memory st) k /\
  (forall x, k + sizeof_MemBlock <= x < k + sizeof_MemBlock + get_size (memory st) k ->
             memory st' x = memory st x) /\
  (forall len, 0 <= len <= get_size (memory st) k ->
     compute_checksum (memory st') (k + sizeof_MemBlock) len
     = compute_checksum (memory st) (k + sizeof_MemBlock) len).
Proof.
  intros [Hin H]. pose proof (get_size_range (memory st) k).
  unfold block_end, sizeof_MemBlock in *.
  split; [exact Hin|]. split.
  { apply block_at_ext. intros x Hx. apply H. unfold sizeof_MemBlock in Hx. lia. }
  split; [intros x Hx; apply H; lia|].
  intros len Hlen. apply compute_checksum_ext. intros x Hx. apply H. lia.
Qed.

Lemma mem_alloc_untouched st n os st' p k :
  wf st -> os_ok st n os -> mem_alloc st n os = Some (st', p) ->
  In k (block_map st) -> get_free (memory st) k = false ->
  block_untouched st st' k /\ p <> k + sizeof_MemBlock.
Proof.
  intros W Hos R Hk Hf.
  destruct (mem_alloc_props st n os W Hos) as [st1 [p1 [R1 [_ [HK [Hnull Hsucc]]]]]].
  rewrite R in R1. inversion R1. subst st1 p1. clear R1.
  pose proof (wf_key st k W Hk) as [K1 _].
  destruct (Z.eq_dec p NULL) as [Hp|Hp].
  - destruct (Hnull Hp) as [_ Hkeep]. split.
    + split; [apply HK; exact Hk|]. intros x Hx. apply (Hkeep k x Hk Hx).
    + subst p. unfold NULL, sizeof_MemBlock. lia.
  - destruct (Hsucc Hp) as [_ [_ [_ [_ [_ [_ [Hold [Hoth _]]]]]]]].
    assert (Hne : k <> p - sizeof_MemBlock).
    { intros E. rewrite <- E in Hold. destruct (Hold Hk) as [Hf' _]. congruence. }
    split; [|lia].
    split; [apply HK; exact Hk|]. intros x Hx. apply (Hoth k x Hk Hne Hx).
Qed.

(** X8. An allocation touches no live block.  On a well-formed state, for
    every indexed block marked in use, [mem_alloc] never returns that block,
    and afterwards the block is still indexed, its header is the same, every
    payload byte is the same, and [compute_checksum] over any prefix of its
    payload returns what it returned before. *)
Theorem X8_mem_alloc_leaves_live_blocks_alone :
  forall st n os k,
    wf st -> os_ok st n os ->
    In k (block_map st) -> get_free (memory st) k = false ->
    exists st' p,
      mem_alloc st n os = Some (st', p) /\
      p <> k + sizeof_MemBlock /\
      In k (block_map st') /\
      block_at (memory st') k = block_at (memory st) k /\
      (forall x, k + sizeof_MemBlock <= x < k + sizeof_MemBlock + get_size (memory st) k ->
                 memory st' x = memory st x) /\
      (forall len, 0 <= len <= get_size (memory st) k ->
         compute_checksum (memory st') (k + sizeof_MemBlock) len
         = compute_checksum (memory st) (k + sizeof_MemBlock) len).
Proof.
  intros st n os k W Hos Hk Hf.
  destruct (mem_alloc_props st n os W Hos) as [st' [p [R _]]].
  destruct (mem_alloc_untouched st n os st' p k W Hos R Hk Hf) as [Hu Hne].
  exists st', p. split; [exact R|]. split; [exact Hne|].
  apply block_untouched_view. exact Hu.
Qed.

Lemma X8_witness :
  mem_alloc copy_2 40 NULL = Some (after_alloc copy_2 40 NULL, 65620) /\
  65620 <> 65536 + sizeof_MemBlock /\
  compute_checksum (memory (after_alloc copy_2 40 NULL)) (65536 + sizeof_MemBlock) 50 = 1275.
Proof.
  assert (Hk : In 65536 (block_map copy_2)).
  { apply map_find_true. vm_compute. reflexivity. }
  assert (Hf : get_free (memory copy_2) 65536 = false) by (vm_compute; reflexivity).
  destruct (X8_mem_alloc_leaves_live_blocks_alone copy_2 40 NULL 65536
              wf_copy_2 (os_ok_null _ _) Hk Hf) as [st' [p [R [Hne [_ [_ [_ Hsum]]]]]]].
  assert (Ep : returned (mem_alloc copy_2 40 NULL) = Some 65620) by (vm_compute; reflexivity).
  pose proof (run_returned _ _ _ _ R Ep) as Hp. subst p.
  pose proof (run_state_alloc _ _ _ _ _ R) as Hst. subst st'.
  split; [exact R|]. split; [exact Hne|].
  rewrite (Hsum 50) by (vm_compute; split; discriminate).
  vm_compute. reflexivity.
Defined.

Lemma block_untouched_flag st st' k :
  block_untouched st st' k -> get_free (memory st') k = get_free (memory st) k.
Proof.
  intros [_ H]. apply get_free_ext. apply H.
  pose proof (get_size_range (memory st) k). unfold block_end, sizeof_MemBlock. lia.
Qed.

(** A pointer value in the [size_t] range whose header address is indexed
    is the header address plus 16. *)
Lemma wf_ptr_of_key st p :
  wf st -> 0 <= p < word_modulus ->
  In (wrap (p - sizeof_MemBlock)) (block_map st) ->
  wrap (p - sizeof_MemBlock) = p - sizeof_MemBlock.
Proof.
  intros W Hp Hin. pose proof (wf_key st _ W Hin) as [K1 [_ [_ K4]]].
  pose proof (get_size_range (memory st) (wrap (p - sizeof_MemBlock))).
  unfold block_end, sizeof_MemBlock, NULL, wrap, word_modulus in *.
  apply Z.mod_small. Z.div_mod_to_equations. lia.
Qed.

Lemma mem_free_untouched st p st' k :
  wf st -> mem_free st p = Some st' ->
  In k (block_map st) -> get_free (memory st) k = false ->
  k <> wrap (p - sizeof_MemBlock) ->
  block_untouched st st' k.
Proof.
  intros W R Hk Hf Hne.
  destruct (Z.eq_dec p NULL) as [->|Hp].
  { cbn in R. inversion R. subst. apply block_untouched_refl. exact Hk. }
  destruct (in_dec Z.eq_dec (wrap (p - sizeof_MemBlock)) (block_map st)) as [Hin|Hni].
  2:{ rewrite (mem_free_unknown st p Hni) in R. inversion R. subst.
      apply block_untouched_refl. exact Hk. }
  set (b := wrap (p - sizeof_MemBlock)) in *.
  assert (Hb' : In (b + sizeof_MemBlock - sizeof_MemBlock) (block_map st)).
  { replace (b + sizeof_MemBlock - sizeof_MemBlock) with b by lia. exact Hin. }
  destruct (mem_free_props st (b + sizeof_MemBlock) W Hb') as [st2 [R2 [_ [_ [_ [_ Huse]]]]]].
  destruct (wf_ptr_wrap st (b + sizeof_MemBlock) W Hb') as [Hw Hnz].
  rewrite (mem_free_known st _ Hnz) in R2 by (rewrite Hw; exact Hb').
  rewrite (mem_free_known st p Hp Hin) in R. fold b in R.
  replace (wrap (b + sizeof_MemBlock - sizeof_MemBlock)) with b in R2
    by (rewrite Hw; lia).
  rewrite R in R2. inversion R2. subst st2.
  replace (b + sizeof_MemBlock - sizeof_MemBlock) with b in Huse by lia.
  destruct (Huse k Hk Hne Hf) as [Hk' [_ Hby]].
  split; assumption.
Qed.

(** X9. A release touches no other live block.  On a well-formed state, for
    every pointer value [p] and every indexed block in use other than the one
    [p] points into, after [mem_free(p)] that block is still indexed, with the
    same header and the same payload bytes, so that [compute_checksum] over
    any prefix of its payload is unchanged: a merge never swallows or
    overwrites a block in use. *)
Theorem X9_mem_free_leaves_other_live_blocks_alone :
  forall st p k,
    wf st -> In k (block_map st) -> get_free (memory st) k = false ->
    k <> wrap (p - sizeof_MemBlock) ->
    exists st',
      mem_free st p = Some st' /\
      In k (block_map st') /\
      block_at (memory st') k = block_at (memory st) k /\
      (forall x, k + sizeof_MemBlock <= x < k + sizeof_MemBlock + get_size (memory st) k ->
                 memory st' x = memory st x) /\
      (forall len, 0 <= len <= get_size (memory st) k ->
         compute_checksum (memory st') (k + sizeof_MemBlock) len
         = compute_checksum (memory st) (k + sizeof_MemBlock) len).
Proof.
  intros st p k W Hk Hf Hne.
  destruct (mem_free_total st p W) as [st' [R _]].
  exists st'. split; [exact R|].
  apply block_untouched_view. apply (mem_free_untouched st p st' k W R Hk Hf Hne).
Qed.

Lemma wf_grow_2 : wf grow_2.
Proof. apply after_alloc_wf; [apply wf_grow_1 | apply os_ok_null]. Qed.

Lemma X9_witness :
  mem_free grow_2 65668 = Some grow_3 /\
  In 65536 (block_map grow_3) /\
  block_at (memory grow_3) 65536 = block_at (memory grow_2) 65536 /\
  compute_checksum (memory grow_3) (65536 + sizeof_MemBlock) 100
  = compute_checksum (memory grow_2) (65536 + sizeof_MemBlock) 100.
Proof.
  assert (Hk : In 65536 (block_map grow_2)).
  { apply map_find_true. vm_compute. reflexivity. }
  assert (Hf : get_free (memory grow_2) 65536 = false) by (vm_compute; reflexivity).
  assert (Hne : 65536 <> wrap (65668 - sizeof_MemBlock)) by (vm_compute; discriminate).
  destruct (X9_mem_free_leaves_other_live_blocks_alone grow_2 65668 65536
              wf_grow_2 Hk Hf Hne) as [st' [R [Hin [Hat [_ Hsum]]]]].
  pose proof (run_state_free _ _ _ R) as Hst. fold grow_3 in Hst. subst st'.
  split; [exact R|]. split; [exact Hin|]. split; [exact Hat|].
  apply Hsum. vm_compute. split; discriminate.
Defined.

Lemma split_untouched st b s k :
  wf st -> In b (block_map st) -> align_mem_size s <= get_size (memory st) b ->
  In k (block_map st) -> k <> b ->
  block_untouched st (split_mem_block st b s) k.
Proof.
  intros W Hb Hfit Hk Hne.
  pose proof (wf_key st b W Hb) as [K1 [_ [_ K4]]].
  pose proof (align_range s) as Hs.
  pose proof (get_size_range (memory st) b) as Hg.
  pose proof (get_size_range (memory st) k) as Hgk.
  destruct (Z.lt_ge_cases (get_size (memory st) b) (align_mem_size s + sizeof_MemBlock + 4))
    as [Hno|Hroom].
  { rewrite split_no_room; [apply block_untouched_refl; exact Hk|].
    rewrite wrap_small; [exact Hno|]. unfold block_end, sizeof_MemBlock in *. lia. }
  destruct (split_room st b s ltac:(lia) K4 Hroom) as [_ [HK [_ [_ [_ [_ Hfr]]]]]].
  split.
  - rewrite HK. apply map_insert_In. right. exact Hk.
  - intros x Hx.
    destruct (wf_disjoint st W k b Hk Hb Hne) as [D|D];
      unfold block_end, sizeof_MemBlock in *; apply Hfr; lia.
Qed.

Lemma mem_realloc_untouched st p n os st' r k :
  wf st -> os_ok st n os -> 0 <= p < word_modulus ->
  mem_realloc st p n os = Some (st', r) ->
  In k (block_map st) -> get_free (memory st) k = false ->
  k <> wrap (p - sizeof_MemBlock) ->
  block_untouched st st' k /\ r <> k + sizeof_MemBlock.
Proof.
  intros W Hos Hp R Hk Hf Hne.
  pose proof (wf_key st k W Hk) as [Kk _].
  destruct (Z.eq_dec p NULL) as [->|Hnz].
  { apply (mem_alloc_untouched st n os st' r k W Hos R Hk Hf). }
  destruct (in_dec Z.eq_dec (wrap (p - sizeof_MemBlock)) (block_map st)) as [Hin|Hni].
  2:{ unfold mem_realloc in R. destruct (Z.eqb_spec p NULL); [contradiction|].
      apply map_find_not_In in Hni. rewrite Hni in R. cbn in R. inversion R. subst.
      split; [apply block_untouched_refl; exact Hk|]. unfold NULL, sizeof_MemBlock. lia. }
  pose proof (wf_ptr_of_key st p W Hp Hin) as Hw.
  destruct (Z.le_gt_cases (align_mem_size n)
              (get_size (memory st) (wrap (p - sizeof_MemBlock)))) as [Hfit|Hsmall].
  { rewrite (mem_realloc_in_place st p n os Hnz Hin Hfit) in R. inversion R. subst st' r.
    split; [|rewrite Hw in Hne; lia].
    apply split_untouched; try assumption. rewrite align_idem. exact Hfit. }
  rewrite (mem_realloc_fallback st p n os Hnz Hin Hsmall) in R.
  rewrite Hw in *. set (b := p - sizeof_MemBlock) in *.
  destruct (mem_alloc_props st (align_mem_size n) os W (os_ok_align _ _ _ Hos))
    as [st1 [q [Ha [W1 [HK1 [_ Hsucc]]]]]].
  rewrite Ha in R.
  destruct (mem_alloc_untouched st _ os st1 q k W (os_ok_align _ _ _ Hos) Ha Hk Hf)
    as [Hu1 Hqk].
  destruct (Z.eqb_spec q NULL) as [Hq|Hq].
  { inversion R. subst st' r. split; [exact Hu1|]. unfold NULL, sizeof_MemBlock. lia. }
  destruct (Hsucc Hq) as [_ [Hqk' [_ [_ [_ [Hqs [Hqold [Hoth _]]]]]]]].
  rewrite align_idem in Hqs, Hqold.
  set (c := q - sizeof_MemBlock) in *.
  assert (Hcb : b <> c).
  { intros E. rewrite <- E in Hqold. destruct (Hqold Hin) as [_ G]. lia. }
  assert (Hsz1 : get_size (memory st1) b = get_size (memory st) b).
  { apply get_size_ext. intros x Hx. apply (Hoth b x Hin Hcb).
    pose proof (get_size_range (memory st) b). unfold block_end, sizeof_MemBlock. lia. }
  rewrite Hsz1 in R. set (old := get_size (memory st) b) in *.
  set (m2 := memcpy (memory st1) q p old) in *.
  assert (Hm2 : forall x, x < c + sizeof_MemBlock \/ block_end (memory st1) c <= x ->
                          m2 x = memory st1 x).
  { intros x Hx. subst m2. apply memcpy_outside.
    unfold block_end, sizeof_MemBlock in *. subst c. lia. }
  pose proof (wf_payload_write st1 c m2 W1 Hqk' Hm2) as W2.
  set (st2 := mkState (arena_list st1) (block_map st1) m2) in *.
  assert (Hkc : k <> c) by (subst c; lia).
  destruct Hu1 as [Hk1 Hby1].
  assert (Hu2 : block_untouched st1 st2 k).
  { split; [exact Hk1|]. intros x Hx. subst st2. cbn [memory]. apply Hm2.
    pose proof (get_size_range (memory st1) k).
    destruct (wf_disjoint st1 W1 k c Hk1 Hqk' Hkc) as [D|D];
      unfold block_end, sizeof_MemBlock in *; lia. }
  destruct (mem_free st2 p) as [st3|] eqn:Hfree; [|discriminate].
  inversion R. subst st3 r.
  split; [|exact Hqk].
  apply (block_untouched_trans st st1 st' k); [split; assumption|].
  apply (block_untouched_trans st1 st2 st' k); [exact Hu2|].
  apply (mem_free_untouched st2 p st' k W2 Hfree Hk1).
  - rewrite (block_untouched_flag _ _ _ Hu2).
    rewrite (block_untouched_flag st st1 k (conj Hk1 Hby1)). exact Hf.
  - fold b. rewrite Hw. exact Hne.
Qed.

(** X10. A reallocation touches no other live block.  On a well-formed state,
    for every pointer [p] in the [size_t] range and every indexed block in use
    other than the one [p] points into, [mem_realloc(p, n)] never returns that
    block, whichever path it takes (allocate, ignore, shrink in place,
    relocate, fail), and afterwards the block is still indexed with the same
    header and the same payload bytes, so that [compute_checksum] over any
    prefix of its payload is unchanged. *)
Theorem X10_mem_realloc_leaves_other_live_blocks_alone :
  forall st p n os k,
    wf st -> os_ok st n os -> 0 <= p < word_modulus ->
    In k (block_map st) -> get_free (memory st) k = false ->
    k <> wrap (p - sizeof_MemBlock) ->
    exists st' r,
      mem_realloc st p n os = Some (st', r) /\
      r <> k + sizeof_MemBlock /\
      In k (block_map st') /\
      block_at (memory st') k = block_at (memory st) k /\
      (forall x, k + sizeof_MemBlock <= x < k + sizeof_MemBlock + get_size (memory st) k ->
                 memory st' x = memory st x) /\
      (forall len, 0 <= len <= get_size (memory st) k ->
         compute_checksum (memory st') (k + sizeof_MemBlock) len
         = compute_checksum (memory st) (k + sizeof_MemBlock) len).
Proof.
  intros st p n os k W Hos Hp Hk Hf Hne.
  destruct (mem_realloc_total st p n os W Hos Hp) as [st' [r [R _]]].
  destruct (mem_realloc_untouched st p n os st' r k W Hos Hp R Hk Hf Hne) as [Hu Hr].
  exists st', r. split; [exact R|]. split; [exact Hr|].
  apply block_untouched_view. exact Hu.
Qed.

Lemma X10_witness :
  mem_realloc grow_2 65668 400 NULL
  = Some (after_realloc grow_2 65668 400 NULL, 65884) /\
  65884 <> 65536 + sizeof_MemBlock /\
  In 65536 (block_map (after_realloc grow_2 65668 400 NULL)) /\
  block_at (memory (after_realloc grow_2 65668 400 NULL)) 65536
  = block_at (memory grow_2) 65536.
Proof.
  assert (Hp : 0 <= 65668 < word_modulus) by (split; [discriminate | reflexivity]).
  assert (Hk : In 65536 (block_map grow_2)).
  { apply map_find_true. vm_compute. reflexivity. }
  assert (Hf : get_free (memory grow_2) 65536 = false) by (vm_compute; reflexivity).
  assert (Hne : 65536 <> wrap (65668 - sizeof_MemBlock)) by (vm_compute; discriminate).
  destruct (X10_mem_realloc_leaves_other_live_blocks_alone grow_2 65668 400 NULL 65536
              wf_grow_2 (os_ok_null _ _) Hp Hk Hf Hne)
    as [st' [r [R [Hr [Hin [Hat _]]]]]].
  assert (Er : returned (mem_realloc grow_2 65668 400 NULL) = Some 65884)
    by (vm_compute; reflexivity).
  pose proof (run_returned _ _ _ _ R Er) as E. subst r.
  pose proof (run_state_realloc _ _ _ _ _ _ R) as Hst. subst st'.
  split; [exact R|]. split; [exact Hr|]. split; [exact Hin | exact Hat].
Defined.

(** ** Where an allocated block lies and how large it is *)

Lemma take_block_size st b s :
  wf st -> In b (block_map st) -> align_mem_size s = s -> s <= get_size (memory st) b ->
  get_size (memory (take_block st b s)) b = s \/
  (get_size (memory (take_block st b s)) b = get_size (memory st) b /\
   get_size (memory st) b < s + sizeof_MemBlock + 4).
Proof.
  intros W Hb Hal Hfit.
  pose proof (wf_key st b W Hb) as [K1 [_ [_ K4]]].
  pose proof (get_size_range (memory st) b) as Hg.
  pose proof (align_range s) as Hs. rewrite Hal in Hs.
  unfold take_block. cbn [memory].
  destruct (Z.lt_ge_cases (get_size (memory st) b) (s + sizeof_MemBlock + 4)) as [Hno|Hroom].
  - right. split; [|exact Hno]. rewrite split_no_room.
    + apply get_size_set_free. lia.
    + rewrite Hal. rewrite wrap_small; [exact Hno|].
      unfold block_end, sizeof_MemBlock in *. lia.
  - left. rewrite <- Hal in Hroom.
    destruct (split_room st b s ltac:(lia) K4 Hroom) as [_ [_ [Hsb _]]].
    rewrite get_size_set_free by lia. rewrite Hsb. exact Hal.
Qed.

(** X11. For a request [0 < n <= 2^64 - 4] on a well-formed state, a
    successful [mem_alloc] returns a pointer whose [n] bytes lie inside one
    arena of the resulting arena list, after the 16 bytes of the block's own
    header; the block's payload size is [align4(n)], or larger by less than
    20 bytes when the free block it came from was too small to be split. *)
Theorem X11_mem_alloc_returns_memory_inside_an_arena :
  forall st n os,
    wf st -> os_ok st n os -> 0 < n <= word_modulus - 4 ->
    exists st' p,
      mem_alloc st n os = Some (st', p) /\
      (p <> NULL ->
         (exists a, In a (arena_list st') /\
            MemArena.base a + sizeof_MemBlock <= p /\
            p + n <= MemArena.limit a /\ MemArena.limit a < word_modulus) /\
         align_mem_size n <= get_size (memory st') (p - sizeof_MemBlock)
           < align_mem_size n + sizeof_MemBlock + 4).
Proof.
  intros st n os W Hos Hn.
  assert (Hn0 : n <> 0) by lia.
  pose proof (align_idem n) as Hal.
  pose proof (align_bounds n ltac:(lia)) as Hb.
  destruct (mem_alloc_props st n os W Hos) as [st' [p [R [W' [_ [_ Hsucc]]]]]].
  exists st', p. split; [exact R|]. intros Hp.
  destruct (Hsucc Hp) as [_ [Hk [_ [_ [_ [Hs _]]]]]].
  split.
  - destruct (wf_key_arena st' _ W' Hk) as [a [Ha [[I1 I2] I3]]].
    destruct (wf_arenas st' W' a Ha) as [_ [_ [_ [_ A5]]]].
    exists a. split; [exact Ha|]. unfold block_end, sizeof_MemBlock in *.
    repeat split; lia.
  - split; [exact Hs|].
    assert (Htb : forall st0 b, wf st0 -> In b (block_map st0) ->
              align_mem_size n <= get_size (memory st0) b ->
              get_size (memory (take_block st0 b (align_mem_size n))) b
                < align_mem_size n + sizeof_MemBlock + 4).
    { intros st0 b W0 Hb0 Hfit.
      destruct (take_block_size st0 b _ W0 Hb0 Hal Hfit) as [E|[E Hlt]]; rewrite E;
        [unfold sizeof_MemBlock; lia | exact Hlt]. }
    destruct (mem_alloc_cases st n os W Hos Hn0)
      as [[R1 _]|[[a [b [_ [[Hbk [_ [_ Hfit]]] R1]]]]|[_ [st1 [_ [W1 [_ [HK [_ [Hgs [_ [_ Hres]]]]]]]]]]]].
    + rewrite R in R1. inversion R1. congruence.
    + rewrite R in R1. inversion R1. subst st' p.
      replace (b + sizeof_MemBlock - sizeof_MemBlock) with b by lia.
      apply Htb; assumption.
    + destruct Hres as [[Hfit R1]|[_ R1]]; rewrite R in R1; inversion R1; [|congruence].
      subst st' p. replace (os + sizeof_MemBlock - sizeof_MemBlock) with os by lia.
      apply Htb; [exact W1 | rewrite HK; left; reflexivity | rewrite Hgs; exact Hfit].
Qed.

Lemma X11_witness :
  mem_alloc grow_1 200 NULL = Some (grow_2, 65668) /\
  (exists a, In a (arena_list grow_2) /\
     MemArena.base a + sizeof_MemBlock <= 65668 /\
     65668 + 200 <= MemArena.limit a /\ MemArena.limit a < word_modulus) /\
  align_mem_size 200 <= get_size (memory grow_2) (65668 - sizeof_MemBlock)
    < align_mem_size 200 + sizeof_MemBlock + 4.
Proof.
  assert (Hn : 0 < 200 <= word_modulus - 4).
  { split; [reflexivity | vm_compute; discriminate]. }
  destruct (X11_mem_alloc_returns_memory_inside_an_arena grow_1 200 NULL
              wf_grow_1 (os_ok_null _ _) Hn) as [st' [p [R H]]].
  assert (Ep : returned (mem_alloc grow_1 200 NULL) = Some 65668) by (vm_compute; reflexivity).
  pose proof (run_returned _ _ _ _ R Ep) as Hp. subst p.
  pose proof (run_state_alloc _ _ _ _ _ R) as Hst. fold grow_2 in Hst. subst st'.
  split; [exact R|]. apply H. discriminate.
Defined.

(** ** What a successful reallocation returns *)

(** X12. For a pointer [p] whose block is indexed in a well-formed state and
    a size [0 <= n <= 2^64 - 4], [mem_realloc(p, n)] finishes, and if it
    returns a non-null pointer [r] then the block behind [r] is indexed with
    payload size at least [n], [r] is 4-byte aligned, and the first
    [min(old_size, n)] bytes behind [r] are the bytes that were behind [p];
    if [r] is [p] the block's [free] flag is unchanged, otherwise the block
    behind [r] is marked in use. *)
Theorem X12_mem_realloc_result_has_room_and_content :
  forall st p n os,
    wf st -> In (p - sizeof_MemBlock) (block_map st) -> os_ok st n os ->
    0 <= n <= word_modulus - 4 ->
    exists st' r,
      mem_realloc st p n os = Some (st', r) /\
      (r <> NULL ->
         In (r - sizeof_MemBlock) (block_map st') /\
         n <= get_size (memory st') (r - sizeof_MemBlock) /\
         r mod 4 = 0 /\
         (forall i, 0 <= i < Z.min (get_size (memory st) (p - sizeof_MemBlock)) n ->
                    memory st' (r + i) = memory st (p + i)) /\
         (r = p -> get_free (memory st') (r - sizeof_MemBlock)
                   = get_free (memory st) (p - sizeof_MemBlock)) /\
         (r <> p -> get_free (memory st') (r - sizeof_MemBlock) = false)).
Proof.
  intros st p n os W Hb Hos Hn.
  destruct (wf_ptr_wrap st p W Hb) as [Hw Hp].
  pose proof (wf_key st _ W Hb) as [K1 [K2 [K3 K4]]].
  pose proof (get_size_range (memory st) (p - sizeof_MemBlock)) as Hg.
  pose proof (align_bounds n ltac:(lia)) as Hal.
  assert (Hpr : 0 <= p < word_modulus).
  { unfold block_end, sizeof_MemBlock in *. lia. }
  destruct (mem_realloc_total st p n os W Hos Hpr) as [st' [r [R _]]].
  exists st', r. split; [exact R|]. intros Hr.
  assert (Hcontent : forall i,
            0 <= i < Z.min (get_size (memory st) (p - sizeof_MemBlock)) n ->
            memory st' (r + i) = memory st (p + i)).
  { intros i Hi. apply (mem_realloc_content st p n os st' r W Hb Hos R Hr). lia. }
  destruct (Z.le_gt_cases (align_mem_size n) (get_size (memory st) (p - sizeof_MemBlock)))
    as [Hfit|Hsmall].
  - rewrite (mem_realloc_in_place st p n os Hp) in R by (rewrite Hw; assumption).
    rewrite Hw in R. inversion R. subst st' r. clear R.
    set (b := p - sizeof_MemBlock) in *.
    assert (Hsplit :
      In b (block_map (split_mem_block st b (align_mem_size n))) /\
      align_mem_size n <= get_size (memory (split_mem_block st b (align_mem_size n))) b /\
      get_free (memory (split_mem_block st b (align_mem_size n))) b = get_free (memory st) b).
    { destruct (Z.lt_ge_cases (get_size (memory st) b)
                  (align_mem_size (align_mem_size n) + sizeof_MemBlock + 4)) as [Hno|Hroom].
      - rewrite split_no_room; [auto|].
        rewrite wrap_small; [exact Hno|]. rewrite align_idem.
        pose proof (align_range n). unfold block_end, sizeof_MemBlock in *. lia.
      - destruct (split_room st b (align_mem_size n) ltac:(lia) K4 Hroom)
          as [_ [HK [Hsb [_ [Hfb _]]]]].
        rewrite align_idem in *.
        split; [rewrite HK; apply map_insert_In; right; exact Hb|].
        split; [rewrite Hsb; lia | exact Hfb]. }
    destruct Hsplit as [S1 [S2 S3]].
    split; [exact S1|]. split; [lia|].
    split; [subst b; unfold sizeof_MemBlock in *; clear - K2; Z.div_mod_to_equations; lia|].
    split; [exact Hcontent|]. split; [intros _; exact S3 | intros E; congruence].
  - destruct (mem_alloc_props st (align_mem_size n) os W (os_ok_align _ _ _ Hos))
      as [st1 [q [Ha [_ [_ [_ Hsucc]]]]]].
    destruct (Z.eq_dec q NULL) as [->|Hq].
    { rewrite (mem_realloc_fallback st p n os Hp) in R by (rewrite Hw; assumption).
      rewrite Ha in R. cbn in R. inversion R. congruence. }
    destruct (Hsucc Hq) as [_ [_ [Hq4 _]]].
    destruct (mem_realloc_relocate st p n os st1 q W Hb Hsmall Hos Ha Hq)
      as [st2 [R2 [_ [Hne [Hk [Hf [Hs _]]]]]]].
    rewrite R in R2. inversion R2. subst st2 q.
    split; [exact Hk|]. split; [lia|]. split; [exact Hq4|].
    split; [exact Hcontent|]. split; [intros E; congruence | intros _; exact Hf].
Qed.

Lemma X12_witness :
  mem_realloc copy_2 65552 200 NULL = Some (after_realloc copy_2 65552 200 NULL, 65620) /\
  200 <= get_size (memory (after_realloc copy_2 65552 200 NULL)) (65620 - sizeof_MemBlock) /\
  memory (after_realloc copy_2 65552 200 NULL) (65620 + 49) = memory copy_2 (65552 + 49).
Proof.
  assert (Hb : In (65552 - sizeof_MemBlock) (block_map copy_2)).
  { apply map_find_true. vm_compute. reflexivity. }
  assert (Hn : 0 <= 200 <= word_modulus - 4).
  { split; [discriminate | vm_compute; discriminate]. }
  destruct (X12_mem_realloc_result_has_room_and_content copy_2 65552 200 NULL
              wf_copy_2 Hb (os_ok_null _ _) Hn) as [st' [r [R H]]].
  assert (Er : returned (mem_realloc copy_2 65552 200 NULL) = Some 65620)
    by (vm_compute; reflexivity).
  pose proof (run_returned _ _ _ _ R Er) as E. subst r.
  pose proof (run_state_realloc _ _ _ _ _ _ R) as Hst. subst st'.
  destruct (H ltac:(discriminate)) as [_ [Hs [_ [Hc _]]]].
  split; [exact R|]. split; [exact Hs|].
  apply Hc. vm_compute. split; [discriminate | reflexivity].
Defined.

(** ** Released memory can be allocated again *)

Lemma covered_init m0 keys0 : covered m0 keys0 keys0 m0.
Proof.
  intros k0 Hk Hf. exists k0. split; [exact Hk|]. split; [exact Hf|]. lia.
Qed.

Lemma covered_merge m0 keys0 b rest keys m :
  sweep_inv m0 keys0 (b :: rest) keys m -> covered m0 keys0 keys m ->
  get_free m b = true ->
  In (wrap (b + sizeof_MemBlock + get_size m b)) keys ->
  covered m0 keys0
    (map_erase (wrap (b + sizeof_MemBlock + get_size m b)) keys)
    (absorb m b (wrap (b + sizeof_MemBlock + get_size m b))).
Proof.
  intros [I [_ [Ht _]]] Hcov Hfb Hn.
  assert (Hb : In b keys) by (apply Ht; left; reflexivity).
  assert (Hw : wrap (b + sizeof_MemBlock + get_size m b) = block_end m b).
  { destruct (index_range _ _ I b Hb) as [R1 R2]. pose proof (get_size_range m b).
    unfold block_end, sizeof_MemBlock in *. apply wrap_small. lia. }
  rewrite Hw in *. set (n := block_end m b) in *.
  destruct (absorb_effect m keys b I Hb Hn) as [_ [Hnb [_ [He [Hfb' [_ Hoth]]]]]].
  fold n in He, Hfb', Hoth.
  pose proof (get_size_range m b) as Gb. pose proof (get_size_range m n) as Gn.
  intros k0 Hk0 Hf0. destruct (Hcov k0 Hk0 Hf0) as [k [Hk [Hf [Hle Hend]]]].
  assert (Hbn : b < n) by (subst n; unfold block_end, sizeof_MemBlock; lia).
  destruct (Z.eq_dec k n) as [->|Hkn].
  - exists b. split; [apply map_erase_In; split; [exact Hb | lia]|].
    split; [rewrite Hfb'; exact Hfb|]. split; [lia|]. rewrite He. exact Hend.
  - destruct (Z.eq_dec k b) as [->|Hkb].
    + exists b. split; [apply map_erase_In; split; [exact Hb | lia]|].
      split; [rewrite Hfb'; exact Hfb|]. split; [exact Hle|]. rewrite He.
      fold n in Hend. unfold block_end at 2. unfold sizeof_MemBlock. lia.
    + destruct (Hoth k Hk Hkb) as [_ [Ef Ee]].
      exists k. split; [apply map_erase_In; split; assumption|].
      split; [rewrite Ef; exact Hf|]. split; [exact Hle|]. rewrite Ee. exact Hend.
Qed.

Lemma merge_loop_covered m0 keys0 :
  index_ok m0 keys0 ->
  forall keys' m',
    merge_loop (merge_fuel keys0) keys0 keys0 m0 = Some (keys', m') ->
    covered m0 keys0 keys' m'.
Proof.
  intros I keys' m' R.
  destruct (merge_loop_rule
              (fun todo keys m => sweep_inv m0 keys0 todo keys m /\ covered m0 keys0 keys m))
    with (fuel := merge_fuel keys0) (todo := keys0) (keys := keys0) (m := m0)
    as [k1 [m1 [R1 [_ Hc]]]].
  - intros b rest keys m [Hs Hc] Hcond. split; [|exact Hc].
    apply (sweep_inv_skip m0 keys0 b rest keys m Hs Hcond).
  - intros b rest keys m [Hs Hc] Hfb Hn Hfn. split.
    + apply sweep_inv_merge; assumption.
    + apply (covered_merge m0 keys0 b rest keys m); assumption.
  - split; [apply sweep_inv_init; exact I | apply covered_init].
  - unfold merge_fuel. lia.
  - rewrite R in R1. inversion R1. subst. exact Hc.
Qed.

(** After a release the index holds a free block at least as large as the
    block released. *)
Lemma mem_free_leaves_room st p :
  wf st -> In (p - sizeof_MemBlock) (block_map st) ->
  exists st',
    mem_free st p = Some st' /\ wf st' /\
    exists k, In k (block_map st') /\ get_free (memory st') k = true /\
              get_size (memory st) (p - sizeof_MemBlock) <= get_size (memory st') k.
Proof.
  intros W Hb. destruct (wf_ptr_wrap st p W Hb) as [Hw Hp].
  destruct (mem_free_props st p W Hb) as [st' [R [W' _]]].
  exists st'. split; [exact R|]. split; [exact W'|].
  rewrite (mem_free_known st p Hp) in R by (rewrite Hw; exact Hb). rewrite Hw in R.
  set (b := p - sizeof_MemBlock) in *.
  pose proof (wf_set_free st b true W Hb) as W1.
  unfold merge_free_blocks in R. cbn [arena_list block_map memory] in R.
  destruct (merge_loop _ _ _ _) as [[keys' m']|] eqn:Hloop; [|discriminate].
  inversion R. subst st'. cbn [block_map memory].
  pose proof (merge_loop_covered _ _ (wf_index_ok _ W1) keys' m' Hloop) as Hcov.
  cbn [memory block_map] in Hcov.
  destruct (Hcov b Hb (get_set_free _ _ _)) as [k [Hk [Hf [Hle Hend]]]].
  exists k. split; [exact Hk|]. split; [exact Hf|].
  assert (E : block_end (set_free (memory st) b true) b = block_end (memory st) b).
  { unfold block_end. f_equal. apply get_size_set_free. lia. }
  rewrite E in Hend. unfold block_end, sizeof_MemBlock in Hend. lia.
Qed.

(** X13. Released memory is reusable.  On a well-formed state, after
    [mem_free(p)] of an indexed block of payload size [s], every request
    [0 < n <= s] is served by [mem_alloc] from the existing arenas, even when
    the OS would refuse to give more memory. *)
Theorem X13_released_memory_can_be_allocated_again :
  forall st p n,
    wf st -> In (p - sizeof_MemBlock) (block_map st) ->
    0 < n <= get_size (memory st) (p - sizeof_MemBlock) ->
    exists st' st'' q,
      mem_free st p = Some st' /\
      mem_alloc st' n NULL = Some (st'', q) /\ q <> NULL /\
      arena_list st'' = arena_list st.
Proof.
  intros st p n W Hb Hn.
  pose proof (wf_key st _ W Hb) as [K1 [_ [K3 K4]]].
  pose proof (get_size_range (memory st) (p - sizeof_MemBlock)) as Hg.
  destruct (mem_free_leaves_room st p W Hb) as [st' [R [W' [k [Hk [Hf Hle]]]]]].
  pose proof (mem_free_arena_list st p st' R) as HA.
  pose proof (align_idem n) as Hal.
  assert (Hs : align_mem_size n <= get_size (memory st) (p - sizeof_MemBlock)).
  { rewrite align_mem_size_eq. unfold block_end in K4. unfold sizeof_MemBlock in *.
    rewrite wrap_small by (unfold word_modulus in *; lia).
    Z.div_mod_to_equations. lia. }
  destruct (wf_key_arena st' k W' Hk) as [a [Ha [Hin _]]].
  assert (Hfit : fits st' a (align_mem_size n) k).
  { split; [exact Hk|]. split; [exact Hin|]. split; [exact Hf | lia]. }
  exists st'.
  destruct (try_arenas_spec st' (align_mem_size n) (arena_list st') W' (incl_refl _) Hal)
    as [[_ Hno]|[a1 [b1 [_ [Hfit1 R1]]]]].
  { exfalso. apply (Hno a k Ha Hfit). }
  exists (take_block st' b1 (align_mem_size n)), (b1 + sizeof_MemBlock).
  split; [exact R|].
  pose proof (fits_not_null st' a1 _ b1 W' Hfit1) as Hnz.
  split.
  - unfold mem_alloc. destruct (Z.eqb_spec n 0); [lia|].
    rewrite R1, Hnz. reflexivity.
  - split; [apply Z.eqb_neq; exact Hnz|].
    rewrite <- HA. destruct Hfit1 as [Hb1 [_ [_ Hle1]]].
    apply (take_block_props st' b1 _ W' Hb1 Hal Hle1).
Qed.

Lemma X13_witness :
  mem_free grow_2 65668 = Some grow_3 /\
  returned (mem_alloc grow_3 200 NULL) = Some 65668.
Proof.
  assert (Hb : In (65668 - sizeof_MemBlock) (block_map grow_2)).
  { apply map_find_true. vm_compute. reflexivity. }
  assert (Hn : 0 < 200 <= get_size (memory grow_2) (65668 - sizeof_MemBlock)).
  { vm_compute. split; [reflexivity | discriminate]. }
  destruct (X13_released_memory_can_be_allocated_again grow_2 65668 200
              wf_grow_2 Hb Hn) as [st' [st'' [q [R [_ _]]]]].
  pose proof (run_state_free _ _ _ R) as Hst. fold grow_3 in Hst. subst st'.
  split; [exact R|]. vm_compute. reflexivity.
Defined.

(** ** The sweep is idempotent *)

Lemma merge_loop_nothing_to_do fuel : forall todo keys m,
  (forall k, In k todo -> get_free m k = true ->
     ~ (In (wrap (k + sizeof_MemBlock + get_size m k)) keys /\
        get_free m (wrap (k + sizeof_MemBlock + get_size m k)) = true)) ->
  (length todo < fuel)%nat ->
  merge_loop fuel todo keys m = Some (keys, m).
Proof.
  induction fuel as [|fuel IH]; intros todo keys m H Hfuel; [lia|].
  cbn [merge_loop]. destruct todo as [|b rest]; [reflexivity|].
  cbn [length] in Hfuel.
  assert (Hrest : merge_loop fuel rest keys m = Some (keys, m)).
  { apply IH; [|lia]. intros k Hk. apply H. right. exact Hk. }
  destruct (get_free m b) eqn:Hf; [|exact Hrest].
  destruct (map_find _ keys && get_free m _) eqn:Hc; [|exact Hrest].
  exfalso. apply andb_true_iff in Hc. destruct Hc as [Hc1 Hc2].
  apply map_find_In in Hc1. apply (H b (or_introl eq_refl) Hf). split; assumption.
Qed.

(** X14. The coalescing sweep is idempotent: on an index whose blocks do not
    overlap, [merge_free_blocks] finishes, and running it again on the state
    it returns finishes too and returns that state unchanged. *)
Theorem X14_merge_free_blocks_is_idempotent :
  forall st,
    index_ok (memory st) (block_map st) ->
    exists st',
      merge_free_blocks st = Some st' /\
      merge_free_blocks st' = Some st'.
Proof.
  intros st I.
  destruct (merge_loop_props _ _ I) as [keys' [m' [R [I' [_ [_ [_ [_ Hdone]]]]]]]].
  exists (mkState (arena_list st) keys' m').
  unfold merge_free_blocks. rewrite R. split; [reflexivity|].
  cbn [arena_list block_map memory].
  rewrite merge_loop_nothing_to_do; [reflexivity | | unfold merge_fuel; lia].
  intros k Hk Hf.
  assert (Hw : wrap (k + sizeof_MemBlock + get_size m' k) = block_end m' k).
  { destruct (index_range _ _ I' k Hk) as [R1 R2]. pose proof (get_size_range m' k).
    unfold block_end, sizeof_MemBlock in *. apply wrap_small. lia. }
  rewrite Hw. apply Hdone; assumption.
Qed.

Lemma X14_witness :
  finished (merge_free_blocks shrink_2) = true /\
  exists st', merge_free_blocks shrink_2 = Some st' /\ merge_free_blocks st' = Some st'.
Proof.
  split; [vm_compute; reflexivity|].
  exact (X14_merge_free_blocks_is_idempotent shrink_2 (wf_index_ok _ wf_shrink_2)).
Defined.

(** ** The listing printed by [mem_show] *)

Lemma show_blocks_spec st a fuel : forall x,
  wf st -> In a (arena_list st) ->
  x = MemArena.limit a \/ (In x (block_map st) /\ in_arena a x) ->
  MemArena.limit a - x < sizeof_MemBlock * Z.of_nat fuel ->
  exists addrs,
    show_blocks fuel (memory st) a x = Some (map (block_line (memory st)) addrs) /\
    lists_blocks_from st a x addrs.
Proof.
  induction fuel as [|fuel IH]; intros x W Ha Hx Hfuel.
  { exfalso. unfold sizeof_MemBlock in Hfuel.
    destruct Hx as [E|[_ [_ I]]]; cbn in Hfuel; lia. }
  destruct (wf_arenas st W a Ha) as [A1 [A2 [A3 [A4 A5]]]].
  unfold MemArena.limit, sizeof_MemBlock in A4, A5.
  cbn [show_blocks]. rewrite (wrap_small (MemArena.base a + MemArena.size a)) by lia.
  fold (MemArena.limit a).
  destruct Hx as [->|[Hk Hin]].
  - rewrite Z.ltb_irrefl. exists []. split; [reflexivity|]. split; [constructor|].
    intros k. split; [intros [] | intros [_ H]; lia].
  - destruct Hin as [I1 I2]. destruct (Z.ltb_spec x (MemArena.limit a)); [|lia].
    pose proof (wf_key st x W Hk) as [K1 [K2 [K3 K4]]].
    pose proof (get_size_range (memory st) x) as Hg.
    destruct (wf_block_in_arena st a x W Ha Hk (conj I1 I2)) as [_ Hnx].
    unfold block_end, sizeof_MemBlock in *.
    rewrite (wrap_small (16 + get_size (memory st) x)) by lia.
    rewrite (wrap_small (x + (16 + get_size (memory st) x))) by lia.
    replace (x + (16 + get_size (memory st) x)) with (x + 16 + get_size (memory st) x) by lia.
    destruct (IH (x + 16 + get_size (memory st) x) W Ha Hnx) as [addrs [R [Hs Hm]]].
    { rewrite Nat2Z.inj_succ in Hfuel. lia. }
    rewrite R. exists (x :: addrs). split; [reflexivity|]. split.
    + constructor; [exact Hs|]. apply Forall_forall. intros k Hkin.
      apply Hm in Hkin. lia.
    + intros k. split.
      * intros [<-|Hkin]; [split; [exact Hk | lia]|].
        apply Hm in Hkin. split; [apply Hkin | lia].
      * intros [Hkk [H1 H2]]. destruct (Z.eq_dec x k) as [E|Hne]; [left; exact E|].
        right. apply Hm. split; [exact Hkk|]. split; [|exact H2].
        pose proof (get_size_range (memory st) k).
        destruct (wf_disjoint st W x k Hk Hkk Hne) as [D|D];
          unfold block_end, sizeof_MemBlock in D; lia.
Qed.

Lemma show_arenas_spec st : forall arenas,
  wf st -> incl arenas (arena_list st) ->
  exists ls,
    Forall2 (fun a addrs => lists_blocks_from st a (MemArena.base a) addrs) arenas ls /\
    show_arenas (memory st) arenas
    = Some (flat_map (fun al => arena_lines (memory st) (fst al) (snd al))
              (combine arenas ls)).
Proof.
  induction arenas as [|a rest IH]; intros W Hincl.
  { exists []. split; [constructor | reflexivity]. }
  assert (Ha : In a (arena_list st)) by (apply Hincl; left; reflexivity).
  destruct (wf_arenas st W a Ha) as [A1 [A2 [A3 [A4 A5]]]].
  destruct (show_blocks_spec st a (walk_fuel a) (MemArena.base a) W Ha)
    as [addrs [R Hl]].
  { right. split; [apply (wf_base st W a Ha)|].
    unfold in_arena, MemArena.limit, sizeof_MemBlock in *. lia. }
  { unfold walk_fuel, MemArena.limit, sizeof_MemBlock in *.
    rewrite Nat2Z.inj_succ, Z2Nat.id by (apply Z.div_pos; lia).
    Z.div_mod_to_equations. lia. }
  destruct (IH W) as [ls [HF Rr]].
  { intros x Hx. apply Hincl. right. exact Hx. }
  exists (addrs :: ls). split; [constructor; assumption|].
  cbn [show_arenas combine flat_map fst snd]. rewrite R, Rr. reflexivity.
Qed.

(** X15. On a well-formed state [mem_show] finishes and prints: the message;
    then, for each arena in list order (newest first), the arena's base and
    size followed by one line for every indexed block of that arena, in
    increasing address order, with the size and the three flags found in the
    block's header.  Nothing that is not in the index gets a line. *)
Theorem X15_mem_show_lists_the_indexed_blocks :
  forall st message,
    wf st ->
    exists ls,
      Forall2 (fun a addrs => lists_blocks_from st a (MemArena.base a) addrs)
        (arena_list st) ls /\
      mem_show st message
      = Some (ShowMessage message ::
              flat_map (fun al => arena_lines (memory st) (fst al) (snd al))
                (combine (arena_list st) ls)).
Proof.
  intros st message W.
  destruct (show_arenas_spec st (arena_list st) W (incl_refl _)) as [ls [HF R]].
  exists ls. split; [exact HF|]. unfold mem_show. rewrite R. reflexivity.
Qed.

Lemma X15_witness :
  mem_show grow_2 String.EmptyString
  = Some [ShowMessage String.EmptyString; ShowArena 65536 4096;
          ShowBlock 100 false true false; ShowBlock 200 false false false;
          ShowBlock 3748 true false true] /\
  exists ls,
    Forall2 (fun a addrs => lists_blocks_from grow_2 a (MemArena.base a) addrs)
      (arena_list grow_2) ls /\
    mem_show grow_2 String.EmptyString
    = Some (ShowMessage String.EmptyString ::
            flat_map (fun al => arena_lines (memory grow_2) (fst al) (snd al))
              (combine (arena_list grow_2) ls)).
Proof.
  split; [vm_compute; reflexivity|].
  exact (X15_mem_show_lists_the_indexed_blocks grow_2 String.EmptyString wf_grow_2).
Defined.

(** ** [fill_data_randomly] followed by [compute_checksum] *)

Lemma fill_loop_outside count : forall m data i rand calls x,
  x < data + i \/ data + i + Z.of_nat count <= x ->
  fill_loop m data count i rand calls x = m x.
Proof.
  induction count as [|count IH]; intros m data i rand calls x Hx; cbn [fill_loop];
    [reflexivity|].
  rewrite IH by lia. apply store8_other. lia.
Qed.

Lemma fill_loop_inside count : forall m data i rand calls j,
  (j < count)%nat ->
  fill_loop m data count i rand calls (data + i + Z.of_nat j) = rand (calls + j)%nat mod 256.
Proof.
  induction count as [|count IH]; intros m data i rand calls j Hj; [lia|].
  cbn [fill_loop]. destruct j as [|j].
  - rewrite fill_loop_outside by lia. rewrite Z.add_0_r, Nat.add_0_r.
    rewrite store8_same. apply Z.mod_mod. lia.
  - replace (data + i + Z.of_nat (S j)) with (data + (i + 1) + Z.of_nat j) by lia.
    rewrite IH by lia. f_equal. f_equal. lia.
Qed.

Lemma byte_sum_rand m data rand n :
  (forall j, (j < n)%nat -> m (data + Z.of_nat j) = rand j mod 256) ->
  byte_sum m data n = rand_sum rand n.
Proof.
  induction n as [|n IH]; intros H; cbn [byte_sum rand_sum]; [reflexivity|].
  rewrite IH by (intros j Hj; apply H; lia).
  unfold load8. rewrite H by lia. rewrite Z.mod_mod by lia. reflexivity.
Qed.

(** X16. [fill_data_randomly(data, size)] writes the [size] bytes at [data],
    byte [j] being the [j]-th value drawn from [rand()] modulo 256, and
    writes nothing else; [compute_checksum(data, size)] right afterwards
    returns the sum of those bytes modulo 2^32. *)
Theorem X16_checksum_of_freshly_filled_data :
  forall m data size rand,
    0 <= size ->
    let m' := fill_data_randomly m data size rand in
    (forall x, x < data \/ data + size <= x -> m' x = m x) /\
    (forall j, (j < Z.to_nat size)%nat -> m' (data + Z.of_nat j) = rand j mod 256) /\
    compute_checksum m' data size = rand_sum rand (Z.to_nat size) mod uint32_modulus.
Proof.
  intros m data size rand Hs m'. subst m'. unfold fill_data_randomly.
  assert (Hin : forall j, (j < Z.to_nat size)%nat ->
            fill_loop m data (Z.to_nat size) 0 rand 0 (data + Z.of_nat j) = rand j mod 256).
  { intros j Hj. replace (data + Z.of_nat j) with (data + 0 + Z.of_nat j) by lia.
    rewrite fill_loop_inside by exact Hj. reflexivity. }
  split; [|split; [exact Hin|]].
  - intros x Hx. apply fill_loop_outside. rewrite Z2Nat.id by lia. lia.
  - rewrite compute_checksum_sum. f_equal. apply byte_sum_rand. exact Hin.
Qed.

Lemma X16_witness :
  compute_checksum
    (fill_data_randomly (memory copy_2) 65552 4 (fun k => 300 + 7 * Z.of_nat k)) 65552 4
  = 44 + 51 + 58 + 65 /\
  fill_data_randomly (memory copy_2) 65552 4 (fun k => 300 + 7 * Z.of_nat k) 65556
  = memory copy_2 65556.
Proof.
  destruct (X16_checksum_of_freshly_filled_data (memory copy_2) 65552 4
              (fun k => 300 + 7 * Z.of_nat k) ltac:(discriminate)) as [Hout [_ Hsum]].
  split.
  - rewrite Hsum. vm_compute. reflexivity.
  - apply Hout. right. vm_compute. discriminate.
Defined.

(** ** [create_new_arena] *)

(** X17. [create_new_arena] with a null answer from the OS returns no arena
    and the state it was given.  With a non-null answer [os] it returns the
    arena [{size, os}] where [size] is [align4(max(requested, default))],
    puts it at the head of the arena list and [os] into the index; whenever
    [16 <= size] and the region does not run past the end of the address
    space, the header at [os] then describes one block of [size - 16] bytes
    that is free, first and last, every payload byte of the region is zero,
    and no byte outside the region has changed. *)
Theorem X17_create_new_arena_seeds_one_free_block :
  forall st requested default_size os,
    create_new_arena st requested default_size NULL = (st, None) /\
    (os <> NULL ->
     let size := align_mem_size (Z.max requested default_size) in
     let st' := fst (create_new_arena st requested default_size os) in
     snd (create_new_arena st requested default_size os) = Some (MemArena.mk size os) /\
     arena_list st' = MemArena.mk size os :: arena_list st /\
     (forall k, In k (block_map st') <-> k = os \/ In k (block_map st)) /\
     (sizeof_MemBlock <= size -> 0 <= os -> os + size <= word_modulus ->
        block_at (memory st') os = MemBlock.mk (size - sizeof_MemBlock) true true true /\
        (forall x, os + sizeof_MemBlock <= x < os + size -> memory st' x = 0) /\
        (forall x, x < os \/ os + size <= x -> memory st' x = memory st x))).
Proof.
  intros st requested default_size os. split; [reflexivity|].
  intros Hos size st'. subst st'. unfold create_new_arena. fold size.
  destruct (Z.eqb_spec os NULL); [contradiction|]. cbn [fst snd arena_list block_map memory].
  split; [reflexivity|]. split; [reflexivity|].
  split; [intros k; apply map_insert_In|].
  intros Hsz Hos0 Hend.
  pose proof (align_range (Z.max requested default_size)) as Hr. fold size in Hr.
  unfold sizeof_MemBlock in *.
  rewrite (wrap_small (size - 16)) by lia.
  split; [|split].
  - unfold block_at. f_equal.
    + hdr. reflexivity.
    + hdr. reflexivity.
    + rewrite (get_first_ext (set_first (set_free (set_size
                 (zero_fill (memory st) os size) os (size - 16)) os true) os true))
        by (outside; reflexivity).
      apply get_set_first.
    + hdr. reflexivity.
  - intros x Hx. outside. unfold zero_fill.
    destruct (Z.leb_spec os x); destruct (Z.ltb_spec x (os + size)); cbn; try reflexivity; lia.
  - intros x Hx. outside. apply zero_fill_outside. exact Hx.
Qed.

Lemma X17_witness :
  snd (create_new_arena initial_state 116 default_arena_size 65536)
  = Some (MemArena.mk 4096 65536) /\
  block_at (memory (fst (create_new_arena initial_state 116 default_arena_size 65536))) 65536
  = MemBlock.mk 4080 true true true.
Proof.
  destruct (X17_create_new_arena_seeds_one_free_block initial_state 116 default_arena_size 65536)
    as [_ H].
  destruct (H ltac:(discriminate)) as [Hret [_ [_ Hblk]]].
  split; [exact Hret|].
  destruct Hblk as [Hat _]; [vm_compute; discriminate | discriminate | vm_compute; discriminate|].
  exact Hat.
Defined.

(** ** [split_mem_block] *)

(** X18. [split_mem_block(block, size)] on a block that does not run past
    the end of the address space: when the payload is smaller than
    [align4(size) + 16 + 4] (a sum that must not wrap around 2^64) nothing
    changes at all.  When it is not smaller, the block
    keeps its [free] and [first] flags, loses [last] and gets payload size
    [align4(size)]; a new block starts right behind that payload, is put
    into the index, is free, not first, inherits the old [last] flag, and
    has at least 4 payload bytes; the two blocks together occupy exactly the
    bytes of the old one, and no byte outside the two headers changes. *)
Theorem X18_split_conserves_the_block :
  forall st block size,
    0 <= block -> block_end (memory st) block < word_modulus ->
    let s := align_mem_size size in
    let old := block_at (memory st) block in
    let st' := split_mem_block st block size in
    let new_block := block + sizeof_MemBlock + s in
    (MemBlock.size old < s + sizeof_MemBlock + 4 < word_modulus -> st' = st) /\
    (s + sizeof_MemBlock + 4 <= MemBlock.size old ->
       block_at (memory st') block
         = MemBlock.mk s (MemBlock.free old) (MemBlock.first old) false /\
       block_at (memory st') new_block
         = MemBlock.mk (MemBlock.size old - s - sizeof_MemBlock) true false (MemBlock.last old) /\
       4 <= get_size (memory st') new_block /\
       block_end (memory st') block = new_block /\
       block_end (memory st') new_block = block_end (memory st) block /\
       (forall k, In k (block_map st') <-> k = new_block \/ In k (block_map st)) /\
       (forall x, ~ in_header block x -> ~ in_header new_block x ->
                  memory st' x = memory st x)).
Proof.
  intros st block size Hb He s old st' new_block.
  pose proof (align_range size) as Hs. fold s in Hs.
  pose proof (get_size_range (memory st) block) as Hg.
  subst old. cbn [MemBlock.size MemBlock.free MemBlock.first MemBlock.last block_at].
  unfold block_end, sizeof_MemBlock, in_header in *.
  split.
  - intros Hno. subst st'. apply split_no_room. fold s. unfold sizeof_MemBlock.
    rewrite wrap_small by lia. apply Hno.
  - intros Hroom.
    assert (Hst : st' = mkState (arena_list st) (map_insert new_block (block_map st))
       (set_last (set_size (set_last (set_first (set_free (set_size (memory st) new_block
          (get_size (memory st) block - s - 16)) new_block true) new_block false) new_block
          (get_last (set_first (set_free (set_size (memory st) new_block
          (get_size (memory st) block - s - 16)) new_block true) new_block false) block))
          block s) block false)).
    { subst st'. unfold split_mem_block. fold s. unfold sizeof_MemBlock.
      rewrite (wrap_small (s + 16 + 4)) by lia.
      destruct (Z.leb_spec (s + 16 + 4) (get_size (memory st) block)); [|lia].
      rewrite (wrap_small (block + 16 + s)) by lia.
      rewrite (wrap_small (get_size (memory st) block - s - 16)) by lia.
      reflexivity. }
    rewrite Hst. cbn [arena_list block_map memory]. subst new_block.
    set (nb := block + 16 + s) in *.
    assert (Hsb : forall m1 v, get_size (set_last (set_size m1 block s) block v) block = s).
    { intros m1 v. hdr. reflexivity. }
    split; [|split; [|split; [|split; [|split; [|split]]]]].
    + unfold block_at. f_equal.
      * hdr. reflexivity.
      * subst nb. hdr. reflexivity.
      * unfold get_first, load8. subst nb. outside. reflexivity.
      * hdr. reflexivity.
    + unfold block_at. f_equal.
      * subst nb. hdr. reflexivity.
      * subst nb. hdr. reflexivity.
      * unfold get_first, load8. subst nb. outside.
        unfold set_first. rewrite store8_same. reflexivity.
      * subst nb. hdr. reflexivity.
    + subst nb. hdr. lia.
    + rewrite Hsb. reflexivity.
    + subst nb. hdr. lia.
    + intros k. apply map_insert_In.
    + intros x H1 H2. subst nb. unfold in_header, sizeof_MemBlock in *.
      outside. reflexivity.
Qed.

Lemma X18_witness :
  block_at (memory (split_mem_block grow_1 65536 10)) 65536
    = MemBlock.mk 12 false true false /\
  block_at (memory (split_mem_block grow_1 65536 10)) (65536 + sizeof_MemBlock + 12)
    = MemBlock.mk 72 true false false /\
  split_mem_block grow_1 65536 90 = grow_1.
Proof.
  assert (Hb : 0 <= 65536) by discriminate.
  assert (He : block_end (memory grow_1) 65536 < word_modulus) by (vm_compute; reflexivity).
  destruct (X18_split_conserves_the_block grow_1 65536 10 Hb He) as [_ Hsplit].
  destruct (X18_split_conserves_the_block grow_1 65536 90 Hb He) as [Hkeep _].
  destruct Hsplit as [H1 [H2 _]]; [vm_compute; discriminate|].
  split; [exact H1|]. split; [exact H2|]. apply Hkeep. vm_compute. split; reflexivity.
Defined.

(** ** Releasing the last live block *)

(** What the sweep of a release guarantees, on a well-formed state. *)
Lemma mem_free_sweep st p :
  wf st -> In (p - sizeof_MemBlock) (block_map st) ->
  exists st',
    mem_free st p = Some st' /\ wf st' /\
    arena_list st' = arena_list st /\
    incl (block_map st') (block_map st) /\
    (forall k, In k (block_map st') ->
       get_free (memory st') k
       = get_free (set_free (memory st) (p - sizeof_MemBlock) true) k) /\
    (forall k, In k (block_map st') -> get_free (memory st') k = true ->
       ~ (In (block_end (memory st') k) (block_map st') /\
          get_free (memory st') (block_end (memory st') k) = true)).
Proof.
  intros W Hb. destruct (wf_ptr_wrap st p W Hb) as [Hw Hp].
  destruct (mem_free_props st p W Hb) as [st' [R [W' [HA _]]]].
  exists st'. split; [exact R|]. split; [exact W'|]. split; [exact HA|].
  rewrite (mem_free_known st p Hp) in R by (rewrite Hw; exact Hb). rewrite Hw in R.
  set (b := p - sizeof_MemBlock) in *.
  pose proof (wf_set_free st b true W Hb) as W1.
  destruct (merge_loop_props _ _ (wf_index_ok _ W1))
    as [keys' [m' [Hloop [_ [Hk [Hfl [_ [_ Hdone]]]]]]]].
  cbn [memory block_map] in Hloop, Hk, Hfl, Hdone.
  unfold merge_free_blocks in R. cbn [arena_list block_map memory] in R.
  rewrite Hloop in R. inversion R. subst st'. cbn [block_map memory].
  split; [exact Hk|]. split; [exact Hfl | exact Hdone].
Qed.

(** X19. Releasing the last live block coalesces everything.  On a
    well-formed state in which every indexed block other than the one behind
    [p] is free, after [mem_free(p)] each arena holds exactly one indexed
    block: it starts at the arena base, is free, and its payload is the
    whole arena minus the 16 bytes of its header. *)
Theorem X19_release_of_the_last_live_block_restores_the_arenas :
  forall st p,
    wf st -> In (p - sizeof_MemBlock) (block_map st) ->
    (forall k, In k (block_map st) -> k <> p - sizeof_MemBlock ->
               get_free (memory st) k = true) ->
    exists st',
      mem_free st p = Some st' /\
      arena_list st' = arena_list st /\
      forall a, In a (arena_list st') ->
        (forall k, (In k (block_map st') /\ in_arena a k) <-> k = MemArena.base a) /\
        get_free (memory st') (MemArena.base a) = true /\
        get_size (memory st') (MemArena.base a) = MemArena.size a - sizeof_MemBlock.
Proof.
  intros st p W Hb Hall.
  destruct (mem_free_sweep st p W Hb) as [st' [R [W' [HA [Hk [Hfl Hdone]]]]]].
  exists st'. split; [exact R|]. split; [exact HA|].
  assert (Hfree : forall k, In k (block_map st') -> get_free (memory st') k = true).
  { intros k Hkk. rewrite (Hfl k Hkk).
    destruct (Z.eq_dec k (p - sizeof_MemBlock)) as [->|Hne]; [apply get_set_free|].
    rewrite get_free_set_free by exact Hne. apply Hall; [apply Hk; exact Hkk | exact Hne]. }
  intros a Ha.
  pose proof (wf_base st' W' a Ha) as Hbase.
  destruct (wf_arenas st' W' a Ha) as [A1 [A2 [A3 [A4 A5]]]].
  assert (Hina : in_arena a (MemArena.base a)).
  { unfold in_arena, MemArena.limit, sizeof_MemBlock in *. lia. }
  destruct (wf_block_in_arena st' a _ W' Ha Hbase Hina) as [_ Hnx].
  assert (Hend : block_end (memory st') (MemArena.base a) = MemArena.limit a).
  { destruct Hnx as [E|[Hin _]]; [exact E|]. exfalso.
    apply (Hdone _ Hbase (Hfree _ Hbase)). split; [exact Hin | apply Hfree; exact Hin]. }
  split; [|split; [apply Hfree; exact Hbase|]].
  - intros k. split.
    + intros [Hkk [I1 I2]].
      destruct (Z.eq_dec k (MemArena.base a)) as [E|Hne]; [exact E|]. exfalso.
      pose proof (get_size_range (memory st') k).
      destruct (wf_disjoint st' W' k _ Hkk Hbase Hne) as [D|D].
      * unfold block_end, sizeof_MemBlock in D. lia.
      * rewrite Hend in D. lia.
    + intros ->. split; assumption.
  - unfold block_end, MemArena.limit in Hend. lia.
Qed.

Lemma X19_witness :
  mem_free grow_1 65552 = Some (after_free grow_1 65552) /\
  get_free (memory (after_free grow_1 65552)) 65536 = true /\
  get_size (memory (after_free grow_1 65552)) 65536 = 4096 - sizeof_MemBlock.
Proof.
  assert (Hb : In (65552 - sizeof_MemBlock) (block_map grow_1)).
  { apply map_find_true. vm_compute. reflexivity. }
  assert (Hall : forall k, In k (block_map grow_1) -> k <> 65552 - sizeof_MemBlock ->
                           get_free (memory grow_1) k = true).
  { intros k Hk Hne.
    replace (block_map grow_1) with [65652; 65536] in Hk by (vm_compute; reflexivity).
    destruct Hk as [<-|[<-|[]]]; [vm_compute; reflexivity|].
    exfalso. apply Hne. reflexivity. }
  destruct (X19_release_of_the_last_live_block_restores_the_arenas grow_1 65552
              wf_grow_1 Hb Hall) as [st' [R [_ H]]].
  pose proof (run_state_free _ _ _ R) as Hst. subst st'.
  split; [exact R|].
  destruct (H (MemArena.mk 4096 65536)) as [_ [Hf Hs]].
  { replace (arena_list (after_free grow_1 65552)) with [MemArena.mk 4096 65536]
      by (vm_compute; reflexivity).
    left. reflexivity. }
  split; [exact Hf | exact Hs].
Defined.

(** ** Relocation by [mem_realloc] *)

(** After a release, the block released lies inside one block that is in
    the index and marked free. *)
Lemma mem_free_covers st p :
  wf st -> In (p - sizeof_MemBlock) (block_map st) ->
  exists st',
    mem_free st p = Some st' /\
    exists k, In k (block_map st') /\ get_free (memory st') k = true /\
              k <= p - sizeof_MemBlock /\
              block_end (memory st) (p - sizeof_MemBlock) <= block_end (memory st') k.
Proof.
  intros W Hb. destruct (wf_ptr_wrap st p W Hb) as [Hw Hp].
  destruct (mem_free_props st p W Hb) as [st' [R _]].
  exists st'. split; [exact R|].
  rewrite (mem_free_known st p Hp) in R by (rewrite Hw; exact Hb). rewrite Hw in R.
  set (b := p - sizeof_MemBlock) in *.
  pose proof (wf_set_free st b true W Hb) as W1.
  unfold merge_free_blocks in R. cbn [arena_list block_map memory] in R.
  destruct (merge_loop _ _ _ _) as [[keys' m']|] eqn:Hloop; [|discriminate].
  inversion R. subst st'. cbn [block_map memory].
  pose proof (merge_loop_covered _ _ (wf_index_ok _ W1) keys' m' Hloop) as Hcov.
  cbn [memory block_map] in Hcov.
  destruct (Hcov b Hb (get_set_free _ _ _)) as [k [Hk [Hf [Hle Hend]]]].
  exists k. split; [exact Hk|]. split; [exact Hf|]. split; [exact Hle|].
  assert (E : block_end (set_free (memory st) b true) b = block_end (memory st) b).
  { unfold block_end. f_equal. apply get_size_set_free. lia. }
  rewrite E in Hend. exact Hend.
Qed.

(** The release at the end of the relocating path of [mem_realloc]. *)
Lemma mem_realloc_relocate_releases st p n os st1 q :
  wf st -> In (p - sizeof_MemBlock) (block_map st) ->
  get_size (memory st) (p - sizeof_MemBlock) < align_mem_size n ->
  os_ok st n os ->
  mem_alloc st (align_mem_size n) os = Some (st1, q) -> q <> NULL ->
  exists st',
    mem_realloc st p n os = Some (st', q) /\
    exists k, In k (block_map st') /\ get_free (memory st') k = true /\
              k <= p - sizeof_MemBlock /\
              block_end (memory st) (p - sizeof_MemBlock) <= block_end (memory st') k.
Proof.
  intros W Hb Hsmall Hos Ha Hq.
  set (old := get_size (memory st) (p - sizeof_MemBlock)) in *.
  destruct (wf_ptr_wrap st p W Hb) as [Hw Hp].
  rewrite (mem_realloc_fallback st p n os Hp) by (rewrite Hw; assumption).
  rewrite Ha. destruct (Z.eqb_spec q NULL); [contradiction|]. rewrite Hw.
  destruct (mem_alloc_props st (align_mem_size n) os W (os_ok_align _ _ _ Hos))
    as [st1' [q' [Ha' [W1 [HK1 [_ Hsucc]]]]]].
  rewrite Ha in Ha'. inversion Ha'. subst st1' q'. clear Ha'.
  destruct (Hsucc Hq) as [_ [Hqk [Hq4 [Hqr [Hqf [Hqs [Hqold [Hoth _]]]]]]]].
  rewrite align_idem in Hqs, Hqold.
  set (b := p - sizeof_MemBlock) in *. set (c := q - sizeof_MemBlock) in *.
  assert (Hcb : b <> c).
  { intros E. rewrite <- E in Hqold. destruct (Hqold Hb) as [_ G]. lia. }
  pose proof (get_size_range (memory st) b) as Gb. fold old in Gb.
  assert (Hb1 : In b (block_map st1)) by (apply HK1; exact Hb).
  assert (Hsz1 : get_size (memory st1) b = old).
  { apply get_size_ext. intros x Hx. apply (Hoth b x Hb Hcb).
    unfold block_end, sizeof_MemBlock. fold old. lia. }
  rewrite Hsz1.
  set (m2 := memcpy (memory st1) q p old).
  assert (Hout : forall x, x < q \/ q + old <= x -> m2 x = memory st1 x).
  { intros x Hx. subst m2. apply memcpy_outside. lia. }
  assert (W2 : wf (mkState (arena_list st1) (block_map st1) m2)).
  { apply (wf_payload_write st1 c); [exact W1 | exact Hqk|].
    intros x Hx. apply Hout. unfold block_end, sizeof_MemBlock in *. subst c. lia. }
  assert (Hsz2 : get_size m2 b = old).
  { rewrite <- Hsz1. apply get_size_ext. intros x Hx. apply Hout.
    pose proof (get_size_range (memory st1) c).
    destruct (wf_disjoint st1 W1 b c Hb1 Hqk Hcb) as [D|D];
      unfold block_end, sizeof_MemBlock in *; subst c; lia. }
  destruct (mem_free_covers (mkState (arena_list st1) (block_map st1) m2) p W2 Hb1)
    as [st' [R [k [Hk [Hf [Hle Hend]]]]]].
  fold b in Hle, Hend. cbn [memory] in Hend.
  exists st'. rewrite R. split; [reflexivity|].
  exists k. split; [exact Hk|]. split; [exact Hf|]. split; [exact Hle|].
  unfold block_end in Hend at 1. rewrite Hsz2 in Hend.
  unfold block_end at 1. fold old. exact Hend.
Qed.

(** X20. Relocation copies the block and releases it.  On a well-formed
    state, with an answer of the OS that is null or a fresh region, let [p]
    be a pointer whose header address is in the index, [n] a size below
    [2^64], and let the block behind [p] hold [old < align4(n)] bytes, so
    that [mem_realloc(p, n)] takes its relocating path; let the inner
    [mem_alloc(align4(n))] return a block [q].  Then [min(old, n)] is [old];
    [mem_realloc] finishes and returns [q], which differs from [p]; the first
    [min(old, n)] bytes behind [q] are the bytes that were behind [p]; the
    rest of the new payload is as the allocation left it; the old block is
    released: its header and payload lie inside one block that is in the
    index and marked free afterwards; and the new block is in the index, in
    use, of payload size at least [n]. *)
Theorem X20_relocation_copies_and_releases :
  forall st p n os st1 q,
    wf st -> In (p - sizeof_MemBlock) (block_map st) ->
    0 <= n < word_modulus ->
    let old := get_size (memory st) (p - sizeof_MemBlock) in
    old < align_mem_size n ->
    os_ok st n os ->
    mem_alloc st (align_mem_size n) os = Some (st1, q) -> q <> NULL ->
    Z.min old n = old /\
    exists st',
      mem_realloc st p n os = Some (st', q) /\ q <> p /\
      (forall i, 0 <= i < Z.min old n -> memory st' (q + i) = memory st (p + i)) /\
      (forall i, Z.min old n <= i < get_size (memory st') (q - sizeof_MemBlock) ->
                 memory st' (q + i) = memory st1 (q + i)) /\
      (exists k, In k (block_map st') /\ get_free (memory st') k = true /\
                 k <= p - sizeof_MemBlock /\ p + old <= block_end (memory st') k) /\
      In (q - sizeof_MemBlock) (block_map st') /\
      get_free (memory st') (q - sizeof_MemBlock) = false /\
      n <= get_size (memory st') (q - sizeof_MemBlock).
Proof.
  intros st p n os st1 q W Hb Hn old Hsmall Hos Ha Hq.
  pose proof (wf_key st _ W Hb) as [_ [_ [K3 _]]].
  pose proof (get_size_range (memory st) (p - sizeof_MemBlock)) as Hg.
  fold old in K3, Hg.
  assert (Hmin : Z.min old n = old).
  { apply relocation_copies_whole_block; try assumption. lia. }
  split; [exact Hmin|]. rewrite Hmin.
  destruct (mem_realloc_relocate st p n os st1 q W Hb Hsmall Hos Ha Hq)
    as [st' [R [_ [Hne [Hk [Hf [Hs [_ [Hcopy Hrest]]]]]]]]].
  destruct (mem_realloc_relocate_releases st p n os st1 q W Hb Hsmall Hos Ha Hq)
    as [st'' [R' [k [Hkin [Hkf [Hkle Hkend]]]]]].
  rewrite R in R'. inversion R'. subst st''. clear R'.
  exists st'. split; [exact R|]. split; [exact Hne|]. split; [exact Hcopy|].
  split; [exact Hrest|].
  split.
  { exists k. split; [exact Hkin|]. split; [exact Hkf|]. split; [exact Hkle|].
    unfold block_end in Hkend at 1. fold old in Hkend.
    unfold sizeof_MemBlock in Hkend at 1 2. lia. }
  split; [exact Hk|]. split; [exact Hf|].
  rewrite align_mem_size_eq in *. unfold wrap, word_modulus in *.
  Z.div_mod_to_equations. lia.
Qed.

Lemma X20_witness :
  Z.min (get_size (memory copy_2) (65552 - sizeof_MemBlock)) 200 = 52 /\
  mem_realloc copy_2 65552 200 NULL = Some (after_realloc copy_2 65552 200 NULL, 65620) /\
  memory (after_realloc copy_2 65552 200 NULL) (65620 + 51) = memory copy_2 (65552 + 51) /\
  exists k, In k (block_map (after_realloc copy_2 65552 200 NULL)) /\
            get_free (memory (after_realloc copy_2 65552 200 NULL)) k = true /\
            k <= 65552 - sizeof_MemBlock /\
            65552 + 52 <= block_end (memory (after_realloc copy_2 65552 200 NULL)) k.
Proof.
  assert (Hb : In (65552 - sizeof_MemBlock) (block_map copy_2)).
  { apply map_find_true. vm_compute. reflexivity. }
  assert (Hr : mem_realloc copy_2 65552 200 NULL
               = Some (after_realloc copy_2 65552 200 NULL, 65620)).
  { apply realloc_run. vm_compute. reflexivity. }
  assert (Hn : 0 <= 200 < word_modulus) by (split; [discriminate | reflexivity]).
  assert (Hsmall : get_size (memory copy_2) (65552 - sizeof_MemBlock) < align_mem_size 200).
  { vm_compute. reflexivity. }
  assert (Ha : mem_alloc copy_2 (align_mem_size 200) NULL
               = Some (after_alloc copy_2 (align_mem_size 200) NULL, 65620)).
  { apply alloc_run. vm_compute. reflexivity. }
  assert (Hold : get_size (memory copy_2) (65552 - sizeof_MemBlock) = 52).
  { vm_compute. reflexivity. }
  destruct (X20_relocation_copies_and_releases copy_2 65552 200 NULL _ 65620
              wf_copy_2 Hb Hn Hsmall (os_ok_null _ _) Ha ltac:(discriminate))
    as [Hmin [st' [R [_ [Hcopy [_ [Hrel _]]]]]]].
  pose proof (run_state_realloc _ _ _ _ _ _ R) as Hst. subst st'.
  split; [rewrite Hmin; exact Hold|]. split; [exact Hr|].
  split.
  - apply Hcopy. rewrite Hmin, Hold. split; [discriminate | reflexivity].
  - rewrite Hold in Hrel. exact Hrel.
Defined.

(** X21. Content survives a reallocation.  On a well-formed state, with
    answers of the OS that are null or fresh regions: after a successful
    [p = mem_alloc(50)], a caller writing any 50 bytes at [p], and a
    [mem_realloc(p, 200)] that returns a non-null pointer, the first 50 bytes
    behind the returned pointer are the bytes written. *)
Theorem X21_content_survives_reallocation :
  forall st os1 os2 st1 p pattern st3 r,
    wf st -> os_ok st 50 os1 ->
    mem_alloc st 50 os1 = Some (st1, p) -> p <> NULL ->
    length pattern = 50%nat ->
    let st2 := mkState (arena_list st1) (block_map st1)
                 (store_bytes (memory st1) p pattern) in
    os_ok st2 200 os2 ->
    mem_realloc st2 p 200 os2 = Some (st3, r) -> r <> NULL ->
    forall i, (i < 50)%nat ->
      memory st3 (r + Z.of_nat i) = nth i pattern 0 mod 256.
Proof.
  intros st os1 os2 st1 p pattern st3 r W Hos1 Ha Hp Hlen st2 Hos2 R Hr i Hi.
  destruct (mem_alloc_props st 50 os1 W Hos1) as [st1' [p' [Ha' [W1 [_ [_ Hsucc]]]]]].
  rewrite Ha in Ha'. inversion Ha'. subst st1' p'. clear Ha'.
  destruct (Hsucc Hp) as [_ [Hk [_ [_ [_ [Hs _]]]]]].
  change (align_mem_size 50) with 52 in Hs.
  set (b := p - sizeof_MemBlock) in *.
  assert (Hout : forall x, x < p \/ p + 50 <= x -> memory st2 x = memory st1 x).
  { intros x Hx. subst st2. cbn [memory]. apply store_bytes_outside.
    rewrite Hlen. lia. }
  assert (W2 : wf st2).
  { apply (wf_payload_write st1 b); [exact W1 | exact Hk|].
    intros x Hx. apply Hout. subst b. unfold block_end, sizeof_MemBlock in *. lia. }
  assert (Hsz : get_size (memory st2) b = get_size (memory st1) b).
  { apply get_size_ext. intros x Hx. apply Hout. subst b.
    unfold sizeof_MemBlock in *. lia. }
  rewrite (mem_realloc_content st2 p 200 os2 st3 r W2 Hk Hos2 R Hr).
  + subst st2. cbn [memory]. apply store_bytes_inside. lia.
  + fold b. rewrite Hsz. change (align_mem_size 200) with 200. lia.
Qed.

Lemma X21_witness :
  memory (after_realloc copy_2 65552 200 NULL) (65620 + Z.of_nat 7) = 8.
Proof.
  assert (Hr : mem_realloc copy_2 65552 200 NULL
               = Some (after_realloc copy_2 65552 200 NULL, 65620)).
  { apply realloc_run. vm_compute. reflexivity. }
  assert (Ha : mem_alloc initial_state 50 65536 = Some (copy_1, 65552)).
  { unfold copy_1. apply alloc_run. vm_compute. reflexivity. }
  assert (Hos : os_ok initial_state 50 65536) by (apply os_ok_first; reflexivity).
  exact (X21_content_survives_reallocation initial_state 65536 NULL copy_1 65552
           pattern_50 _ 65620 wf_initial Hos Ha ltac:(discriminate) eq_refl
           (os_ok_null _ _) Hr ltac:(discriminate) 7%nat ltac:(lia)).
Defined.
